(** * Tic-tac-toe room server: a shallow embedding of [server.js] and of the
    single-game HTTP variant, with the properties of the specification.

    Conventions of the embedding.
    - A JavaScript object that is shared and mutated ([rooms], a [ws]
      connection, a timer) lives in an explicit store of the [Server] state
      and is referred to by its key or index; handlers pass the store along.
    - Counters ([moveCount], the three scores) are natural numbers: the
      source increments JavaScript numbers by one, which is exact below 2^53.
    - [Math.random()] and [Date.now()] are read from an [Env] that comes with
      each message, so that both outcomes of every coin are covered.
    - Text is ASCII ([String.string]). *)

From Stdlib Require Import QArith Qround Ascii String.
From stdpp Require Import gmap strings list.

Local Open Scope string_scope.
Local Open Scope list_scope.
Local Open Scope nat_scope.

(** ** Symbols, cells, boards *)

Inductive Symbol := X | O.

Global Instance Symbol_eq_dec : EqDecision Symbol.
Proof. solve_decision. Defined.

(** [null] is [None]. *)
Definition Cell := option Symbol.

(** [symbol === 'X' ? 'O' : 'X'] *)
Definition other (s : Symbol) : Symbol :=
  match s with X => O | O => X end.

(** ** The game engine (the same text in [server.js] and in the HTTP variant) *)

Definition WIN_PATTERNS : list (nat * nat * nat) :=
  [ (0,1,2); (3,4,5); (6,7,8);
    (0,3,6); (1,4,7); (2,5,8);
    (0,4,8); (2,4,6) ].

(** [board[i]]: an index past the end reads [undefined], which is falsy and
    different from every symbol, like [null]. *)
Definition cellAt (board : list Cell) (i : nat) : Cell :=
  match board !! i with
  | Some c => c
  | None => None
  end.

(** The test of the loop body:
    [board[a] && board[a] === board[b] && board[a] === board[c]]. *)
Definition lineWinner (board : list Cell) (p : nat * nat * nat) : option Symbol :=
  let '(a, b, c) := p in
  match cellAt board a with
  | Some s =>
      if bool_decide (cellAt board b = Some s) && bool_decide (cellAt board c = Some s)
      then Some s else None
  | None => None
  end.

(** [for (const [a,b,c] of patterns) { if (...) return {winner, line} } return null] *)
Fixpoint checkWinnerIn (patterns : list (nat * nat * nat)) (board : list Cell)
  : option (Symbol * (nat * nat * nat)) :=
  match patterns with
  | [] => None
  | p :: rest =>
      match lineWinner board p with
      | Some s => Some (s, p)
      | None => checkWinnerIn rest board
      end
  end.

Definition checkWinner (board : list Cell) : option (Symbol * (nat * nat * nat)) :=
  checkWinnerIn WIN_PATTERNS board.

(** *** The board as a 3 x 3 grid, for the statement of the engine's contract *)

(** Cell (row [r], column [c]) is index [3 * r + c]. *)
Definition at_rc (r c : nat) : nat := 3 * r + c.

Definition row_line (r : nat) : nat * nat * nat := (at_rc r 0, at_rc r 1, at_rc r 2).
Definition col_line (c : nat) : nat * nat * nat := (at_rc 0 c, at_rc 1 c, at_rc 2 c).
Definition main_diagonal : nat * nat * nat := (at_rc 0 0, at_rc 1 1, at_rc 2 2).
Definition anti_diagonal : nat * nat * nat := (at_rc 0 2, at_rc 1 1, at_rc 2 0).

(** Rows top to bottom, columns left to right, the two diagonals. *)
Definition priority_order : list (nat * nat * nat) :=
  map row_line [0; 1; 2] ++ map col_line [0; 1; 2] ++ [main_diagonal; anti_diagonal].

(** The three cells of the line all hold symbol [s]. *)
Definition occupiedBy (board : list Cell) (s : Symbol) (p : nat * nat * nat) : Prop :=
  let '(a, b, c) := p in
  board !! a = Some (Some s) ∧ board !! b = Some (Some s) ∧ board !! c = Some (Some s).

Definition isLine (p : nat * nat * nat) : Prop :=
  (∃ r, r < 3 ∧ p = row_line r) ∨ (∃ c, c < 3 ∧ p = col_line c)
  ∨ p = main_diagonal ∨ p = anti_diagonal.

(** ** Values a message can carry *)

(** What [msg.index] can be after [JSON.parse]: a finite number (every finite
    double is a rational; the model admits every rational, which only adds
    inputs), an infinity (from a literal such as [1e999]), or a value whose
    [typeof] is not ['number'] (also a missing field). *)
Inductive JsValue :=
| JsNumber (q : Q)
| JsInfinity (negative : bool)
| JsOther.

(** ** The board of a room: an array that can also carry named properties

    [room.board[index]] with a number that is not an array index reads and
    writes the property named by that number, not one of the nine cells. *)
Record Board := mkBoard {
  cells : list Cell;
  props : list (Q * Symbol)
}.

(** [Array(9).fill(null)] *)
Definition emptyBoard : Board := mkBoard (replicate 9 None) [].

(** The array index a number denotes, if it denotes one (a non-negative
    integer; [-0] is [0]). *)
Definition cellIndex (q : Q) : option nat :=
  if Qeq_bool (inject_Z (Qfloor q)) q && (0 <=? Qfloor q)%Z
  then Some (Z.to_nat (Qfloor q)) else None.

Fixpoint lookupProp (q : Q) (ps : list (Q * Symbol)) : option Symbol :=
  match ps with
  | [] => None
  | (k, v) :: rest => if Qeq_bool k q then Some v else lookupProp q rest
  end.

(** [board[q]], with [null] and [undefined] both read as [None]. *)
Definition boardGet (b : Board) (q : Q) : option Symbol :=
  match cellIndex q with
  | Some i => cellAt (cells b) i
  | None => lookupProp q (props b)
  end.

(** [board[q] = s]. The handler only gets here with [0 <= q <= 8] on a board
    of nine cells, so an index is never past the end. *)
Definition boardSet (b : Board) (q : Q) (s : Symbol) : Board :=
  match cellIndex q with
  | Some i => mkBoard (<[i := Some s]> (cells b)) (props b)
  | None => mkBoard (cells b) ((q, s) :: props b)
  end.

(** ** Rooms, connections, timers *)

Record Scores := mkScores { scoreX : nat; scoreO : nat; draws : nat }.

(** [scores[sym]++] *)
Definition bumpScore (sym : Symbol) (sc : Scores) : Scores :=
  match sym with
  | X => mkScores (S (scoreX sc)) (scoreO sc) (draws sc)
  | O => mkScores (scoreX sc) (S (scoreO sc)) (draws sc)
  end.

(** [scores.draws++] *)
Definition bumpDraws (sc : Scores) : Scores :=
  mkScores (scoreX sc) (scoreO sc) (S (draws sc)).

Definition scoreOf (sym : Symbol) (sc : Scores) : nat :=
  match sym with X => scoreX sc | O => scoreO sc end.

(** An object with the two keys [X] and [O]: [players] holds connections,
    [disconnectTimers] holds timers; [null] is [None]. *)
Record Slots (A : Type) := mkSlots { slotX : option A; slotO : option A }.
Arguments mkSlots {A} _ _.
Arguments slotX {A} _.
Arguments slotO {A} _.

Definition slot {A} (p : Slots A) (sym : Symbol) : option A :=
  match sym with X => slotX p | O => slotO p end.

Definition setSlot {A} (sym : Symbol) (v : option A) (p : Slots A) : Slots A :=
  match sym with
  | X => mkSlots v (slotO p)
  | O => mkSlots (slotX p) v
  end.

Record Room := mkRoom {
  code : string;
  board : Board;
  currentPlayer : Symbol;
  winner : option Symbol;
  winningLine : option (nat * nat * nat);
  isDraw : bool;
  moveCount : nat;
  scores : Scores;
  players : Slots nat;
  disconnectTimers : Slots nat;
  lastActivity : Z
}.

(** A [ws] object: the two fields the server attaches, and its [readyState]
    (1 is OPEN, 3 is CLOSED). *)
Record Conn := mkConn {
  roomCode : option string;
  symbol : option Symbol;
  readyState : nat
}.

(** A [setTimeout] of the close handler: the closure's [ws] and [sym], the
    delay, and whether it can still fire. *)
Record Timer := mkTimer {
  timerWs : nat;
  timerSym : Symbol;
  timerDelay : Z;
  timerPending : bool
}.

Definition ROOM_TTL : Z := 10 * 60 * 1000.
Definition DISCONNECT_GRACE : Z := 60 * 1000.

(** ** Outbound messages *)

(** The payload of [roomState]; [viewBoard] is the board as [JSON.stringify]
    writes an array: its nine cells. *)
Record RoomView := mkView {
  viewBoard : list Cell;
  viewCurrentPlayer : Symbol;
  viewWinner : option Symbol;
  viewWinningLine : option (nat * nat * nat);
  viewIsDraw : bool;
  viewScores : Scores;
  mySymbol : Symbol;
  opponentConnected : bool;
  playerCount : nat
}.

Inductive ServerMsg :=
| Created (code : string) (symbol : Symbol)
| Joined (code : string) (symbol : Symbol)
| State (payload : RoomView)
| Error (message : string)
| OpponentLeft (gracePeriod : Z)
| RoomClosed (reason : string)
| SymbolUpdate (symbol : Symbol).

(** ** The server: the [rooms] object, every connection and timer made so
    far (a connection or timer is known by its position), and the log of
    what was written to the sockets, oldest first. *)
Record Server := mkServer {
  rooms : gmap string Room;
  conns : list Conn;
  timers : list Timer;
  outbox : list (nat * ServerMsg)
}.

Definition initial : Server := mkServer ∅ [] [] [].

(** What the handlers read from outside: [Date.now()], the coin
    [Math.random() < 0.5], and for [makeCode] the successive draws of four
    values of [Math.random() * chars.length | 0]. *)
Record Env := mkEnv {
  now : Z;
  coin : bool;
  codeDraws : list (nat * nat * nat * nat)
}.

(** ** Inbound messages *)

(** What the join handler makes of [msg.code]. [(msg.code || '')] is the
    empty text for a falsy value; any other value is converted by
    [toString()]: the text of a string, a number or a boolean, the joined
    elements of an array, ['[object Object]'] for a plain object. When
    every character of the text is ASCII, [toUpperCase().trim()] is
    computed by the model ([CodeAscii]; a text with a character above 127
    stands for no message, which only adds inputs). When the text has a
    character outside ASCII, where both functions follow the Unicode tables
    (['aaaa\u00A0'] is trimmed to ['AAAA']), the value of
    [toUpperCase().trim()] is an input of the model, as the coin is
    ([CodeUnicode]; every string is admitted as that value, which only adds
    inputs). *)
Inductive JsCode :=
| CodeAscii (text : string)
| CodeUnicode (normal : string).

(** [msg.type] selects at most one branch of the message handler. A
    payload that does not parse, or a type no branch tests for, is
    [MsgIgnored]. Two messages make the listener throw, outside the
    [try]: the payload [null], on which the destructuring
    [const { type } = msg] throws ([MsgNull]), and a join whose code is an
    object (or holds one) whose [toString] is not a function, on which
    [(msg.code || '').toString()] throws ([MsgJoinThrows]). *)
Inductive ClientMsg :=
| MsgCreate
| MsgJoin (code : JsCode)
| MsgMove (index : JsValue)
| MsgReset
| MsgNew
| MsgIgnored
| MsgNull
| MsgJoinThrows.

(** ** Helpers of [server.js] *)

Definition chars : string := "ABCDEFGHJKLMNPQRSTUVWXYZ23456789".

(** [chars[i]] as [join('')] writes it: nothing for [undefined]. *)
Definition charAt (i : nat) : string :=
  match String.get i chars with
  | Some c => String c ""
  | None => ""
  end.

Definition drawCode (d : nat * nat * nat * nat) : string :=
  let '(a, b, c, e) := d in charAt a +:+ charAt b +:+ charAt c +:+ charAt e.

(** [do { code = ... } while (rooms[code]); return code]: the first draw
    that is not the code of a live room; [None] while the loop has not found
    one among the draws given. *)
Fixpoint makeCode (draws : list (nat * nat * nat * nat)) (rs : gmap string Room)
  : option string :=
  match draws with
  | [] => None
  | d :: rest =>
      match rs !! drawCode d with
      | Some _ => makeCode rest rs
      | None => Some (drawCode d)
      end
  end.

(** The room [createRoom] builds. *)
Definition freshRoom (c : string) (t : Z) : Room :=
  mkRoom c emptyBoard X None None false 0 (mkScores 0 0 0)
         (mkSlots None None) (mkSlots None None) t.

Definition setPlayers (p : Slots nat) (r : Room) : Room :=
  mkRoom (code r) (board r) (currentPlayer r) (winner r) (winningLine r) (isDraw r)
         (moveCount r) (scores r) p (disconnectTimers r) (lastActivity r).

Definition setDisconnectTimers (t : Slots nat) (r : Room) : Room :=
  mkRoom (code r) (board r) (currentPlayer r) (winner r) (winningLine r) (isDraw r)
         (moveCount r) (scores r) (players r) t (lastActivity r).

Definition setLastActivity (t : Z) (r : Room) : Room :=
  mkRoom (code r) (board r) (currentPlayer r) (winner r) (winningLine r) (isDraw r)
         (moveCount r) (scores r) (players r) (disconnectTimers r) t.

Definition setCurrentPlayer (p : Symbol) (r : Room) : Room :=
  mkRoom (code r) (board r) p (winner r) (winningLine r) (isDraw r)
         (moveCount r) (scores r) (players r) (disconnectTimers r) (lastActivity r).

Definition setRooms (rs : gmap string Room) (s : Server) : Server :=
  mkServer rs (conns s) (timers s) (outbox s).

Definition setConns (cs : list Conn) (s : Server) : Server :=
  mkServer (rooms s) cs (timers s) (outbox s).

Definition setTimers (ts : list Timer) (s : Server) : Server :=
  mkServer (rooms s) (conns s) ts (outbox s).

Definition setOutbox (o : list (nat * ServerMsg)) (s : Server) : Server :=
  mkServer (rooms s) (conns s) (timers s) o.

(** [ws.roomCode = c; ws.symbol = sym] *)
Definition bind (c : string) (sym : Symbol) (w : Conn) : Conn :=
  mkConn (Some c) (Some sym) (readyState w).

(** [ws.symbol = sym] *)
Definition setSymbol (sym : Symbol) (w : Conn) : Conn :=
  mkConn (roomCode w) (Some sym) (readyState w).

Definition setReadyState (n : nat) (w : Conn) : Conn :=
  mkConn (roomCode w) (symbol w) n.

Definition isOpen (s : Server) (ws : nat) : bool :=
  match conns s !! ws with
  | Some w => bool_decide (readyState w = 1)
  | None => false
  end.

(** [if (ws && ws.readyState === 1) ws.send(JSON.stringify(data))] *)
Definition send (ws : nat) (data : ServerMsg) (s : Server) : Server :=
  if isOpen s ws then setOutbox (outbox s ++ [(ws, data)]) s else s.

Definition roomState (room : Room) (sym : Symbol) : RoomView :=
  mkView (cells (board room)) (currentPlayer room) (winner room) (winningLine room)
         (isDraw room) (scores room) sym
         (bool_decide (slot (players room) (other sym) ≠ None))
         ((match slotX (players room) with Some _ => 1 | None => 0 end)
          + (match slotO (players room) with Some _ => 1 | None => 0 end)).

(** [['X','O'].forEach(sym => { const ws = room.players[sym]; if (ws && open) ws.send(f(sym)) })] *)
Definition forEachPlayer (f : Symbol → ServerMsg) (room : Room) (s : Server) : Server :=
  foldl (λ acc sym,
           match slot (players room) sym with
           | Some ws => send ws (f sym) acc
           | None => acc
           end) s [X; O].

Definition broadcastRoom (room : Room) (s : Server) : Server :=
  forEachPlayer (λ sym, State (roomState room sym)) room s.

(** [clearTimeout(t)] *)
Definition clearTimeout (t : nat) (ts : list Timer) : list Timer :=
  alter (λ tm, mkTimer (timerWs tm) (timerSym tm) (timerDelay tm) false) t ts.

(** [reshufflePlayers]: the new room record and the connections with their
    [symbol] rewritten, slot X first and slot O second. *)
Definition reshufflePlayers (swap : bool) (room : Room) (cs : list Conn)
  : Room * list Conn :=
  let '(p0, p1) :=
    if swap then (slotO (players room), slotX (players room))
    else (slotX (players room), slotO (players room)) in
  let cs1 := match p0 with Some w => alter (setSymbol X) w cs | None => cs end in
  let cs2 := match p1 with Some w => alter (setSymbol O) w cs1 | None => cs1 end in
  (setCurrentPlayer X (setPlayers (mkSlots p0 p1) room), cs2).

(** [rooms[ws.roomCode]], with the key it was found under. *)
Definition roomOf (s : Server) (ws : nat) : option (string * Room) :=
  match conns s !! ws with
  | Some w =>
      match roomCode w with
      | Some c => match rooms s !! c with Some r => Some (c, r) | None => None end
      | None => None
      end
  | None => None
  end.

Definition symbolOf (s : Server) (ws : nat) : option Symbol :=
  match conns s !! ws with
  | Some w => symbol w
  | None => None
  end.

(** *** [toUpperCase] and [trim] on ASCII text *)

Definition upperChar (c : ascii) : ascii :=
  let n := nat_of_ascii c in
  if ((97 <=? n) && (n <=? 122))%nat then ascii_of_nat (n - 32) else c.

Fixpoint toUpperCase (s : string) : string :=
  match s with
  | EmptyString => EmptyString
  | String c rest => String (upperChar c) (toUpperCase rest)
  end.

Definition isSpace (c : ascii) : bool :=
  let n := nat_of_ascii c in
  (((9 <=? n) && (n <=? 13)) || (n =? 32))%nat.

Fixpoint trimStart (s : string) : string :=
  match s with
  | EmptyString => EmptyString
  | String c rest => if isSpace c then trimStart rest else s
  end.

Definition trim (s : string) : string :=
  String.rev (trimStart (String.rev (trimStart s))).

(** [(msg.code || '').toString().toUpperCase().trim()] *)
Definition normalizeCode (c : JsCode) : string :=
  match c with
  | CodeAscii text => trim (toUpperCase text)
  | CodeUnicode normal => normal
  end.

(** ** The message handler of [server.js], branch by branch *)

(** [type === 'create']. [None] only while [makeCode] is still drawing. *)
Definition onCreate (ws : nat) (env : Env) (s : Server) : option Server :=
  let sym := if coin env then X else O in
  match makeCode (codeDraws env) (rooms s) with
  | None => None
  | Some c =>
      let created := freshRoom c (now env) in
      let room := setPlayers (setSlot sym (Some ws) (players created)) created in
      let s1 := mkServer (<[c := room]> (rooms s)) (alter (bind c sym) ws (conns s))
                         (timers s) (outbox s) in
      Some (send ws (State (roomState room sym)) (send ws (Created c sym) s1))
  end.

(** [['X','O'].find(s => room.players[s] === null)] *)
Definition availableSlot (room : Room) : option Symbol :=
  List.find (λ sym, bool_decide (slot (players room) sym = None)) [X; O].

(** [type === 'join'] *)
Definition onJoin (ws : nat) (msgCode : JsCode) (env : Env) (s : Server) : Server :=
  let c := normalizeCode msgCode in
  match rooms s !! c with
  | None => send ws (Error "Room not found") s
  | Some room =>
      match availableSlot room with
      | None => send ws (Error "Room is full") s
      | Some available =>
          let '(room1, ts) :=
            match slot (disconnectTimers room) available with
            | Some t =>
                (setDisconnectTimers (setSlot available None (disconnectTimers room)) room,
                 clearTimeout t (timers s))
            | None => (room, timers s)
            end in
          let room2 :=
            setLastActivity (now env)
              (setPlayers (setSlot available (Some ws) (players room1)) room1) in
          let s1 := mkServer (<[c := room2]> (rooms s))
                             (alter (bind c available) ws (conns s)) ts (outbox s) in
          broadcastRoom room2 (send ws (Joined c available) s1)
      end
  end.

(** [index < 0 || index > 8 || room.board[index] || room.winner || room.isDraw]
    for a number [q]. *)
Definition refused (room : Room) (q : Q) : bool :=
  negb (Qle_bool 0 q) || negb (Qle_bool q 8)
  || bool_decide (boardGet (board room) q ≠ None)
  || bool_decide (winner room ≠ None) || isDraw room.

(** Lines 177 to 191: the room after an accepted move of [sym] at [q]. *)
Definition applyMove (room : Room) (q : Q) (sym : Symbol) (t : Z) : Room :=
  let b := boardSet (board room) q sym in
  let n := S (moveCount room) in
  match checkWinner (cells b) with
  | Some (w, line) =>
      mkRoom (code room) b (currentPlayer room) (Some w) (Some line) (isDraw room) n
             (bumpScore w (scores room)) (players room) (disconnectTimers room) t
  | None =>
      if bool_decide (n = 9)
      then mkRoom (code room) b (currentPlayer room) (winner room) (winningLine room) true n
                  (bumpDraws (scores room)) (players room) (disconnectTimers room) t
      else mkRoom (code room) b (other (currentPlayer room)) (winner room) (winningLine room)
                  (isDraw room) n (scores room) (players room) (disconnectTimers room) t
  end.

(** [type === 'move'] *)
Definition onMove (ws : nat) (index : JsValue) (env : Env) (s : Server) : Server :=
  match roomOf s ws with
  | None => s
  | Some (c, room) =>
      match symbolOf s ws with
      | None => send ws (Error "Not your turn") s
      | Some sym =>
          if bool_decide (currentPlayer room ≠ sym)
          then send ws (Error "Not your turn") s
          else
            match index with
            | JsNumber q =>
                if refused room q then send ws (Error "Invalid move") s
                else
                  let room' := applyMove room q sym (now env) in
                  broadcastRoom room' (setRooms (<[c := room']> (rooms s)) s)
            | JsInfinity _ | JsOther => send ws (Error "Invalid move") s
            end
      end
  end.

(** [Object.assign(room, { board: Array(9).fill(null), currentPlayer: 'X',
    winner: null, winningLine: null, isDraw: false, moveCount: 0, scores })] *)
Definition clearedRoom (keep : Scores → Scores) (room : Room) : Room :=
  mkRoom (code room) emptyBoard X None None false 0 (keep (scores room))
         (players room) (disconnectTimers room) (lastActivity room).

(** The part [reset] and [new] share: [Object.assign] with the given scores,
    the reshuffle, the two notifications. *)
Definition restart (keep : Scores → Scores) (ws : nat) (env : Env) (s : Server) : Server :=
  match roomOf s ws with
  | None => s
  | Some (c, room) =>
      let cleared := clearedRoom keep room in
      let '(room1, cs) := reshufflePlayers (coin env) cleared (conns s) in
      let room2 := setLastActivity (now env) room1 in
      let s1 := mkServer (<[c := room2]> (rooms s)) cs (timers s) (outbox s) in
      broadcastRoom room2 (forEachPlayer SymbolUpdate room2 s1)
  end.

(** [type === 'reset'] *)
Definition onReset : nat → Env → Server → Server := restart (λ sc, sc).

(** [type === 'new'] *)
Definition onNew : nat → Env → Server → Server := restart (λ _, mkScores 0 0 0).

(** [None] when the listener does not return: [makeCode] is still drawing,
    or the listener throws, before it has changed or sent anything
    ([server.js] catches nothing there and installs no handler for uncaught
    exceptions, so the model follows the server no further). *)
Definition onMessage (ws : nat) (msg : ClientMsg) (env : Env) (s : Server) : option Server :=
  match msg with
  | MsgCreate => onCreate ws env s
  | MsgJoin c => Some (onJoin ws c env s)
  | MsgMove index => Some (onMove ws index env s)
  | MsgReset => Some (onReset ws env s)
  | MsgNew => Some (onNew ws env s)
  | MsgIgnored => Some s
  | MsgNull | MsgJoinThrows => None
  end.

(** ** Disconnects, timers, the sweep *)

(** The callback given to [setTimeout] by the close handler. *)
Definition timerCallback (tm : Timer) (s : Server) : Server :=
  match roomOf s (timerWs tm) with
  | None => s
  | Some (c, r) =>
      if bool_decide (slot (players r) (timerSym tm) = None)
      then
        let s1 := match slot (players r) (other (timerSym tm)) with
                  | Some oppWs2 => send oppWs2 (RoomClosed "Opponent did not reconnect") s
                  | None => s
                  end in
        setRooms (delete c (rooms s1)) s1
      else s
  end.

(** [ws.on('close', ...)] *)
Definition onClose (ws : nat) (s : Server) : Server :=
  match roomOf s ws, symbolOf s ws with
  | Some (c, room), Some sym =>
      let room1 := setPlayers (setSlot sym None (players room)) room in
      let s1 := match slot (players room1) (other sym) with
                | Some oppWs => send oppWs (OpponentLeft 60) s
                | None => s
                end in
      let room2 :=
        setDisconnectTimers
          (setSlot sym (Some (length (timers s))) (disconnectTimers room1)) room1 in
      mkServer (<[c := room2]> (rooms s1)) (conns s1)
               (timers s1 ++ [mkTimer ws sym DISCONNECT_GRACE true]) (outbox s1)
  | _, _ => s
  end.

(** A pending timer runs its callback once. *)
Definition onTimeout (t : nat) (s : Server) : Server :=
  match timers s !! t with
  | Some tm =>
      if timerPending tm
      then timerCallback tm (setTimers (clearTimeout t (timers s)) s)
      else s
  | None => s
  end.

(** The [setInterval] callback: every room idle for more than [ROOM_TTL] is
    deleted. *)
Definition sweep (t : Z) (s : Server) : Server :=
  setRooms (filter (λ kv, ¬ (t - lastActivity kv.2 > ROOM_TTL)%Z) (rooms s)) s.

(** ** Events *)

Inductive Event :=
| EConnection
| EMessage (ws : nat) (msg : ClientMsg) (env : Env)
| EClose (ws : nat)
| ETimeout (t : nat)
| ESweep (now : Z).

(** One event. A message or a close only comes from an open connection;
    closing sets [readyState] to CLOSED before the handler runs. *)
Definition step (s : Server) (e : Event) : option Server :=
  match e with
  | EConnection => Some (setConns (conns s ++ [mkConn None None 1]) s)
  | EMessage ws msg env => if isOpen s ws then onMessage ws msg env s else Some s
  | EClose ws =>
      if isOpen s ws
      then Some (onClose ws (setConns (alter (setReadyState 3) ws (conns s)) s))
      else Some s
  | ETimeout t => Some (onTimeout t s)
  | ESweep t => Some (sweep t s)
  end.

Fixpoint run (s : Server) (es : list Event) : option Server :=
  match es with
  | [] => Some s
  | e :: rest =>
      match step s e with
      | Some s' => run s' rest
      | None => None
      end
  end.

(** ** Vocabulary of the statements *)

(** The number of cells that hold a symbol. *)
Definition filledCells (b : list Cell) : nat :=
  length (filter (λ c : Cell, c ≠ None) b).

(** A move index outside the range 0 to 8. *)
Definition outOfRange (index : JsValue) : Prop :=
  match index with
  | JsNumber q => (q < 0)%Q ∨ (8 < q)%Q
  | JsInfinity _ => True
  | JsOther => False
  end.

(** A move index whose target [room.board[index]] holds a symbol. *)
Definition targetsOccupied (room : Room) (index : JsValue) : Prop :=
  match index with
  | JsNumber q => boardGet (board room) q ≠ None
  | JsInfinity _ | JsOther => False
  end.

(** [winner] or [isDraw] is set. *)
Definition decided (room : Room) : Prop :=
  winner room ≠ None ∨ isDraw room = true.

(** The messages [send] adds to the log. *)
Definition delivered (s : Server) (to : option nat) (m : ServerMsg) : list (nat * ServerMsg) :=
  match to with
  | Some ws => if isOpen s ws then [(ws, m)] else []
  | None => []
  end.

(** [winner] and [isDraw] are not both set. *)
Definition exclusive (r : Room) : Prop := ¬ (winner r ≠ None ∧ isDraw r = true).

(** The state after [ws] was sent the error [m] and nothing else happened. *)
Definition rejectedWith (m : string) (ws : nat) (s : Server) : Server :=
  setOutbox (outbox s ++ [(ws, Error m)]) s.

(** The move of [ws] at [q] passes every check of the move handler. *)
Definition accepted (s : Server) (ws : nat) (c : string) (room : Room) (q : Q) : Prop :=
  roomOf s ws = Some (c, room) ∧ symbolOf s ws = Some (currentPlayer room)
  ∧ refused room q = false.

(** Connection [ws] is the one stored in slot [sym] of the live room [c]. *)
Definition holds (s : Server) (ws : nat) (c : string) (sym : Symbol) : Prop :=
  ∃ r, rooms s !! c = Some r ∧ slot (players r) sym = Some ws.

(** Connection [ws] is stored in a slot of some live room. *)
Definition stored (s : Server) (ws : nat) : bool :=
  bool_decide (map_Exists (λ _ r, slotX (players r) = Some ws ∨ slotO (players r) = Some ws)
                          (rooms s)).

(** The join finds its room, with a free slot: its sender is given a seat. *)
Definition admits (s : Server) (mc : JsCode) : bool :=
  match rooms s !! normalizeCode mc with
  | Some room => bool_decide (availableSlot room ≠ None)
  | None => false
  end.

(** The event gives a seat to a connection that a live room stores already:
    a create, or a join that finds a free slot, from an open connection that
    is stored in a slot. *)
Definition seatsStored (s : Server) (e : Event) : bool :=
  match e with
  | EMessage ws MsgCreate _ => isOpen s ws && stored s ws
  | EMessage ws (MsgJoin mc) _ => isOpen s ws && admits s mc && stored s ws
  | _ => false
  end.

(** [run] without such events. *)
Fixpoint runUnseated (s : Server) (es : list Event) : option Server :=
  match es with
  | [] => Some s
  | e :: rest =>
      if seatsStored s e then None
      else match step s e with
           | Some s' => runUnseated s' rest
           | None => None
           end
  end.

(** Every event but a reset or new message, a timer and the sweep. *)
Definition keepsRound (e : Event) : bool :=
  match e with
  | EMessage _ (MsgReset | MsgNew) _ | ETimeout _ | ESweep _ => false
  | _ => true
  end.

(** The game part of two room records is the same (everything but the
    seats, the timers and [lastActivity]). *)
Definition sameGame (r r' : Room) : Prop :=
  code r' = code r ∧ board r' = board r ∧ currentPlayer r' = currentPlayer r
  ∧ winner r' = winner r ∧ winningLine r' = winningLine r ∧ isDraw r' = isDraw r
  ∧ moveCount r' = moveCount r ∧ scores r' = scores r.

(** The game part of a room at the start of a round. *)
Definition roundStart (r : Room) : Prop :=
  board r = emptyBoard ∧ currentPlayer r = X ∧ winner r = None
  ∧ winningLine r = None ∧ isDraw r = false ∧ moveCount r = 0.

(** How one event can change what is stored under one room code, as far as
    the game part goes. *)
Inductive roomChange : option Room → Room → Prop :=
| change_seats r r' : sameGame r r' → roomChange (Some r) r'
| change_created r' : roundStart r' → roomChange None r'
| change_move r q t r' :
    refused r q = false → sameGame (applyMove r q (currentPlayer r) t) r' →
    roomChange (Some r) r'
| change_restart r r' : roundStart r' → roomChange (Some r) r'.

(** Every connection stored in a slot of room [r], found under code [c],
    carries that code and the symbol of the slot. *)
Definition agrees (cs : list Conn) (c : string) (r : Room) : Prop :=
  ∀ sym ws, slot (players r) sym = Some ws →
            ∃ w, cs !! ws = Some w ∧ roomCode w = Some c ∧ symbol w = Some sym.

Definition slotsAgree (s : Server) : Prop :=
  ∀ c r, rooms s !! c = Some r → agrees (conns s) c r.

(** Connections that carry a code other than [c0] carry the same code and
    symbol in [cs']. *)
Definition keepsOthers (c0 : string) (cs cs' : list Conn) : Prop :=
  ∀ ws w c, c ≠ c0 → cs !! ws = Some w → roomCode w = Some c →
            ∃ w', cs' !! ws = Some w' ∧ roomCode w' = Some c ∧ symbol w' = symbol w.

(** Every open connection that carries the code of a live room is stored in
    the slot of the symbol it carries. *)
Definition seatedAt (rs : gmap string Room) (cs : list Conn) : Prop :=
  ∀ ws w c r, cs !! ws = Some w → readyState w = 1 → roomCode w = Some c →
              rs !! c = Some r →
              ∃ sym, symbol w = Some sym ∧ slot (players r) sym = Some ws.

Definition seated (s : Server) : Prop := seatedAt (rooms s) (conns s).

(** The same for the one room [r] found under code [c]. *)
Definition seatedIn (cs : list Conn) (c : string) (r : Room) : Prop :=
  ∀ ws w, cs !! ws = Some w → readyState w = 1 → roomCode w = Some c →
          ∃ sym, symbol w = Some sym ∧ slot (players r) sym = Some ws.

(** An open connection that carries a code other than [c0] in [cs'] was
    open and carried the same code and symbol in [cs]. *)
Definition reflectsOthers (c0 : string) (cs cs' : list Conn) : Prop :=
  ∀ ws w' c, c ≠ c0 → cs' !! ws = Some w' → readyState w' = 1 → roomCode w' = Some c →
             ∃ w, cs !! ws = Some w ∧ readyState w = 1 ∧ roomCode w = Some c
                  ∧ symbol w = symbol w'.

(** The code a create is about to give to its room is carried by no open
    connection other than the sender. *)
Definition freshDraw (s : Server) (e : Event) : bool :=
  match e with
  | EMessage ws MsgCreate env =>
      match makeCode (codeDraws env) (rooms s) with
      | Some c =>
          forallb (λ iw : nat * Conn,
                     (iw.1 =? ws) || negb (bool_decide (readyState iw.2 = 1))
                     || negb (bool_decide (roomCode iw.2 = Some c)))
                  (imap pair (conns s))
      | None => true
      end
  | _ => true
  end.

(** [run] without events that seat a stored connection and without creates
    whose code another open connection carries. *)
Fixpoint runInProtocol (s : Server) (es : list Event) : option Server :=
  match es with
  | [] => Some s
  | e :: rest =>
      if negb (seatsStored s e) && freshDraw s e
      then match step s e with
           | Some s' => runInProtocol s' rest
           | None => None
           end
      else None
  end.

(** [moveCount] counts the filled cells and the named properties of the
    board, which has nine cells. *)
Definition counted (r : Room) : Prop :=
  length (cells (board r)) = 9
  ∧ moveCount r = filledCells (cells (board r)) + length (props (board r)).

(** ** The single-game HTTP variant

    One game for the whole process; [checkWinner] and [WIN_PATTERNS] are the
    same text as in [server.js]. *)
Module Http.

Record Game := mkGame {
  board : list Cell;
  currentPlayer : Symbol;
  winner : option Symbol;
  winningLine : option (nat * nat * nat);
  isDraw : bool;
  moveCount : nat;
  scores : Scores
}.

Definition createNewGame : Game :=
  mkGame (replicate 9 None) X None None false 0 (mkScores 0 0 0).

(** [sanitize(g)] *)
Record View := mkView {
  viewBoard : list Cell;
  viewCurrentPlayer : Symbol;
  viewWinner : option Symbol;
  viewWinningLine : option (nat * nat * nat);
  viewIsDraw : bool;
  viewScores : Scores
}.

Definition sanitize (g : Game) : View :=
  mkView (board g) (currentPlayer g) (winner g) (winningLine g) (isDraw g) (scores g).

Inductive Response :=
| Status400 (error : string)
| Json (body : View).

(** [game.board[index] !== null]: a number that is no array index, or one
    past the end, reads [undefined], which is not [null]. *)
Definition taken (b : list Cell) (q : Q) : bool :=
  match cellIndex q with
  | Some i => match b !! i with Some None => false | _ => true end
  | None => true
  end.

(** [board[q] = sym] on a plain array; [move] only gets here with a [q]
    that is the index of one of the nine cells. *)
Definition boardSet (b : list Cell) (q : Q) (sym : Symbol) : list Cell :=
  match cellIndex q with
  | Some i => <[i := Some sym]> b
  | None => b
  end.

(** Lines 58 to 71. *)
Definition applyMove (g : Game) (q : Q) : Game :=
  let b := boardSet (board g) q (currentPlayer g) in
  let n := S (moveCount g) in
  match checkWinner b with
  | Some (w, line) =>
      mkGame b (currentPlayer g) (Some w) (Some line) (isDraw g) n (bumpScore w (scores g))
  | None =>
      if bool_decide (n = 9)
      then mkGame b (currentPlayer g) (winner g) (winningLine g) true n (bumpDraws (scores g))
      else mkGame b (other (currentPlayer g)) (winner g) (winningLine g) (isDraw g) n (scores g)
  end.

(** [POST /api/move] *)
Definition move (index : JsValue) (g : Game) : Game * Response :=
  match index with
  | JsNumber q =>
      if negb (Qle_bool 0 q) || negb (Qle_bool q 8)
      then (g, Status400 "Invalid index")
      else if taken (board g) q then (g, Status400 "Cell already taken")
      else if bool_decide (winner g ≠ None) || isDraw g then (g, Status400 "Game is over")
      else let g' := applyMove g q in (g', Json (sanitize g'))
  | JsInfinity _ | JsOther => (g, Status400 "Invalid index")
  end.

(** [POST /api/reset] *)
Definition reset (g : Game) : Game * Response :=
  let g' := mkGame (board createNewGame) (currentPlayer createNewGame) (winner createNewGame)
                   (winningLine createNewGame) (isDraw createNewGame)
                   (moveCount createNewGame) (scores g) in
  (g', Json (sanitize g')).

(** [POST /api/new] *)
Definition newGame (g : Game) : Game * Response :=
  (createNewGame, Json (sanitize createNewGame)).

Inductive Request :=
| PostMove (index : JsValue)
| PostReset
| PostNew.

Definition handle (g : Game) (r : Request) : Game :=
  match r with
  | PostMove index => fst (move index g)
  | PostReset => fst (reset g)
  | PostNew => fst (newGame g)
  end.

(** The move at [q] passes every check of [/api/move]. *)
Definition accepted (g : Game) (q : Q) : Prop :=
  (negb (Qle_bool 0 q) || negb (Qle_bool q 8)) = false
  ∧ taken (board g) q = false
  ∧ (bool_decide (winner g ≠ None) || isDraw g) = false.

End Http.

(** In the single game [moveCount] is the number of filled cells. *)
Definition Http_counted (g : Http.Game) : Prop :=
  Http.moveCount g = filledCells (Http.board g).

(** The round is over: there is a winner or a draw. *)
Definition over (w : option Symbol) (d : bool) : bool := bool_decide (w ≠ None) || d.

(** What the fields of a game, in a room or in the single game, always
    satisfy: [winner] and [winningLine] are what [checkWinner] finds on the
    board; [moveCount] is at most 9 and [isDraw] says that it is 9 with no
    winner; and the turn is X's on even counts while the round is open, and
    stays with the last mover once it is over. *)
Definition roundInvariant (b : list Cell) (cur : Symbol) (w : option Symbol)
           (l : option (nat * nat * nat)) (d : bool) (n : nat) : Prop :=
  w = fst <$> checkWinner b ∧ l = snd <$> checkWinner b
  ∧ n ≤ 9 ∧ (d = true ↔ n = 9 ∧ w = None)
  ∧ cur = (if xorb (Nat.even n) (over w d) then X else O).

Definition roomInvariant (r : Room) : Prop :=
  roundInvariant (cells (board r)) (currentPlayer r) (winner r) (winningLine r)
                 (isDraw r) (moveCount r).

Definition gameInvariant (g : Http.Game) : Prop :=
  roundInvariant (Http.board g) (Http.currentPlayer g) (Http.winner g)
                 (Http.winningLine g) (Http.isDraw g) (Http.moveCount g).

(** From [s] to [s'] no connection is added, opened or closed, and the log
    is only extended, by messages to connections that are open. *)
Definition grows (s s' : Server) : Prop :=
  length (conns s') = length (conns s)
  ∧ (∀ ws, isOpen s' ws = isOpen s ws)
  ∧ ∃ l, outbox s' = outbox s ++ l ∧ ∀ to m, (to, m) ∈ l → isOpen s to = true.

(** ** Scenarios used by the examples *)

(** The state a run from the initial state ends in. *)
Definition stateAfter (es : list Event) : Server := default initial (run initial es).

(** The room stored under a code. *)
Definition roomAt (s : Server) (c : string) : Room := default (freshRoom c 0) (rooms s !! c).

(** Time 0, the coin on 'X', and draws that spell AAAA, then AAAB. *)
Definition heads : Env := mkEnv 0 true [(0, 0, 0, 0); (0, 0, 0, 1)].

(** The same with the coin on 'O'. *)
Definition tails : Env := mkEnv 0 false [(0, 0, 0, 0); (0, 0, 0, 1)].

Definition moveAt (ws : nat) (q : Q) : Event := EMessage ws (MsgMove (JsNumber q)) heads.

(** Connection 0 creates AAAA as X and connection 1 joins it as O. *)
Definition twoPlayers : list Event :=
  [EConnection; EConnection; EMessage 0 MsgCreate heads;
   EMessage 1 (MsgJoin (CodeAscii " aaaa ")) heads].

(** ... then X plays cell 0. *)
Definition oneMove : list Event := twoPlayers ++ [moveAt 0 0].

(** ... then X completes the top row: X 0, O 3, X 1, O 4, X 2. *)
Definition topRow : list Event :=
  twoPlayers ++ [moveAt 0 0; moveAt 1 3; moveAt 0 1; moveAt 1 4; moveAt 0 2].

(** ... then eight moves that fill the board but for cell 8, with no line. *)
Definition eightCells : list Event :=
  twoPlayers ++ [moveAt 0 0; moveAt 1 1; moveAt 0 2; moveAt 1 4;
                 moveAt 0 3; moveAt 1 5; moveAt 0 7; moveAt 1 6].

(** The two players take turns with the indices 0.5, 1.5, ..., 7.5. *)
Definition eightHalves : list Event :=
  twoPlayers ++ [moveAt 0 (1 # 2); moveAt 1 (3 # 2); moveAt 0 (5 # 2); moveAt 1 (7 # 2);
                 moveAt 0 (9 # 2); moveAt 1 (11 # 2); moveAt 0 (13 # 2); moveAt 1 (15 # 2)].

(** A connection that has a room creates a second one. *)
Definition secondCreate : list Event :=
  [EConnection; EMessage 0 MsgCreate heads; EMessage 0 MsgCreate heads].

(** Connection 0 creates AAAA as X; the sweep removes the idle room; then
    connection 1 creates a room, is given O, and the draw is AAAA again. *)
Definition codeDrawnAgain : list Event :=
  [EConnection; EMessage 0 MsgCreate heads; ESweep (ROOM_TTL + 1);
   EConnection; EMessage 1 MsgCreate (mkEnv (ROOM_TTL + 2) false [(0, 0, 0, 0)])].

(** Connection 1 leaves the room of [twoPlayers]. *)
Definition oneLeft : list Event := twoPlayers ++ [EClose 1].

(** ... its grace timer fires and closes the room; connection 0, which still
    carries the code and symbol of that room, creates a room, and the draw is
    AAAA again. *)
Definition createAfterRoomClosed : list Event :=
  oneLeft ++ [ETimeout 0; EMessage 0 MsgCreate heads].

(** ... and a third connection arrives. *)
Definition newcomer : list Event := oneLeft ++ [EConnection].

(** Connection 0 (X) leaves the room of [twoPlayers]; connection 1 resets
    with the coin on swap and so moves to slot X, then leaves too; a third
    connection joins and gets slot X. *)
Definition replacedTimer : list Event :=
  twoPlayers ++ [EClose 0; EMessage 1 MsgReset heads; EClose 1;
                 EConnection; EMessage 2 (MsgJoin (CodeAscii "AAAA")) heads].

(** Connection 0 creates AAAA as O and connection 1 joins it as X; then
    connection 0, still stored in AAAA, creates AAAB as O. *)
Definition seatedTwice : list Event :=
  [EConnection; EConnection; EMessage 0 MsgCreate tails;
   EMessage 1 (MsgJoin (CodeAscii "AAAA")) heads; EMessage 0 MsgCreate tails].

(** ... and the reset of connection 1 in AAAA, with the coin on swap, gives
    connection 0 the symbol X. *)
Definition symbolFromOtherRoom : list Event :=
  seatedTwice ++ [EMessage 1 MsgReset heads].

(** The same up to the arrival of the third connection, before its join. *)
Definition slotLeftTwice : list Event :=
  twoPlayers ++ [EClose 0; EMessage 1 MsgReset heads; EClose 1; EConnection].

(** A single game in which cell 0 is taken. *)
Definition gameOneMove : Http.Game := Http.handle Http.createNewGame (Http.PostMove (JsNumber 0)).

(** * Properties *)

(** Conjunctions of closed facts about a scenario, each settled by running
    the model. *)
Ltac by_running :=
  repeat match goal with |- _ ∧ _ => split end; vm_compute; reflexivity.

(** ** The game engine *)

Lemma cellAt_Some (b : list Cell) (i : nat) (s : Symbol) :
  cellAt b i = Some s ↔ b !! i = Some (Some s).
Proof.
  unfold cellAt. destruct (b !! i) as [c|]; split; intros H; by simplify_eq.
Qed.

Lemma lineWinner_Some (b : list Cell) (p : nat * nat * nat) (s : Symbol) :
  lineWinner b p = Some s ↔ occupiedBy b s p.
Proof.
  destruct p as [[x y] z]. unfold lineWinner, occupiedBy.
  rewrite <- !cellAt_Some.
  destruct (cellAt b x) as [s0|] eqn:Hx.
  - destruct (bool_decide (cellAt b y = Some s0)) eqn:Hy;
      destruct (bool_decide (cellAt b z = Some s0)) eqn:Hz; simpl;
      try apply bool_decide_eq_true in Hy; try apply bool_decide_eq_true in Hz;
      try apply bool_decide_eq_false in Hy; try apply bool_decide_eq_false in Hz;
      split; intros H; try discriminate.
    + injection H as <-. auto.
    + destruct H as (H1 & _). congruence.
    + destruct H as (H1 & _ & H3). congruence.
    + destruct H as (H1 & H2 & _). congruence.
    + destruct H as (H1 & H2 & _). congruence.
  - split; [discriminate | intros (H & _); discriminate].
Qed.

Lemma lineWinner_None (b : list Cell) (p : nat * nat * nat) :
  lineWinner b p = None ↔ ∀ s, ¬ occupiedBy b s p.
Proof.
  split.
  - intros H s Hs. apply lineWinner_Some in Hs. congruence.
  - intros H. destruct (lineWinner b p) as [s|] eqn:E; [|done].
    apply lineWinner_Some in E. destruct (H s E).
Qed.

Lemma checkWinnerIn_Some (ps : list (nat * nat * nat)) (b : list Cell)
      (s : Symbol) (p : nat * nat * nat) :
  checkWinnerIn ps b = Some (s, p) ↔
  ∃ i, ps !! i = Some p ∧ occupiedBy b s p
       ∧ ∀ j q, (j < i)%nat → ps !! j = Some q → ∀ s', ¬ occupiedBy b s' q.
Proof.
  induction ps as [|p0 ps IH]; simpl.
  - split; [discriminate | intros (i & H & _); discriminate].
  - destruct (lineWinner b p0) as [s0|] eqn:E.
    + split.
      * intros [= <- <-]. exists 0%nat. split; [done|].
        split; [by apply lineWinner_Some | intros j q Hj; lia].
      * intros (i & Hi & Hocc & Hfirst). destruct i as [|i].
        -- simpl in Hi. injection Hi as <-.
           apply lineWinner_Some in Hocc. congruence.
        -- apply lineWinner_Some in E.
           destruct (Hfirst 0%nat p0 ltac:(lia) eq_refl s0 E).
    + rewrite IH. split.
      * intros (i & Hi & Hocc & Hfirst). exists (S i). split; [done|].
        split; [done|]. intros [|j] q Hj Hq s'.
        -- simpl in Hq. injection Hq as <-. by apply lineWinner_None.
        -- apply (Hfirst j q); [lia | done].
      * intros (i & Hi & Hocc & Hfirst). destruct i as [|i].
        -- simpl in Hi. injection Hi as <-.
           apply lineWinner_Some in Hocc. congruence.
        -- exists i. split; [done|]. split; [done|].
           intros j q Hj Hq. apply (Hfirst (S j) q); [lia | done].
Qed.

Lemma checkWinnerIn_None (ps : list (nat * nat * nat)) (b : list Cell) :
  checkWinnerIn ps b = None ↔ ∀ p, p ∈ ps → ∀ s, ¬ occupiedBy b s p.
Proof.
  induction ps as [|p0 ps IH]; simpl.
  - split; [intros _ p Hp; by apply elem_of_nil in Hp | done].
  - destruct (lineWinner b p0) as [s0|] eqn:E.
    + split; [discriminate|]. intros H. apply lineWinner_Some in E.
      destruct (H p0 ltac:(left) s0 E).
    + rewrite IH. split.
      * intros H p Hp. apply elem_of_cons in Hp as [->|Hp]; [|by apply H].
        by apply lineWinner_None.
      * intros H p Hp. apply H. by right.
Qed.

Lemma isLine_WIN_PATTERNS (p : nat * nat * nat) : isLine p ↔ p ∈ WIN_PATTERNS.
Proof.
  unfold isLine, WIN_PATTERNS. split.
  - intros [(r & Hr & ->) | [(c & Hc & ->) | [-> | ->]]].
    + destruct r as [|[|[|r]]]; [| | |lia]; cbv; set_solver.
    + destruct c as [|[|[|c]]]; [| | |lia]; cbv; set_solver.
    + cbv; set_solver.
    + cbv; set_solver.
  - rewrite !elem_of_cons, elem_of_nil.
    intros [->|[->|[->|[->|[->|[->|[->|[->|[]]]]]]]]].
    + left. exists 0%nat. split; [lia | done].
    + left. exists 1%nat. split; [lia | done].
    + left. exists 2%nat. split; [lia | done].
    + right; left. exists 0%nat. split; [lia | done].
    + right; left. exists 1%nat. split; [lia | done].
    + right; left. exists 2%nat. split; [lia | done].
    + right; right; left. done.
    + right; right; right. done.
Qed.

(** C1. The table of [checkWinner] is the rows top to bottom, then the
    columns left to right, then the two diagonals; for every board the result
    is the symbol and triple of the first entry of that table whose three
    cells hold one symbol, and it is [None] exactly when no row, column or
    diagonal is held by one symbol. *)
Theorem checkWinner_first_line_in_priority_order :
  WIN_PATTERNS = priority_order
  ∧ ∀ b : list Cell,
      (∀ s p, checkWinner b = Some (s, p) ↔
              ∃ i, priority_order !! i = Some p ∧ occupiedBy b s p
                   ∧ ∀ j q, (j < i)%nat → priority_order !! j = Some q →
                            ∀ s', ¬ occupiedBy b s' q)
      ∧ (checkWinner b = None ↔ ∀ p, isLine p → ∀ s, ¬ occupiedBy b s p).
Proof.
  assert (Heq : WIN_PATTERNS = priority_order) by reflexivity.
  split; [exact Heq|]. intros b. split.
  - intros s p. rewrite <- Heq. apply checkWinnerIn_Some.
  - unfold checkWinner. rewrite checkWinnerIn_None. split.
    + intros H p Hp. apply H. by apply isLine_WIN_PATTERNS.
    + intros H p Hp. apply H. by apply isLine_WIN_PATTERNS.
Qed.

(** ** Sending *)

Lemma send_open (s : Server) (ws : nat) (m : ServerMsg) :
  isOpen s ws = true → send ws m s = setOutbox (outbox s ++ [(ws, m)]) s.
Proof. intros H. unfold send. by rewrite H. Qed.

Lemma send_rooms (s : Server) (ws : nat) (m : ServerMsg) :
  rooms (send ws m s) = rooms s.
Proof. unfold send. by destruct (isOpen s ws). Qed.

Lemma send_conns (s : Server) (ws : nat) (m : ServerMsg) :
  conns (send ws m s) = conns s.
Proof. unfold send. by destruct (isOpen s ws). Qed.

Lemma send_timers (s : Server) (ws : nat) (m : ServerMsg) :
  timers (send ws m s) = timers s.
Proof. unfold send. by destruct (isOpen s ws). Qed.

Lemma forEachPlayer_rooms (f : Symbol → ServerMsg) (room : Room) (s : Server) :
  rooms (forEachPlayer f room s) = rooms s.
Proof.
  unfold forEachPlayer. destruct (players room) as [[?|] [?|]]; simpl;
    by rewrite ?send_rooms.
Qed.

Lemma forEachPlayer_conns (f : Symbol → ServerMsg) (room : Room) (s : Server) :
  conns (forEachPlayer f room s) = conns s.
Proof.
  unfold forEachPlayer. destruct (players room) as [[?|] [?|]]; simpl;
    by rewrite ?send_conns.
Qed.

Lemma forEachPlayer_timers (f : Symbol → ServerMsg) (room : Room) (s : Server) :
  timers (forEachPlayer f room s) = timers s.
Proof.
  unfold forEachPlayer. destruct (players room) as [[?|] [?|]]; simpl;
    by rewrite ?send_timers.
Qed.

(** ** The checks of the move handler *)

Lemma Qle_bool_false (x y : Q) : Qle_bool x y = false ↔ (y < x)%Q.
Proof.
  split.
  - intros H. apply Qnot_le_lt. intros Hle.
    apply Qle_bool_iff in Hle. congruence.
  - intros H. destruct (Qle_bool x y) eqn:E; [|done].
    apply Qle_bool_iff in E. destruct (Qlt_not_le _ _ H E).
Qed.

Lemma refused_true (room : Room) (q : Q) :
  refused room q = true ↔
  (q < 0)%Q ∨ (8 < q)%Q ∨ boardGet (board room) q ≠ None ∨ decided room.
Proof.
  unfold refused, decided.
  rewrite !orb_true_iff, !negb_true_iff, !Qle_bool_false, !bool_decide_eq_true.
  tauto.
Qed.

Lemma refused_false (room : Room) (q : Q) :
  refused room q = false ↔
  (0 <= q)%Q ∧ (q <= 8)%Q ∧ boardGet (board room) q = None
  ∧ winner room = None ∧ isDraw room = false.
Proof.
  unfold refused.
  rewrite !orb_false_iff, !negb_false_iff, !Qle_bool_iff, !bool_decide_eq_false.
  split.
  - intros ((((H1 & H2) & H3) & H4) & H5). repeat split; try done.
    + destruct (boardGet (board room) q); [by destruct H3 | done].
    + destruct (winner room); [by destruct H4 | done].
  - intros (H1 & H2 & H3 & H4 & H5). rewrite H3, H4.
    repeat split; try done; by intros H.
Qed.

Lemma onMove_not_your_turn (s : Server) (ws : nat) (index : JsValue) (env : Env)
      (c : string) (room : Room) :
  roomOf s ws = Some (c, room) → symbolOf s ws ≠ Some (currentPlayer room) →
  onMove ws index env s = send ws (Error "Not your turn") s.
Proof.
  intros Hroom Hsym. unfold onMove. rewrite Hroom.
  destruct (symbolOf s ws) as [sym|]; [|done].
  rewrite bool_decide_eq_true_2; [done|]. congruence.
Qed.

Lemma onMove_invalid (s : Server) (ws : nat) (index : JsValue) (env : Env)
      (c : string) (room : Room) :
  roomOf s ws = Some (c, room) → symbolOf s ws = Some (currentPlayer room) →
  outOfRange index ∨ targetsOccupied room index ∨ decided room →
  onMove ws index env s = send ws (Error "Invalid move") s.
Proof.
  intros Hroom Hsym Hbad. unfold onMove. rewrite Hroom, Hsym.
  rewrite bool_decide_eq_false_2 by (intros H; by apply H).
  destruct index as [q| |]; try done.
  assert (refused room q = true) as ->; [|done].
  apply refused_true. simpl in Hbad. tauto.
Qed.

Lemma onMove_accepted (s : Server) (ws : nat) (q : Q) (env : Env)
      (c : string) (room : Room) :
  accepted s ws c room q →
  onMove ws (JsNumber q) env s =
  broadcastRoom (applyMove room q (currentPlayer room) (now env))
    (setRooms (<[c := applyMove room q (currentPlayer room) (now env)]> (rooms s)) s).
Proof.
  intros (Hroom & Hsym & Hok). unfold onMove. rewrite Hroom, Hsym.
  rewrite bool_decide_eq_false_2 by (intros H; by apply H).
  by rewrite Hok.
Qed.

(** C2. A move from a bound connection whose symbol is the room's
    [currentPlayer] is answered with the error 'Invalid move' when its index
    is out of the range 0 to 8, or its target is occupied, or [winner] or
    [isDraw] is already set; a move from a connection whose symbol is not
    [currentPlayer] is answered with 'Not your turn'. In both cases the
    sender gets that one message and nothing else changes: no room is
    touched (board, moveCount, currentPlayer, winner, isDraw and scores stay)
    and no state message is sent. *)
Theorem move_rejected_room_unchanged
        (s : Server) (ws : nat) (index : JsValue) (env : Env)
        (c : string) (room : Room)
        (Hopen : isOpen s ws = true)
        (Hroom : roomOf s ws = Some (c, room)) :
  (symbolOf s ws = Some (currentPlayer room) →
   outOfRange index ∨ targetsOccupied room index ∨ decided room →
   step s (EMessage ws (MsgMove index) env) = Some (rejectedWith "Invalid move" ws s))
  ∧ (symbolOf s ws ≠ Some (currentPlayer room) →
     step s (EMessage ws (MsgMove index) env) = Some (rejectedWith "Not your turn" ws s))
  ∧ ∀ m, rooms (rejectedWith m ws s) = rooms s
         ∧ conns (rejectedWith m ws s) = conns s
         ∧ timers (rejectedWith m ws s) = timers s
         ∧ outbox (rejectedWith m ws s) = outbox s ++ [(ws, Error m)].
Proof.
  split; [|split].
  - intros Hsym Hbad. simpl. rewrite Hopen. simpl.
    rewrite (onMove_invalid s ws index env c room Hroom Hsym Hbad).
    by rewrite send_open.
  - intros Hsym. simpl. rewrite Hopen. simpl.
    rewrite (onMove_not_your_turn s ws index env c room Hroom Hsym).
    by rewrite send_open.
  - done.
Qed.

(** ** What each handler does to the [rooms] object *)

Lemma makeCode_fresh (ds : list (nat * nat * nat * nat)) (rs : gmap string Room)
      (c : string) :
  makeCode ds rs = Some c → rs !! c = None.
Proof.
  induction ds as [|d ds IH]; simpl; [done|].
  destruct (rs !! drawCode d) eqn:E; [done|]. by intros [= <-].
Qed.

(** [makeCode] returns as soon as one draw is not the code of a live room. *)
Lemma makeCode_returns (ds : list (nat * nat * nat * nat)) (rs : gmap string Room) :
  (∃ d, d ∈ ds ∧ rs !! drawCode d = None) → is_Some (makeCode ds rs).
Proof.
  induction ds as [|d0 ds IH]; simpl.
  - intros (d & Hd & _). by apply elem_of_nil in Hd.
  - intros (d & Hd & Hfree). destruct (rs !! drawCode d0) eqn:E; [|by eexists].
    apply IH. apply elem_of_cons in Hd as [->|Hd]; [congruence|]. eauto.
Qed.

Lemma sameGame_refl (r : Room) : sameGame r r.
Proof. by repeat split. Qed.

Lemma onCreate_rooms (ws : nat) (env : Env) (s s' : Server) :
  onCreate ws env s = Some s' →
  ∃ c r', rooms s !! c = None ∧ roundStart r' ∧ rooms s' = <[c := r']> (rooms s).
Proof.
  unfold onCreate. destruct (makeCode (codeDraws env) (rooms s)) as [c|] eqn:E; [|done].
  intros [= <-]. exists c. eexists. split; [by eapply makeCode_fresh|].
  rewrite !send_rooms. simpl. split; [|reflexivity]. by repeat split.
Qed.

Lemma onJoin_rooms (ws : nat) (mc : JsCode) (env : Env) (s : Server) :
  rooms (onJoin ws mc env s) = rooms s
  ∨ ∃ r r', rooms s !! normalizeCode mc = Some r ∧ sameGame r r'
            ∧ rooms (onJoin ws mc env s) = <[normalizeCode mc := r']> (rooms s).
Proof.
  unfold onJoin. destruct (rooms s !! normalizeCode mc) as [room|] eqn:E.
  - destruct (availableSlot room) as [a|]; [|left; apply send_rooms].
    right. exists room.
    destruct (slot (disconnectTimers room) a); eexists; (split; [done|]);
      unfold broadcastRoom; rewrite forEachPlayer_rooms, send_rooms; simpl;
      (split; [|reflexivity]); by repeat split.
  - left. apply send_rooms.
Qed.

Lemma onMove_rooms (ws : nat) (index : JsValue) (env : Env) (s : Server) :
  rooms (onMove ws index env s) = rooms s
  ∨ ∃ c r q, index = JsNumber q ∧ accepted s ws c r q
             ∧ rooms (onMove ws index env s)
               = <[c := applyMove r q (currentPlayer r) (now env)]> (rooms s).
Proof.
  unfold onMove. destruct (roomOf s ws) as [[c room]|] eqn:Hroom; [|by left].
  destruct (symbolOf s ws) as [sym|] eqn:Hsym; [|left; apply send_rooms].
  case_bool_decide as Hturn; [left; apply send_rooms|].
  assert (sym = currentPlayer room) as -> by (destruct (decide (currentPlayer room = sym)); done).
  destruct index as [q| |]; try (left; apply send_rooms).
  destruct (refused room q) eqn:Hq; [left; apply send_rooms|].
  right. exists c, room, q. split; [done|]. split; [done|].
  unfold broadcastRoom. by rewrite forEachPlayer_rooms.
Qed.

Lemma restart_rooms (keep : Scores → Scores) (ws : nat) (env : Env) (s : Server) :
  (roomOf s ws = None ∧ restart keep ws env s = s)
  ∨ ∃ c r r', roomOf s ws = Some (c, r)
              ∧ rooms (restart keep ws env s) = <[c := r']> (rooms s)
              ∧ roundStart r' ∧ scores r' = keep (scores r) ∧ code r' = code r.
Proof.
  unfold restart. destruct (roomOf s ws) as [[c room]|] eqn:Hroom; [|by left].
  right. exists c, room. unfold reshufflePlayers.
  destruct (coin env); simpl; eexists; (split; [done|]);
    unfold broadcastRoom; rewrite !forEachPlayer_rooms; simpl;
    (split; [reflexivity|]); by repeat split.
Qed.

Lemma roomOf_Some (s : Server) (ws : nat) (c : string) (r : Room) :
  roomOf s ws = Some (c, r) ↔
  ∃ w, conns s !! ws = Some w ∧ roomCode w = Some c ∧ rooms s !! c = Some r.
Proof.
  unfold roomOf. split.
  - destruct (conns s !! ws) as [w|]; [|done].
    destruct (roomCode w) as [c0|] eqn:Hc; [|done].
    destruct (rooms s !! c0) eqn:E; [|done]. intros [= <- <-]. eauto.
  - intros (w & -> & -> & ->). done.
Qed.

Lemma symbolOf_lookup (s : Server) (ws : nat) (w : Conn) :
  conns s !! ws = Some w → symbolOf s ws = symbol w.
Proof. intros H. unfold symbolOf. by rewrite H. Qed.

Lemma onClose_rooms (ws : nat) (s : Server) :
  rooms (onClose ws s) = rooms s
  ∨ ∃ c r r', rooms s !! c = Some r ∧ sameGame r r'
              ∧ rooms (onClose ws s) = <[c := r']> (rooms s).
Proof.
  unfold onClose. destruct (roomOf s ws) as [[c room]|] eqn:Hroom; [|by left].
  destruct (symbolOf s ws) as [sym|]; [|by left].
  right. exists c, room. eexists.
  apply roomOf_Some in Hroom as (w & _ & _ & Hr). split; [done|].
  simpl. split; [|by destruct (slot _ (other sym)); rewrite ?send_rooms].
  by repeat split.
Qed.

Lemma timerCallback_rooms (tm : Timer) (s : Server) :
  rooms (timerCallback tm s) = rooms s
  ∨ ∃ c, rooms (timerCallback tm s) = delete c (rooms s).
Proof.
  unfold timerCallback. destruct (roomOf s (timerWs tm)) as [[c r]|]; [|by left].
  case_bool_decide; [|by left]. right. exists c. simpl.
  by destruct (slot _ (other _)); rewrite ?send_rooms.
Qed.

Lemma onTimeout_rooms (t : nat) (s : Server) :
  rooms (onTimeout t s) = rooms s
  ∨ ∃ c, rooms (onTimeout t s) = delete c (rooms s).
Proof.
  unfold onTimeout. destruct (timers s !! t) as [tm|]; [|by left].
  destruct (timerPending tm); [|by left].
  apply (timerCallback_rooms tm (setTimers (clearTimeout t (timers s)) s)).
Qed.

Lemma sweep_lookup (t : Z) (s : Server) (c : string) (r : Room) :
  rooms (sweep t s) !! c = Some r ↔
  rooms s !! c = Some r ∧ ¬ (t - lastActivity r > ROOM_TTL)%Z.
Proof. unfold sweep. simpl. by rewrite map_lookup_filter_Some. Qed.

(** Whatever the event, the game part stored under a code is what it was, or
    that of a new room, or the result of one accepted move, or a new round. *)
Lemma step_roomChange (s s' : Server) (e : Event) (c : string) (r' : Room) :
  step s e = Some s' → rooms s' !! c = Some r' → roomChange (rooms s !! c) r'.
Proof.
  assert (Hsame : ∀ m : gmap string Room, m = rooms s → m !! c = Some r' →
                  roomChange (rooms s !! c) r').
  { intros m -> H. rewrite H. apply change_seats, sameGame_refl. }
  assert (Hins : ∀ c0 r0 (P : Room → Prop) (m : gmap string Room),
             m = <[c0 := r0]> (rooms s) → m !! c = Some r' →
             (c0 = c → r0 = r' → roomChange (rooms s !! c) r') →
             roomChange (rooms s !! c) r').
  { intros c0 r0 _ m -> H Hc. destruct (decide (c0 = c)) as [->|Hne].
    - rewrite lookup_insert_eq in H. injection H as <-. by apply Hc.
    - rewrite lookup_insert_ne in H by done. rewrite H.
      apply change_seats, sameGame_refl. }
  assert (Hdel : ∀ c0 (m : gmap string Room),
             m = delete c0 (rooms s) → m !! c = Some r' →
             roomChange (rooms s !! c) r').
  { intros c0 m -> H. apply lookup_delete_Some in H as [_ H]. rewrite H.
    apply change_seats, sameGame_refl. }
  destruct e as [|ws msg env|ws|t|t]; simpl.
  - intros [= <-]. by apply Hsame.
  - destruct (isOpen s ws); [|intros [= <-]; by apply Hsame].
    destruct msg as [|mc|index| | | | |]; simpl; try discriminate.
    + intros H Hl. apply onCreate_rooms in H as (c0 & r0 & Hfree & Hstart & Hr).
      eapply (Hins c0 r0 (λ _, True)); [exact Hr | exact Hl|].
      intros -> ->. rewrite Hfree. by apply change_created.
    + intros [= <-] Hl.
      destruct (onJoin_rooms ws mc env s) as [H|(r & r0 & Hr & Hg & H)].
      * by eapply Hsame.
      * eapply (Hins _ r0 (λ _, True)); [exact H | exact Hl|].
        intros <- <-. rewrite Hr. by apply change_seats.
    + intros [= <-] Hl.
      destruct (onMove_rooms ws index env s) as [H|(c0 & r & q & _ & Hacc & H)].
      * by eapply Hsame.
      * eapply (Hins _ _ (λ _, True)); [exact H | exact Hl|].
        intros <- <-. destruct Hacc as (Hroom & _ & Hq).
        apply roomOf_Some in Hroom as (w & _ & _ & ->).
        eapply change_move; [exact Hq | apply sameGame_refl].
    + intros [= <-] Hl. unfold onReset in Hl.
      destruct (restart_rooms (λ sc, sc) ws env s)
        as [[_ H]|(c0 & r & r0 & Hroom & H & Hstart & _ & _)].
      * rewrite H in Hl. by eapply Hsame.
      * eapply (Hins _ r0 (λ _, True)); [exact H | exact Hl|].
        intros <- <-. apply roomOf_Some in Hroom as (w & _ & _ & ->).
        by apply change_restart.
    + intros [= <-] Hl. unfold onNew in Hl.
      destruct (restart_rooms (λ _, mkScores 0 0 0) ws env s)
        as [[_ H]|(c0 & r & r0 & Hroom & H & Hstart & _ & _)].
      * rewrite H in Hl. by eapply Hsame.
      * eapply (Hins _ r0 (λ _, True)); [exact H | exact Hl|].
        intros <- <-. apply roomOf_Some in Hroom as (w & _ & _ & ->).
        by apply change_restart.
    + intros [= <-]. by apply Hsame.
  - destruct (isOpen s ws); [|intros [= <-]; by apply Hsame].
    intros [= <-] Hl.
    destruct (onClose_rooms ws (setConns (alter (setReadyState 3) ws (conns s)) s))
      as [H|(c0 & r & r0 & Hr & Hg & H)].
    + by eapply Hsame.
    + eapply (Hins _ r0 (λ _, True)); [exact H | exact Hl|].
      intros <- <-. simpl in Hr. rewrite Hr. by apply change_seats.
  - intros [= <-] Hl. destruct (onTimeout_rooms t s) as [H|[c0 H]].
    + by eapply Hsame.
    + by eapply Hdel.
  - intros [= <-] Hl. apply sweep_lookup in Hl as [Hl _]. rewrite Hl.
    apply change_seats, sameGame_refl.
Qed.

(** ** Runs *)

Lemma run_app (s : Server) (es1 es2 : list Event) :
  run s (es1 ++ es2) = match run s es1 with Some s1 => run s1 es2 | None => None end.
Proof.
  revert s. induction es1 as [|e es1 IH]; intros s; simpl; [done|].
  destruct (step s e); [apply IH | done].
Qed.

(** A property of the initial state that every event preserves holds after
    every run. *)
Lemma run_invariant (P : Server → Prop) :
  P initial → (∀ s e s', P s → step s e = Some s' → P s') →
  ∀ es s, run initial es = Some s → P s.
Proof.
  intros H0 Hstep es. induction es as [|e es IH] using rev_ind; simpl.
  - by intros s [= <-].
  - intros s. rewrite run_app. destruct (run initial es) as [s1|] eqn:E; [|done].
    simpl. destruct (step s1 e) as [s2|] eqn:E2; [|done]. intros [= <-].
    eapply Hstep; [by apply IH | exact E2].
Qed.

(** ** Winner and draw *)

Lemma applyMove_exclusive (r : Room) (q : Q) (sym : Symbol) (t : Z) :
  refused r q = false → exclusive (applyMove r q sym t).
Proof.
  intros Hq. apply refused_false in Hq as (_ & _ & _ & Hw & Hd).
  unfold exclusive, applyMove.
  destruct (checkWinner _) as [[w line]|]; [|case_bool_decide]; simpl;
    rewrite ?Hw, ?Hd; intros [H1 H2]; congruence.
Qed.

Lemma roomChange_exclusive (o : option Room) (r' : Room) :
  roomChange o r' → (∀ r, o = Some r → exclusive r) → exclusive r'.
Proof.
  unfold exclusive.
  intros [r r1 Hg | r1 Hs | r q t r1 Hq Hg | r r1 Hs] Hold.
  - destruct Hg as (_ & _ & _ & Hw & _ & Hd & _). rewrite Hw, Hd. by apply Hold.
  - destruct Hs as (_ & _ & Hw & _). rewrite Hw. by intros [H _].
  - destruct Hg as (_ & _ & _ & Hw & _ & Hd & _). rewrite Hw, Hd.
    by apply applyMove_exclusive.
  - destruct Hs as (_ & _ & Hw & _). rewrite Hw. by intros [H _].
Qed.

Lemma sameGame_trans (r1 r2 r3 : Room) : sameGame r1 r2 → sameGame r2 r3 → sameGame r1 r3.
Proof.
  unfold sameGame. intros (?&?&?&?&?&?&?&?) (?&?&?&?&?&?&?&?).
  repeat split; congruence.
Qed.

Lemma sameGame_decided (r r' : Room) : sameGame r r' → decided r → decided r'.
Proof. unfold decided. intros (_ & _ & _ & -> & _ & -> & _). done. Qed.

Lemma decided_refused (r : Room) (q : Q) : decided r → refused r q = true.
Proof. intros H. apply refused_true. tauto. Qed.

(** An event that is no reset or new message, no timer and no sweep keeps a
    decided room, and keeps its game part as it is. *)
Lemma step_keeps_decided (s s' : Server) (e : Event) (c : string) (r : Room) :
  keepsRound e = true → step s e = Some s' →
  rooms s !! c = Some r → decided r →
  ∃ r', rooms s' !! c = Some r' ∧ sameGame r r'.
Proof.
  intros Hk Hstep Hr Hdec.
  assert (Hsame : ∀ m : gmap string Room, m = rooms s →
                  ∃ r', m !! c = Some r' ∧ sameGame r r').
  { intros m ->. exists r. split; [done | apply sameGame_refl]. }
  destruct e as [|ws msg env|ws|t|t]; simpl in Hk, Hstep; try done.
  - injection Hstep as <-. by apply Hsame.
  - destruct (isOpen s ws); [|injection Hstep as <-; by apply Hsame].
    destruct msg as [|mc|index| | | | |]; simpl in Hk, Hstep; try done.
    + apply onCreate_rooms in Hstep as (c0 & r0 & Hfree & _ & ->).
      exists r. split; [|apply sameGame_refl].
      rewrite lookup_insert_ne; [done | congruence].
    + injection Hstep as <-.
      destruct (onJoin_rooms ws mc env s) as [H|(r1 & r0 & Hr1 & Hg & ->)];
        [by apply Hsame|].
      destruct (decide (normalizeCode mc = c)) as [<-|Hne].
      * exists r0. rewrite lookup_insert_eq. split; [done|]. congruence.
      * exists r. rewrite lookup_insert_ne by done. split; [done | apply sameGame_refl].
    + injection Hstep as <-.
      destruct (onMove_rooms ws index env s) as [H|(c0 & r1 & q & _ & Hacc & ->)];
        [by apply Hsame|].
      destruct Hacc as (Hroom & _ & Hq).
      apply roomOf_Some in Hroom as (w & _ & _ & Hr1).
      destruct (decide (c0 = c)) as [->|Hne].
      * assert (r1 = r) as -> by congruence.
        rewrite (decided_refused r q Hdec) in Hq. done.
      * exists r. rewrite lookup_insert_ne by done. split; [done | apply sameGame_refl].
    + injection Hstep as <-. by apply Hsame.
  - destruct (isOpen s ws); [|injection Hstep as <-; by apply Hsame].
    injection Hstep as <-.
    destruct (onClose_rooms ws (setConns (alter (setReadyState 3) ws (conns s)) s))
      as [H|(c0 & r1 & r0 & Hr1 & Hg & ->)]; [by apply Hsame|].
    simpl in Hr1. destruct (decide (c0 = c)) as [->|Hne].
    + exists r0. rewrite lookup_insert_eq. split; [done|]. congruence.
    + exists r. rewrite lookup_insert_ne by done. split; [done | apply sameGame_refl].
Qed.

Lemma run_keeps_decided (es : list Event) (s s' : Server) (c : string) (r : Room) :
  forallb keepsRound es = true → run s es = Some s' →
  rooms s !! c = Some r → decided r →
  ∃ r', rooms s' !! c = Some r' ∧ sameGame r r'.
Proof.
  revert s r. induction es as [|e es IH]; intros s r; simpl.
  - intros _ [= <-] Hr _. exists r. split; [done | apply sameGame_refl].
  - intros Hk Hrun Hr Hdec. apply andb_true_iff in Hk as [Hk1 Hk2].
    destruct (step s e) as [s1|] eqn:E; [|done].
    destruct (step_keeps_decided s s1 e c r Hk1 E Hr Hdec) as (r1 & Hr1 & Hg1).
    destruct (IH s1 r1 Hk2 Hrun Hr1 (sameGame_decided _ _ Hg1 Hdec)) as (r2 & Hr2 & Hg2).
    exists r2. split; [done|]. by eapply sameGame_trans.
Qed.

Lemma decided_move_rejected (s : Server) (ws : nat) (index : JsValue) (env : Env)
      (c : string) (r : Room) :
  isOpen s ws = true → roomOf s ws = Some (c, r) → decided r →
  ∃ m, step s (EMessage ws (MsgMove index) env) = Some (rejectedWith m ws s).
Proof.
  intros Hopen Hroom Hdec. simpl. rewrite Hopen. simpl.
  destruct (decide (symbolOf s ws = Some (currentPlayer r))) as [Hsym|Hsym].
  - exists "Invalid move".
    rewrite (onMove_invalid s ws index env c r Hroom Hsym) by tauto.
    by rewrite send_open.
  - exists "Not your turn".
    rewrite (onMove_not_your_turn s ws index env c r Hroom Hsym).
    by rewrite send_open.
Qed.

Lemma restart_clears (keep : Scores → Scores) (ws : nat) (env : Env) (s : Server)
      (c : string) (r : Room) :
  roomOf s ws = Some (c, r) →
  ∃ r', rooms (restart keep ws env s) !! c = Some r' ∧ roundStart r'
        ∧ scores r' = keep (scores r) ∧ code r' = code r.
Proof.
  intros Hroom.
  destruct (restart_rooms keep ws env s) as [[H _]|(c0 & r0 & r1 & H & -> & Hs)];
    [congruence|].
  assert (c0 = c) as -> by congruence. assert (r0 = r) as -> by congruence.
  exists r1. by rewrite lookup_insert_eq.
Qed.

(** C3. In every state the server reaches, no room has both [winner] and
    [isDraw] set. Once either is set in a room, every move sent to it is
    answered with an error and changes nothing but the sender's inbox; the
    room and its game part (the board included) stay through every sequence
    of connections, creates, joins, moves and disconnects; and a reset or a
    new clears both. *)
Theorem winner_and_draw_exclusive_until_reset
        (es : list Event) (s : Server) (c : string) (r : Room)
        (Hrun : run initial es = Some s)
        (Hr : rooms s !! c = Some r) :
  ¬ (winner r ≠ None ∧ isDraw r = true)
  ∧ (decided r →
     (∀ ws index env,
         isOpen s ws = true → roomOf s ws = Some (c, r) →
         ∃ m, step s (EMessage ws (MsgMove index) env) = Some (rejectedWith m ws s))
     ∧ (∀ es' s',
           forallb keepsRound es' = true → run s es' = Some s' →
           ∃ r', rooms s' !! c = Some r' ∧ sameGame r r')
     ∧ (∀ ws msg env s',
           msg = MsgReset ∨ msg = MsgNew →
           isOpen s ws = true → roomOf s ws = Some (c, r) →
           step s (EMessage ws msg env) = Some s' →
           ∃ r', rooms s' !! c = Some r' ∧ winner r' = None ∧ isDraw r' = false)).
Proof.
  split.
  - revert c r Hr.
    refine (run_invariant (λ s, ∀ c r, rooms s !! c = Some r → exclusive r) _ _ es s Hrun).
    + intros c r H. simpl in H. by rewrite lookup_empty in H.
    + intros s0 e s1 IH Hstep c r Hr.
      eapply roomChange_exclusive; [by eapply step_roomChange|].
      intros r0 Hr0. by eapply IH.
  - intros Hdec. split; [|split].
    + intros ws index env Hopen Hroom. by eapply decided_move_rejected.
    + intros es' s' Hk Hrun'. by eapply run_keeps_decided.
    + intros ws msg env s' Hmsg Hopen Hroom. simpl. rewrite Hopen.
      destruct Hmsg as [-> | ->]; simpl; intros [= <-].
      * destruct (restart_clears (λ sc, sc) ws env s c r Hroom)
          as (r' & Hr' & (_ & _ & Hw & _ & Hd & _) & _).
        by exists r'.
      * destruct (restart_clears (λ _, mkScores 0 0 0) ws env s c r Hroom)
          as (r' & Hr' & (_ & _ & Hw & _ & Hd & _) & _).
        by exists r'.
Qed.

(** ** The outcome of an accepted move *)

Lemma bumpScore_scoreOf (w : Symbol) (sc : Scores) :
  scoreOf w (bumpScore w sc) = S (scoreOf w sc)
  ∧ scoreOf (other w) (bumpScore w sc) = scoreOf (other w) sc
  ∧ draws (bumpScore w sc) = draws sc.
Proof. by destruct w. Qed.

Lemma applyMove_board (room : Room) (q : Q) (sym : Symbol) (t : Z) :
  board (applyMove room q sym t) = boardSet (board room) q sym
  ∧ moveCount (applyMove room q sym t) = S (moveCount room).
Proof.
  unfold applyMove. destruct (checkWinner _) as [[w line]|]; [|case_bool_decide]; done.
Qed.

Lemma applyMove_outcome (room : Room) (q : Q) (sym : Symbol) (t : Z) :
  winner room = None → isDraw room = false →
  match checkWinner (cells (boardSet (board room) q sym)) with
  | Some (w, line) =>
      winner (applyMove room q sym t) = Some w
      ∧ winningLine (applyMove room q sym t) = Some line
      ∧ isDraw (applyMove room q sym t) = false
      ∧ scores (applyMove room q sym t) = bumpScore w (scores room)
      ∧ currentPlayer (applyMove room q sym t) = currentPlayer room
  | None =>
      winner (applyMove room q sym t) = None
      ∧ if bool_decide (S (moveCount room) = 9)
        then isDraw (applyMove room q sym t) = true
             ∧ scores (applyMove room q sym t) = bumpDraws (scores room)
             ∧ currentPlayer (applyMove room q sym t) = currentPlayer room
        else isDraw (applyMove room q sym t) = false
             ∧ scores (applyMove room q sym t) = scores room
             ∧ currentPlayer (applyMove room q sym t) = other (currentPlayer room)
  end.
Proof.
  intros Hw Hd. unfold applyMove.
  destruct (checkWinner _) as [[w line]|]; [done|].
  case_bool_decide; simpl; by rewrite ?Hw, ?Hd.
Qed.

Lemma onMove_accepted_step (s : Server) (ws : nat) (q : Q) (env : Env)
      (c : string) (room : Room) :
  isOpen s ws = true → accepted s ws c room q →
  ∃ s', step s (EMessage ws (MsgMove (JsNumber q)) env) = Some s'
        ∧ rooms s' !! c = Some (applyMove room q (currentPlayer room) (now env)).
Proof.
  intros Hopen Hacc. eexists. simpl. rewrite Hopen. simpl. split; [reflexivity|].
  rewrite (onMove_accepted s ws q env c room Hacc).
  unfold broadcastRoom. rewrite forEachPlayer_rooms. simpl.
  by rewrite lookup_insert_eq.
Qed.

Lemma Http_move_accepted (g : Http.Game) (q : Q) :
  Http.accepted g q →
  Http.move (JsNumber q) g = (Http.applyMove g q, Http.Json (Http.sanitize (Http.applyMove g q))).
Proof.
  intros (H1 & H2 & H3). unfold Http.move. by rewrite H1, H2, H3.
Qed.

Lemma Http_applyMove_outcome (g : Http.Game) (q : Q) :
  Http.winner g = None → Http.isDraw g = false →
  Http.board (Http.applyMove g q) = Http.boardSet (Http.board g) q (Http.currentPlayer g)
  ∧ Http.moveCount (Http.applyMove g q) = S (Http.moveCount g)
  ∧ match checkWinner (Http.boardSet (Http.board g) q (Http.currentPlayer g)) with
    | Some (w, line) =>
        Http.winner (Http.applyMove g q) = Some w
        ∧ Http.winningLine (Http.applyMove g q) = Some line
        ∧ Http.isDraw (Http.applyMove g q) = false
        ∧ Http.scores (Http.applyMove g q) = bumpScore w (Http.scores g)
        ∧ Http.currentPlayer (Http.applyMove g q) = Http.currentPlayer g
    | None =>
        Http.winner (Http.applyMove g q) = None
        ∧ if bool_decide (S (Http.moveCount g) = 9)
          then Http.isDraw (Http.applyMove g q) = true
               ∧ Http.scores (Http.applyMove g q) = bumpDraws (Http.scores g)
               ∧ Http.currentPlayer (Http.applyMove g q) = Http.currentPlayer g
          else Http.isDraw (Http.applyMove g q) = false
               ∧ Http.scores (Http.applyMove g q) = Http.scores g
               ∧ Http.currentPlayer (Http.applyMove g q) = other (Http.currentPlayer g)
    end.
Proof.
  intros Hw Hd. unfold Http.applyMove.
  destruct (checkWinner _) as [[w line]|]; [done|].
  case_bool_decide; simpl; by rewrite ?Hw, ?Hd.
Qed.

Lemma Http_accepted_open (g : Http.Game) (q : Q) :
  Http.accepted g q → Http.winner g = None ∧ Http.isDraw g = false.
Proof.
  intros (_ & _ & H). apply orb_false_iff in H as [H1 H2].
  apply bool_decide_eq_false in H1. split; [|done].
  destruct (Http.winner g); [by destruct H1 | done].
Qed.

(** C5. An accepted move writes the mover's symbol at its index of the old
    board and adds one to [moveCount]. In the resulting state [isDraw] is
    true exactly when [moveCount] is 9 and [checkWinner] finds nothing on
    the new board, and [winner] is what [checkWinner] finds there; when
    [isDraw] becomes true the draws score goes up by one and the two symbol
    scores stay, when [checkWinner] finds a winner that symbol's score goes
    up by one and the other two stay, and otherwise the scores stay. This
    holds for the move handler of [server.js] and for [/api/move]. *)
Theorem draw_iff_ninth_move_without_winner
        (s : Server) (ws : nat) (c : string) (room : Room) (q : Q) (env : Env)
        (Hopen : isOpen s ws = true)
        (Hacc : accepted s ws c room q)
        (g : Http.Game) (q' : Q)
        (Hacc' : Http.accepted g q') :
  (∃ s' r',
      step s (EMessage ws (MsgMove (JsNumber q)) env) = Some s'
      ∧ rooms s' !! c = Some r'
      ∧ board r' = boardSet (board room) q (currentPlayer room)
      ∧ moveCount r' = S (moveCount room)
      ∧ (isDraw r' = true ↔ moveCount r' = 9 ∧ checkWinner (cells (board r')) = None)
      ∧ winner r' = fst <$> checkWinner (cells (board r'))
      ∧ (isDraw r' = true →
         draws (scores r') = S (draws (scores room))
         ∧ scoreX (scores r') = scoreX (scores room)
         ∧ scoreO (scores r') = scoreO (scores room))
      ∧ (∀ w line, checkWinner (cells (board r')) = Some (w, line) →
         winner r' = Some w
         ∧ scoreOf w (scores r') = S (scoreOf w (scores room))
         ∧ scoreOf (other w) (scores r') = scoreOf (other w) (scores room)
         ∧ draws (scores r') = draws (scores room))
      ∧ (isDraw r' = false → winner r' = None → scores r' = scores room))
  ∧ (∃ g' reply,
        Http.move (JsNumber q') g = (g', reply)
        ∧ Http.board g' = Http.boardSet (Http.board g) q' (Http.currentPlayer g)
        ∧ Http.moveCount g' = S (Http.moveCount g)
        ∧ (Http.isDraw g' = true ↔
           Http.moveCount g' = 9 ∧ checkWinner (Http.board g') = None)
        ∧ Http.winner g' = fst <$> checkWinner (Http.board g')
        ∧ (Http.isDraw g' = true →
           draws (Http.scores g') = S (draws (Http.scores g))
           ∧ scoreX (Http.scores g') = scoreX (Http.scores g)
           ∧ scoreO (Http.scores g') = scoreO (Http.scores g))
        ∧ (∀ w line, checkWinner (Http.board g') = Some (w, line) →
           Http.winner g' = Some w
           ∧ scoreOf w (Http.scores g') = S (scoreOf w (Http.scores g))
           ∧ scoreOf (other w) (Http.scores g') = scoreOf (other w) (Http.scores g)
           ∧ draws (Http.scores g') = draws (Http.scores g))
        ∧ (Http.isDraw g' = false → Http.winner g' = None →
           Http.scores g' = Http.scores g)).
Proof.
  split.
  - destruct (onMove_accepted_step s ws q env c room Hopen Hacc) as (s' & Hstep & Hr').
    exists s', (applyMove room q (currentPlayer room) (now env)).
    split; [done|]. split; [done|].
    destruct Hacc as (_ & _ & Hq).
    apply refused_false in Hq as (_ & _ & _ & Hw & Hd).
    pose proof (applyMove_outcome room q (currentPlayer room) (now env) Hw Hd) as Hout.
    destruct (applyMove_board room q (currentPlayer room) (now env)) as [-> ->].
    split; [done|]. split; [done|].
    destruct (checkWinner _) as [[w line]|].
    + destruct Hout as (Hw' & _ & Hd' & Hsc & _). rewrite Hw', Hd', Hsc.
      split; [split; [done | by intros [_ ?]]|]. split; [done|]. split; [done|].
      split; [|done].
      intros w0 line0 [= <- <-]. split; [done|]. apply bumpScore_scoreOf.
    + destruct Hout as (Hw' & Hout). rewrite Hw'. case_bool_decide as Hn.
      * destruct Hout as (Hd' & Hsc & _). rewrite Hd', Hsc.
        split; [done|]. split; [done|]. split; [done|]. split; [|done].
        intros w line Hwl. discriminate Hwl.
      * destruct Hout as (Hd' & Hsc & _). rewrite Hd', Hsc.
        split; [split; [done | by intros [? _]]|]. split; [done|]. split; [done|].
        split; [|done]. intros w line Hwl. discriminate Hwl.
  - exists (Http.applyMove g q'), (Http.Json (Http.sanitize (Http.applyMove g q'))).
    split; [by apply Http_move_accepted|].
    destruct (Http_accepted_open g q' Hacc') as [Hw Hd].
    destruct (Http_applyMove_outcome g q' Hw Hd) as (-> & -> & Hout).
    split; [done|]. split; [done|].
    destruct (checkWinner _) as [[w line]|].
    + destruct Hout as (Hw' & _ & Hd' & Hsc & _). rewrite Hw', Hd', Hsc.
      split; [split; [done | by intros [_ ?]]|]. split; [done|]. split; [done|].
      split; [|done].
      intros w0 line0 [= <- <-]. split; [done|]. apply bumpScore_scoreOf.
    + destruct Hout as (Hw' & Hout). rewrite Hw'. case_bool_decide as Hn.
      * destruct Hout as (Hd' & Hsc & _). rewrite Hd', Hsc.
        split; [done|]. split; [done|]. split; [done|]. split; [|done].
        intros w line Hwl. discriminate Hwl.
      * destruct Hout as (Hd' & Hsc & _). rewrite Hd', Hsc.
        split; [split; [done | by intros [? _]]|]. split; [done|]. split; [done|].
        split; [|done]. intros w line Hwl. discriminate Hwl.
Qed.

(** ** Reset *)

(** C7. A reset leaves the scores of the room as they were and gives it a
    board of nine empty cells, no winner, no winning line, [isDraw] false
    and [moveCount] 0; when the room of the connection no longer exists the
    reset changes nothing and sends nothing. [/api/reset] does the same to
    the single game. *)
Theorem reset_keeps_scores_and_clears_round
        (s : Server) (ws : nat) (env : Env)
        (Hopen : isOpen s ws = true) :
  (roomOf s ws = None → step s (EMessage ws MsgReset env) = Some s)
  ∧ (∀ c room, roomOf s ws = Some (c, room) →
       ∃ s' room',
         step s (EMessage ws MsgReset env) = Some s'
         ∧ rooms s' !! c = Some room'
         ∧ scores room' = scores room
         ∧ cells (board room') = replicate 9 None
         ∧ props (board room') = []
         ∧ winner room' = None ∧ winningLine room' = None
         ∧ isDraw room' = false ∧ moveCount room' = 0)
  ∧ (∀ g : Http.Game,
       Http.scores (fst (Http.reset g)) = Http.scores g
       ∧ Http.board (fst (Http.reset g)) = replicate 9 None
       ∧ Http.winner (fst (Http.reset g)) = None
       ∧ Http.winningLine (fst (Http.reset g)) = None
       ∧ Http.isDraw (fst (Http.reset g)) = false
       ∧ Http.moveCount (fst (Http.reset g)) = 0).
Proof.
  split; [|split].
  - intros Hnone. simpl. rewrite Hopen. simpl. unfold onReset, restart.
    by rewrite Hnone.
  - intros c room Hroom.
    destruct (restart_clears (λ sc, sc) ws env s c room Hroom)
      as (r' & Hr' & (Hb & _ & Hw & Hl & Hd & Hn) & Hsc & _).
    exists (onReset ws env s), r'. simpl. rewrite Hopen. simpl.
    split; [done|]. split; [exact Hr'|]. rewrite Hb. done.
  - intros g. done.
Qed.

(** ** Join *)

Lemma availableSlot_X (room : Room) :
  slotX (players room) = None → availableSlot room = Some X.
Proof. intros H. unfold availableSlot. simpl. by rewrite H. Qed.

Lemma availableSlot_O (room : Room) :
  slotX (players room) ≠ None → slotO (players room) = None →
  availableSlot room = Some O.
Proof.
  intros HX HO. unfold availableSlot. simpl. rewrite HO.
  by rewrite bool_decide_eq_false_2.
Qed.

Lemma availableSlot_full (room : Room) :
  slotX (players room) ≠ None → slotO (players room) ≠ None →
  availableSlot room = None.
Proof.
  intros HX HO. unfold availableSlot. simpl.
  by rewrite !bool_decide_eq_false_2.
Qed.

Lemma availableSlot_free (room : Room) (a : Symbol) :
  availableSlot room = Some a → slot (players room) a = None.
Proof.
  unfold availableSlot. intros H. apply find_some in H as [_ H].
  by apply bool_decide_eq_true in H.
Qed.

Lemma isOpen_lookup (s : Server) (ws : nat) :
  isOpen s ws = true → ∃ w, conns s !! ws = Some w ∧ readyState w = 1.
Proof.
  unfold isOpen. destruct (conns s !! ws) as [w|]; [|done].
  intros H. apply bool_decide_eq_true in H. eauto.
Qed.

Lemma slot_setSlot_eq {A} (sym : Symbol) (v : option A) (p : Slots A) :
  slot (setSlot sym v p) sym = v.
Proof. by destruct sym. Qed.

Lemma slot_setSlot_other {A} (sym : Symbol) (v : option A) (p : Slots A) :
  slot (setSlot sym v p) (other sym) = slot p (other sym).
Proof. by destruct sym. Qed.

Lemma clearTimeout_lookup (t : nat) (ts : list Timer) (tm : Timer) :
  clearTimeout t ts !! t = Some tm → timerPending tm = false.
Proof.
  unfold clearTimeout. rewrite list_lookup_alter_eq.
  destruct (ts !! t); simpl; [|done]. by intros [= <-].
Qed.

Lemma onTimeout_not_pending (t : nat) (s : Server) :
  (∀ tm, timers s !! t = Some tm → timerPending tm = false) → onTimeout t s = s.
Proof.
  intros H. unfold onTimeout. destruct (timers s !! t) as [tm|]; [|done].
  by rewrite (H tm eq_refl).
Qed.

(** What a join that finds a free slot does. *)
Lemma onJoin_seated (s : Server) (ws : nat) (mc : JsCode) (env : Env)
      (room : Room) (sym : Symbol) (w : Conn) :
  conns s !! ws = Some w →
  rooms s !! normalizeCode mc = Some room → availableSlot room = Some sym →
  ∃ room',
    rooms (onJoin ws mc env s) !! normalizeCode mc = Some room'
    ∧ slot (players room') sym = Some ws
    ∧ slot (players room') (other sym) = slot (players room) (other sym)
    ∧ conns (onJoin ws mc env s) !! ws = Some (bind (normalizeCode mc) sym w)
    ∧ slot (disconnectTimers room') sym = None
    ∧ (∀ t, slot (disconnectTimers room) sym = Some t →
            ∀ tm, timers (onJoin ws mc env s) !! t = Some tm → timerPending tm = false)
    ∧ lastActivity room' = now env
    ∧ sameGame room room'.
Proof.
  intros Hw Hroom Hav. unfold onJoin. rewrite Hroom, Hav.
  destruct (slot (disconnectTimers room) sym) as [t|] eqn:Ht; eexists;
    unfold broadcastRoom;
    rewrite forEachPlayer_rooms, forEachPlayer_conns, forEachPlayer_timers,
            send_rooms, send_conns, send_timers; simpl;
    rewrite lookup_insert_eq, list_lookup_alter_eq, Hw; simpl;
    (split; [reflexivity|]); simpl;
    rewrite ?slot_setSlot_eq, ?slot_setSlot_other.
  - repeat split; try done.
    intros t0 [= <-] tm. apply clearTimeout_lookup.
  - repeat split; done.
Qed.

Lemma onJoin_timers (s : Server) (ws : nat) (mc : JsCode) (env : Env)
      (room : Room) (sym : Symbol) :
  rooms s !! normalizeCode mc = Some room → availableSlot room = Some sym →
  timers (onJoin ws mc env s)
  = match slot (disconnectTimers room) sym with
    | Some t => clearTimeout t (timers s)
    | None => timers s
    end.
Proof.
  intros Hroom Hav. unfold onJoin. rewrite Hroom, Hav.
  destruct (slot (disconnectTimers room) sym) as [t|]; unfold broadcastRoom;
    by rewrite forEachPlayer_timers, send_timers.
Qed.

(** X22. What the join handler does, for every join whose code converts to
    a text. A join whose normalized code names no room is answered with
    'Room not found'; one for a room whose two slots are taken is answered
    with 'Room is full'; in both cases nothing else changes. Otherwise the
    connection is stored in the first free slot, X before O, and is given
    that code and symbol; [lastActivity] is the time of the join; and of the
    timers exactly one changes, if any: the one the room records for that
    slot in [disconnectTimers], which is cleared and can no longer fire,
    while the record is emptied. A join whose code cannot be converted to a
    text, and the payload [null], make the listener throw before anything
    is changed or sent. *)
Theorem join_errors_or_first_free_slot
        (s : Server) (ws : nat) (mc : JsCode) (env : Env)
        (Hopen : isOpen s ws = true) :
  step s (EMessage ws (MsgJoin mc) env) = Some (onJoin ws mc env s)
  ∧ (rooms s !! normalizeCode mc = None →
     onJoin ws mc env s = rejectedWith "Room not found" ws s)
  ∧ (∀ room, rooms s !! normalizeCode mc = Some room →
       slotX (players room) ≠ None → slotO (players room) ≠ None →
       onJoin ws mc env s = rejectedWith "Room is full" ws s)
  ∧ (∀ room sym, rooms s !! normalizeCode mc = Some room →
       (sym = X ∧ slotX (players room) = None)
       ∨ (sym = O ∧ slotX (players room) ≠ None ∧ slotO (players room) = None) →
       ∃ room',
         rooms (onJoin ws mc env s) !! normalizeCode mc = Some room'
         ∧ slot (players room') sym = Some ws
         ∧ slot (players room') (other sym) = slot (players room) (other sym)
         ∧ (∃ w', conns (onJoin ws mc env s) !! ws = Some w'
                  ∧ roomCode w' = Some (normalizeCode mc) ∧ symbol w' = Some sym)
         ∧ slot (disconnectTimers room') sym = None
         ∧ (∀ t, slot (disconnectTimers room) sym = Some t →
                 (∀ tm, timers (onJoin ws mc env s) !! t = Some tm →
                        timerPending tm = false)
                 ∧ onTimeout t (onJoin ws mc env s) = onJoin ws mc env s)
         ∧ lastActivity room' = now env
         ∧ sameGame room room'
         ∧ timers (onJoin ws mc env s)
           = match slot (disconnectTimers room) sym with
             | Some t => clearTimeout t (timers s)
             | None => timers s
             end)
  ∧ step s (EMessage ws MsgJoinThrows env) = None
  ∧ step s (EMessage ws MsgNull env) = None.
Proof.
  split; [|split; [|split; [|split; [|split]]]];
    [| | | |simpl; by rewrite Hopen|simpl; by rewrite Hopen].
  - simpl. by rewrite Hopen.
  - intros Hnone. unfold onJoin. rewrite Hnone. by apply send_open.
  - intros room Hroom HX HO. unfold onJoin.
    rewrite Hroom, (availableSlot_full room HX HO). by apply send_open.
  - intros room sym Hroom Hfree.
    assert (Hav : availableSlot room = Some sym).
    { destruct Hfree as [[-> HX] | (-> & HX & HO)];
        [by apply availableSlot_X | by apply availableSlot_O]. }
    destruct (isOpen_lookup s ws Hopen) as (w & Hw & _).
    destruct (onJoin_seated s ws mc env room sym w Hw Hroom Hav)
      as (room' & H1 & H2 & H3 & H4 & H5 & H6 & H7 & H8).
    exists room'. split; [done|]. split; [done|]. split; [done|].
    split; [by exists (bind (normalizeCode mc) sym w)|]. split; [done|].
    split; [|split; [done|split; [done|by apply onJoin_timers]]].
    intros t Ht. split; [by apply H6|].
    apply onTimeout_not_pending. by apply H6.
Qed.

(** C6 fails in [server.js]: a join does not cancel every pending disconnect
    timer of the slot it takes. In room AAAA connection 0, the holder of X,
    disconnects (timer 0, for slot X); the reset of connection 1 reshuffles
    connection 1 into slot X; connection 1 disconnects as well (timer 1, for
    slot X, which replaces timer 0 in the room's record and leaves it
    running). Connection 2 then joins with the code AAAA and is stored in
    slot X: timer 1 is cleared, and timer 0 of slot X is still pending. *)
Theorem join_leaves_a_timer_of_its_slot_pending :
  run initial slotLeftTwice = Some (stateAfter slotLeftTwice)
  ∧ timers (stateAfter slotLeftTwice)
    = [mkTimer 0 X DISCONNECT_GRACE true; mkTimer 1 X DISCONNECT_GRACE true]
  ∧ players (roomAt (stateAfter slotLeftTwice) "AAAA") = mkSlots None None
  ∧ disconnectTimers (roomAt (stateAfter slotLeftTwice) "AAAA") = mkSlots (Some 1) None
  ∧ isOpen (stateAfter slotLeftTwice) 2 = true
  ∧ ∃ s' r',
      step (stateAfter slotLeftTwice) (EMessage 2 (MsgJoin (CodeAscii "AAAA")) heads)
      = Some s'
      ∧ rooms s' !! "AAAA" = Some r'
      ∧ players r' = mkSlots (Some 2) None
      ∧ symbolOf s' 2 = Some X
      ∧ disconnectTimers r' = mkSlots None None
      ∧ timers s'
        = [mkTimer 0 X DISCONNECT_GRACE true; mkTimer 1 X DISCONNECT_GRACE false]
      ∧ ¬ (∀ t tm, timers s' !! t = Some tm → timerSym tm = X →
                   timerPending tm = false).
Proof.
  split; [by_running|]. split; [by_running|]. split; [by_running|].
  split; [by_running|]. split; [by_running|].
  exists (stateAfter replacedTimer), (roomAt (stateAfter replacedTimer) "AAAA").
  split; [by_running|]. split; [by_running|]. split; [by_running|].
  split; [by_running|]. split; [by_running|].
  assert (Ht : timers (stateAfter replacedTimer)
               = [mkTimer 0 X DISCONNECT_GRACE true; mkTimer 1 X DISCONNECT_GRACE false])
    by by_running.
  split; [exact Ht|]. rewrite Ht.
  intros H. specialize (H 0 (mkTimer 0 X DISCONNECT_GRACE true) eq_refl eq_refl).
  discriminate H.
Qed.

Lemma isOpen_onJoin (ws ws' : nat) (mc : JsCode) (env : Env) (s : Server) :
  isOpen (onJoin ws mc env s) ws' = isOpen s ws'.
Proof.
  assert (Hsend : ∀ m, isOpen (send ws m s) ws' = isOpen s ws')
    by (intros m; unfold isOpen; by rewrite send_conns).
  unfold onJoin. destruct (rooms s !! normalizeCode mc) as [room|]; [|apply Hsend].
  destruct (availableSlot room) as [a|]; [|apply Hsend].
  unfold isOpen.
  destruct (slot (disconnectTimers room) a) as [t|]; unfold broadcastRoom;
    rewrite forEachPlayer_conns, send_conns; simpl;
    (destruct (decide (ws = ws')) as [->|Hne];
     [rewrite list_lookup_alter_eq; by destruct (conns s !! ws')
     |by rewrite list_lookup_alter_ne]).
Qed.

(** After two joins to a room whose two slots were empty, a third join is
    answered with 'Room is full'. *)
Lemma third_join_room_full (s : Server) (mc : JsCode) (room : Room)
      (ws1 ws2 ws3 : nat) (env1 env2 env3 : Env) :
  rooms s !! normalizeCode mc = Some room →
  slotX (players room) = None → slotO (players room) = None →
  isOpen s ws1 = true → isOpen s ws2 = true → isOpen s ws3 = true →
  onJoin ws3 mc env3 (onJoin ws2 mc env2 (onJoin ws1 mc env1 s))
  = rejectedWith "Room is full" ws3 (onJoin ws2 mc env2 (onJoin ws1 mc env1 s)).
Proof.
  intros Hroom HX HO H1 H2 H3.
  destruct (isOpen_lookup s ws1 H1) as (w1 & Hw1 & _).
  destruct (onJoin_seated s ws1 mc env1 room X w1 Hw1 Hroom (availableSlot_X room HX))
    as (room1 & Hr1 & HX1 & HO1 & _).
  set (s1 := onJoin ws1 mc env1 s) in *.
  assert (H2' : isOpen s1 ws2 = true) by (unfold s1; by rewrite isOpen_onJoin).
  destruct (isOpen_lookup s1 ws2 H2') as (w2 & Hw2 & _).
  simpl in HX1, HO1. rewrite HO in HO1.
  assert (HX1' : slotX (players room1) ≠ None) by (rewrite HX1; done).
  destruct (onJoin_seated s1 ws2 mc env2 room1 O w2 Hw2 Hr1
              (availableSlot_O room1 HX1' HO1))
    as (room2 & Hr2 & HO2 & HX2 & _).
  set (s2 := onJoin ws2 mc env2 s1) in *.
  assert (H3' : isOpen s2 ws3 = true)
    by (unfold s2, s1; by rewrite !isOpen_onJoin).
  simpl in HO2, HX2.
  unfold onJoin at 1. rewrite Hr2, availableSlot_full.
  - by apply send_open.
  - rewrite HX2. done.
  - rewrite HO2. done.
Qed.

(** ** Disconnect and the grace timer *)

Lemma isOpen_after_close (s : Server) (ws opp : nat) :
  isOpen (setConns (alter (setReadyState 3) ws (conns s)) s) opp
  = isOpen s opp && negb (bool_decide (opp = ws)).
Proof.
  unfold isOpen. simpl. case_bool_decide as Heq.
  - subst opp. rewrite list_lookup_alter_eq.
    destruct (conns s !! ws) as [w|]; simpl; [|done].
    by rewrite andb_false_r.
  - rewrite list_lookup_alter_ne by done. by rewrite andb_true_r.
Qed.

Lemma roomOf_after_close (s : Server) (ws ws' : nat) :
  roomOf (setConns (alter (setReadyState 3) ws (conns s)) s) ws' = roomOf s ws'.
Proof.
  unfold roomOf. simpl. destruct (decide (ws' = ws)) as [->|Hne].
  - rewrite list_lookup_alter_eq. by destruct (conns s !! ws).
  - by rewrite list_lookup_alter_ne.
Qed.

Lemma symbolOf_after_close (s : Server) (ws ws' : nat) :
  symbolOf (setConns (alter (setReadyState 3) ws (conns s)) s) ws' = symbolOf s ws'.
Proof.
  unfold symbolOf. simpl. destruct (decide (ws' = ws)) as [->|Hne].
  - rewrite list_lookup_alter_eq. by destruct (conns s !! ws).
  - by rewrite list_lookup_alter_ne.
Qed.

Lemma send_outbox (s : Server) (ws : nat) (m : ServerMsg) :
  outbox (send ws m s) = outbox s ++ delivered s (Some ws) m.
Proof.
  unfold send, delivered. destruct (isOpen s ws); simpl; [done|].
  by rewrite app_nil_r.
Qed.

(** What the close handler does for a connection with a room and a symbol. *)
Lemma onClose_bound (s : Server) (ws : nat) (c : string) (room : Room) (sym : Symbol) :
  roomOf s ws = Some (c, room) → symbolOf s ws = Some sym →
  ∃ room',
    rooms (onClose ws s) !! c = Some room'
    ∧ slot (players room') sym = None
    ∧ slot (players room') (other sym) = slot (players room) (other sym)
    ∧ outbox (onClose ws s)
      = outbox s ++ delivered s (slot (players room) (other sym)) (OpponentLeft 60)
    ∧ timers (onClose ws s) = timers s ++ [mkTimer ws sym DISCONNECT_GRACE true]
    ∧ slot (disconnectTimers room') sym = Some (length (timers s))
    ∧ conns (onClose ws s) = conns s
    ∧ sameGame room room'.
Proof.
  intros Hroom Hsym. unfold onClose. rewrite Hroom, Hsym. eexists.
  simpl. rewrite slot_setSlot_other.
  destruct (slot (players room) (other sym)) as [opp|] eqn:Hopp;
    rewrite ?send_rooms, ?send_conns, ?send_timers, ?send_outbox;
    rewrite lookup_insert_eq; (split; [reflexivity|]); simpl;
    rewrite ?slot_setSlot_eq, ?slot_setSlot_other, ?app_nil_r;
    by repeat split.
Qed.

Lemma roomOf_setTimers (s : Server) (ts : list Timer) (ws : nat) :
  roomOf (setTimers ts s) ws = roomOf s ws.
Proof. done. Qed.

(** The callback on a room whose slot is still empty, and on one whose slot
    is taken. *)
Lemma timerCallback_empty (tm : Timer) (s : Server) (c : string) (r : Room) :
  roomOf s (timerWs tm) = Some (c, r) → slot (players r) (timerSym tm) = None →
  rooms (timerCallback tm s) = delete c (rooms s)
  ∧ outbox (timerCallback tm s)
    = outbox s ++ delivered s (slot (players r) (other (timerSym tm)))
                              (RoomClosed "Opponent did not reconnect")
  ∧ conns (timerCallback tm s) = conns s
  ∧ timers (timerCallback tm s) = timers s.
Proof.
  intros Hroom Hslot. unfold timerCallback. rewrite Hroom, Hslot.
  rewrite bool_decide_eq_true_2 by done. simpl.
  destruct (slot (players r) (other (timerSym tm))) as [opp|];
    rewrite ?send_rooms, ?send_conns, ?send_timers, ?send_outbox; simpl;
    rewrite ?app_nil_r; done.
Qed.

Lemma timerCallback_taken (tm : Timer) (s : Server) (c : string) (r : Room) :
  roomOf s (timerWs tm) = Some (c, r) → slot (players r) (timerSym tm) ≠ None →
  timerCallback tm s = s.
Proof.
  intros Hroom Hslot. unfold timerCallback. rewrite Hroom.
  by rewrite bool_decide_eq_false_2.
Qed.

(** X23. When a connection that has a room and a symbol S disconnects, slot S
    of the room is emptied at once, the connection in the other slot (if
    there is one and it is open) is sent [opponentLeft] with a grace period
    of 60, and a timer of 60 * 1000 ms for slot S is started and recorded
    in the room. When that timer fires and slot S of the room is empty at
    that moment, the room is deleted and the connection in the other slot
    (if there is one and it is open) is sent [roomClosed]; when slot S is
    taken at that moment, or the timer was cleared, firing changes no room,
    no connection and sends nothing. *)
Theorem disconnect_starts_grace_timer
        (s : Server) (ws : nat) (c : string) (room : Room) (sym : Symbol)
        (Hopen : isOpen s ws = true)
        (Hroom : roomOf s ws = Some (c, room))
        (Hsym : symbolOf s ws = Some sym) :
  (∃ s' room',
      step s (EClose ws) = Some s'
      ∧ rooms s' !! c = Some room'
      ∧ slot (players room') sym = None
      ∧ slot (players room') (other sym) = slot (players room) (other sym)
      ∧ outbox s'
        = outbox s
          ++ match slot (players room) (other sym) with
             | Some opp =>
                 if isOpen s opp && negb (bool_decide (opp = ws))
                 then [(opp, OpponentLeft 60)] else []
             | None => []
             end
      ∧ timers s' = timers s ++ [mkTimer ws sym (60 * 1000) true]
      ∧ slot (disconnectTimers room') sym = Some (length (timers s))
      ∧ sameGame room room')
  ∧ (∀ (u : Server) (t : nat) (r : Room),
        timers u !! t = Some (mkTimer ws sym (60 * 1000) true) →
        roomOf u ws = Some (c, r) →
        (slot (players r) sym = None →
         rooms (onTimeout t u) = delete c (rooms u)
         ∧ outbox (onTimeout t u)
           = outbox u
             ++ match slot (players r) (other sym) with
                | Some opp =>
                    if isOpen u opp
                    then [(opp, RoomClosed "Opponent did not reconnect")] else []
                | None => []
                end)
        ∧ (slot (players r) sym ≠ None →
           rooms (onTimeout t u) = rooms u ∧ conns (onTimeout t u) = conns u
           ∧ outbox (onTimeout t u) = outbox u))
  ∧ (∀ (u : Server) (t : nat),
        timers u !! t = Some (mkTimer ws sym (60 * 1000) false) →
        onTimeout t u = u).
Proof.
  split; [|split].
  - simpl. rewrite Hopen.
    set (s1 := setConns (alter (setReadyState 3) ws (conns s)) s).
    assert (Hroom1 : roomOf s1 ws = Some (c, room))
      by (unfold s1; by rewrite roomOf_after_close).
    assert (Hsym1 : symbolOf s1 ws = Some sym)
      by (unfold s1; by rewrite symbolOf_after_close).
    destruct (onClose_bound s1 ws c room sym Hroom1 Hsym1)
      as (room' & H1 & H2 & H3 & H4 & H5 & H6 & _ & H8).
    exists (onClose ws s1), room'. split; [done|]. split; [done|].
    split; [done|]. split; [done|]. split; [|done].
    rewrite H4. unfold delivered.
    destruct (slot (players room) (other sym)) as [opp|]; [|done].
    unfold s1. by rewrite isOpen_after_close.
  - intros u t r Ht Hr. unfold onTimeout. rewrite Ht. simpl.
    set (u1 := setTimers (clearTimeout t (timers u)) u).
    split.
    + intros Hslot.
      destruct (timerCallback_empty (mkTimer ws sym (60 * 1000) true) u1 c r Hr Hslot)
        as (H1 & H2 & _).
      rewrite H1, H2. done.
    + intros Hslot.
      rewrite (timerCallback_taken (mkTimer ws sym (60 * 1000) true) u1 c r Hr Hslot).
      done.
  - intros u t Ht. unfold onTimeout. by rewrite Ht.
Qed.

(** C8 fails in [server.js]: a timer whose slot was reclaimed before it
    fires is not always a no-op. Timer 0 was started when connection 0 left
    slot X of room AAAA. Slot X was then taken again, by the reshuffle of a
    reset and, after a second disconnect, by the join of connection 2, which
    cleared the timer the room recorded (timer 1) and not timer 0. When
    connection 2 disconnects in turn (timer 2) and timer 0 fires, the
    callback finds slot X empty and deletes the room, while the grace timer
    of connection 2 is still pending. Had timer 0 fired before connection 2
    left, it would have changed nothing. *)
Theorem timer_of_a_reclaimed_slot_closes_the_room :
  run initial replacedTimer = Some (stateAfter replacedTimer)
  ∧ timers (stateAfter (twoPlayers ++ [EClose 0])) = [mkTimer 0 X DISCONNECT_GRACE true]
  ∧ timers (stateAfter replacedTimer) !! 0 = Some (mkTimer 0 X DISCONNECT_GRACE true)
  ∧ players (roomAt (stateAfter replacedTimer) "AAAA") = mkSlots (Some 2) None
  ∧ isOpen (stateAfter replacedTimer) 2 = true
  ∧ onTimeout 0 (stateAfter replacedTimer)
    = setTimers (clearTimeout 0 (timers (stateAfter replacedTimer)))
                (stateAfter replacedTimer)
  ∧ ∃ s2 s3 r2,
      step (stateAfter replacedTimer) (EClose 2) = Some s2
      ∧ rooms s2 !! "AAAA" = Some r2
      ∧ players r2 = mkSlots None None
      ∧ timers s2 !! 0 = Some (mkTimer 0 X DISCONNECT_GRACE true)
      ∧ timers s2 !! 2 = Some (mkTimer 2 X DISCONNECT_GRACE true)
      ∧ step s2 (ETimeout 0) = Some s3
      ∧ rooms s3 !! "AAAA" = None
      ∧ timers s3 !! 2 = Some (mkTimer 2 X DISCONNECT_GRACE true).
Proof.
  split; [by_running|]. split; [by_running|]. split; [by_running|].
  split; [by_running|]. split; [by_running|]. split; [by_running|].
  exists (stateAfter (replacedTimer ++ [EClose 2])),
         (stateAfter (replacedTimer ++ [EClose 2; ETimeout 0])),
         (roomAt (stateAfter (replacedTimer ++ [EClose 2])) "AAAA").
  by_running.
Qed.

(** ** Slots and the connections stored in them *)

Lemma run_preserves (P : Server → Prop) :
  (∀ s e s', P s → step s e = Some s' → P s') →
  ∀ es s0 s, P s0 → run s0 es = Some s → P s.
Proof.
  intros Hstep es. induction es as [|e es IH]; intros s0 s H0; simpl.
  - by intros [= <-].
  - destruct (step s0 e) as [s1|] eqn:E; [|done]. apply IH. by eapply Hstep.
Qed.

Lemma runUnseated_preserves (P : Server → Prop) :
  (∀ s e s', P s → seatsStored s e = false → step s e = Some s' → P s') →
  ∀ es s0 s, P s0 → runUnseated s0 es = Some s → P s.
Proof.
  intros Hstep es. induction es as [|e es IH]; intros s0 s H0; simpl.
  - by intros [= <-].
  - destruct (seatsStored s0 e) eqn:Hu; [done|].
    destruct (step s0 e) as [s1|] eqn:E; [|done]. apply IH. by eapply Hstep.
Qed.

Lemma runUnseated_run (es : list Event) (s0 s : Server) :
  runUnseated s0 es = Some s → run s0 es = Some s.
Proof.
  revert s0. induction es as [|e es IH]; intros s0; simpl; [done|].
  destruct (seatsStored s0 e); [done|].
  destruct (step s0 e); [apply IH | done].
Qed.

Lemma stored_true (s : Server) (ws : nat) :
  stored s ws = true ↔ ∃ c sym, holds s ws c sym.
Proof.
  unfold stored, holds. rewrite bool_decide_eq_true, map_Exists_lookup. split.
  - intros (c & r & Hr & [H|H]); [exists c, X | exists c, O]; by exists r.
  - intros (c & sym & r & Hr & H). exists c, r. split; [done|].
    destruct sym; [by left | by right].
Qed.

Lemma stored_false (s : Server) (ws : nat) :
  stored s ws = false →
  ∀ c r sym, rooms s !! c = Some r → slot (players r) sym ≠ Some ws.
Proof.
  intros Hf c r sym Hr Hslot.
  assert (Ht : stored s ws = true) by (apply stored_true; exists c, sym, r; done).
  congruence.
Qed.

Lemma admits_false (s : Server) (ws : nat) (mc : JsCode) (env : Env) :
  admits s mc = false → ∃ m, onJoin ws mc env s = send ws (Error m) s.
Proof.
  unfold admits, onJoin. destruct (rooms s !! normalizeCode mc) as [room|]; [|by eexists].
  destruct (availableSlot room); [|by eexists].
  intros H. apply bool_decide_eq_false in H. by destruct H.
Qed.

(** The step from one state to the next when a connection that no room
    stores is given a code and a symbol and one room record is replaced. *)
Lemma slotsAgree_seat (s : Server) (c0 : string) (r0 : Room) (sym0 : Symbol) (ws : nat) :
  slotsAgree s → stored s ws = false →
  agrees (alter (bind c0 sym0) ws (conns s)) c0 r0 →
  ∀ c r, <[c0 := r0]> (rooms s) !! c = Some r →
         agrees (alter (bind c0 sym0) ws (conns s)) c r.
Proof.
  intros Hinv Hfree H0 c r Hr. destruct (decide (c0 = c)) as [->|Hne].
  - rewrite lookup_insert_eq in Hr. by injection Hr as <-.
  - rewrite lookup_insert_ne in Hr by done.
    intros sym ws' Hslot. destruct (Hinv c r Hr sym ws' Hslot) as (w & Hw & Hc & Hs).
    assert (ws ≠ ws') by (intros ->; by apply (stored_false s ws' Hfree c r sym)).
    exists w. by rewrite list_lookup_alter_ne.
Qed.

(** The step from one state to the next when one room record is replaced. *)
Lemma slotsAgree_insert (s : Server) (c0 : string) (r0 : Room) (cs' : list Conn)
      (rs' : gmap string Room) :
  slotsAgree s → rs' = <[c0 := r0]> (rooms s) →
  agrees cs' c0 r0 → keepsOthers c0 (conns s) cs' →
  ∀ c r, rs' !! c = Some r → agrees cs' c r.
Proof.
  intros Hinv -> H0 Hkeep c r Hr. destruct (decide (c0 = c)) as [->|Hne].
  - rewrite lookup_insert_eq in Hr. by injection Hr as <-.
  - rewrite lookup_insert_ne in Hr by done.
    intros sym ws Hslot. destruct (Hinv c r Hr sym ws Hslot) as (w & Hw & Hc & Hs).
    destruct (Hkeep ws w c ltac:(congruence) Hw Hc) as (w' & Hw' & Hc' & Hs').
    exists w'. split; [done|]. split; [done|]. congruence.
Qed.

Lemma keepsOthers_refl (c0 : string) (cs : list Conn) : keepsOthers c0 cs cs.
Proof. intros ws w c _ Hw Hc. eauto. Qed.

(** Binding a connection that the room does not store. *)
Lemma agrees_bind_other (cs : list Conn) (c c0 : string) (sym0 : Symbol) (ws : nat)
      (r : Room) :
  (∀ sym, slot (players r) sym ≠ Some ws) →
  agrees cs c r → agrees (alter (bind c0 sym0) ws cs) c r.
Proof.
  intros Hfree Hag sym ws' Hslot.
  destruct (Hag sym ws' Hslot) as (w' & Hw' & Hc' & Hs').
  assert (ws ≠ ws') by (intros ->; by apply (Hfree sym)).
  exists w'. by rewrite list_lookup_alter_ne.
Qed.

Lemma reshuffle_agrees (swap : bool) (room : Room) (cs : list Conn) (c : string) :
  agrees cs c room →
  agrees (snd (reshufflePlayers swap room cs)) c (fst (reshufflePlayers swap room cs))
  ∧ keepsOthers c cs (snd (reshufflePlayers swap room cs)).
Proof.
  intros Hag.
  assert (HX : ∀ x, slotX (players room) = Some x →
                    ∃ w, cs !! x = Some w ∧ roomCode w = Some c ∧ symbol w = Some X)
    by (intros x Hx; by apply (Hag X)).
  assert (HO : ∀ o, slotO (players room) = Some o →
                    ∃ w, cs !! o = Some w ∧ roomCode w = Some c ∧ symbol w = Some O)
    by (intros o Ho; by apply (Hag O)).
  unfold reshufflePlayers.
  destruct (slotX (players room)) as [x|], (slotO (players room)) as [o|];
    try (destruct (HX x eq_refl) as (wx & Hwx & Hcx & Hsx));
    try (destruct (HO o eq_refl) as (wo & Hwo & Hco & Hso));
    try (assert (x ≠ o) by congruence);
    destruct swap; simpl; split;
    try (intros [|] ws' [= <-];
         rewrite ?list_lookup_alter_eq, ?(list_lookup_alter_ne _ cs),
           ?list_lookup_alter_eq by done;
         rewrite ?Hwx, ?Hwo; simpl; eexists; split; [reflexivity|]; by simpl);
    try (intros [|] ws' [=]);
    try (intros ws' w' c' Hne Hw' Hc';
         exists w';
         rewrite ?list_lookup_alter_ne by congruence; done).
  all: simplify_eq;
    repeat (rewrite list_lookup_alter_eq || rewrite list_lookup_alter_ne by congruence);
    rewrite ?Hwx, ?Hwo; simpl; eexists; (split; [reflexivity|]); by simpl.
Qed.

Lemma slotsAgree_ext (s s' : Server) :
  rooms s' = rooms s → conns s' = conns s → slotsAgree s → slotsAgree s'.
Proof. unfold slotsAgree. intros -> ->. done. Qed.

Lemma agrees_players (cs : list Conn) (c : string) (r r' : Room) :
  players r' = players r → agrees cs c r → agrees cs c r'.
Proof. unfold agrees. intros ->. done. Qed.

Lemma broadcastRoom_slotsAgree (room : Room) (s : Server) :
  slotsAgree s → slotsAgree (broadcastRoom room s).
Proof.
  apply slotsAgree_ext; [apply forEachPlayer_rooms | apply forEachPlayer_conns].
Qed.

Lemma send_slotsAgree (ws : nat) (m : ServerMsg) (s : Server) :
  slotsAgree s → slotsAgree (send ws m s).
Proof. apply slotsAgree_ext; [apply send_rooms | apply send_conns]. Qed.

Lemma onCreate_slotsAgree (ws : nat) (env : Env) (s s' : Server) (w : Conn) :
  slotsAgree s → conns s !! ws = Some w → stored s ws = false →
  onCreate ws env s = Some s' → slotsAgree s'.
Proof.
  intros Hinv Hw Hfree. unfold onCreate.
  destruct (makeCode (codeDraws env) (rooms s)) as [c0|]; [|done].
  intros [= <-]. do 2 apply send_slotsAgree.
  intros c r Hr. simpl in Hr |- *.
  eapply (slotsAgree_seat s c0); [done | done | | exact Hr].
  intros sym ws'. simpl. destruct (coin env), sym; simpl; intros [= <-];
    rewrite list_lookup_alter_eq, Hw; simpl; eexists; (split; [reflexivity|]); done.
Qed.

Lemma onJoin_slotsAgree (ws : nat) (mc : JsCode) (env : Env) (s : Server)
      (w : Conn) :
  slotsAgree s → conns s !! ws = Some w → stored s ws = false →
  slotsAgree (onJoin ws mc env s).
Proof.
  intros Hinv Hw Hnone. unfold onJoin.
  destruct (rooms s !! normalizeCode mc) as [room|] eqn:Hroom;
    [|by apply send_slotsAgree].
  destruct (availableSlot room) as [a|] eqn:Hav; [|by apply send_slotsAgree].
  assert (Hfree : slot (players room) a = None).
  { unfold availableSlot in Hav. apply find_some in Hav as [_ Hav].
    by apply bool_decide_eq_true in Hav. }
  assert (Hag : ∀ room1, players room1 = players room →
            agrees (alter (bind (normalizeCode mc) a) ws (conns s)) (normalizeCode mc)
                   (setLastActivity (now env)
                      (setPlayers (setSlot a (Some ws) (players room1)) room1))).
  { intros room1 Hp sym ws'. simpl. rewrite Hp. destruct (decide (sym = a)) as [->|Hne].
    - rewrite slot_setSlot_eq. intros [= <-].
      rewrite list_lookup_alter_eq, Hw. simpl. eexists. split; [reflexivity|]. done.
    - assert (sym = other a) as -> by (destruct sym, a; done).
      rewrite slot_setSlot_other. intros Hslot.
      apply (agrees_bind_other (conns s) _ _ a ws room); [|by apply Hinv|done].
      intros sym0. by apply (stored_false s ws Hnone (normalizeCode mc)). }
  destruct (slot (disconnectTimers room) a) as [t|];
    apply broadcastRoom_slotsAgree, send_slotsAgree; intros c r Hr; simpl in Hr |- *;
    (eapply (slotsAgree_seat s (normalizeCode mc)); [exact Hinv | exact Hnone | | exact Hr]).
  - by apply (Hag (setDisconnectTimers (setSlot a None (disconnectTimers room)) room)).
  - by apply (Hag room).
Qed.

Lemma applyMove_players (room : Room) (q : Q) (sym : Symbol) (t : Z) :
  players (applyMove room q sym t) = players room
  ∧ disconnectTimers (applyMove room q sym t) = disconnectTimers room
  ∧ code (applyMove room q sym t) = code room.
Proof.
  unfold applyMove. destruct (checkWinner _) as [[w line]|]; [|case_bool_decide]; done.
Qed.

Lemma onMove_slotsAgree (ws : nat) (index : JsValue) (env : Env) (s : Server) :
  slotsAgree s → slotsAgree (onMove ws index env s).
Proof.
  intros Hinv. unfold onMove.
  destruct (roomOf s ws) as [[c room]|] eqn:Hroom; [|done].
  apply roomOf_Some in Hroom as (w & _ & _ & Hr).
  destruct (symbolOf s ws) as [sym|]; [|by apply send_slotsAgree].
  case_bool_decide; [by apply send_slotsAgree|].
  destruct index as [q| |]; try by apply send_slotsAgree.
  destruct (refused room q); [by apply send_slotsAgree|].
  apply broadcastRoom_slotsAgree. intros c' r' Hr'. simpl in Hr' |- *.
  eapply (slotsAgree_insert s c); [done | reflexivity | | apply keepsOthers_refl | exact Hr'].
  eapply agrees_players; [apply applyMove_players | by apply Hinv].
Qed.

Lemma restart_slotsAgree (keep : Scores → Scores) (ws : nat) (env : Env) (s : Server) :
  slotsAgree s → slotsAgree (restart keep ws env s).
Proof.
  intros Hinv. unfold restart.
  destruct (roomOf s ws) as [[c room]|] eqn:Hroom; [|done].
  apply roomOf_Some in Hroom as (w & _ & _ & Hr).
  set (cleared := clearedRoom keep room).
  assert (Hcl : agrees (conns s) c cleared)
    by exact (agrees_players (conns s) c room cleared eq_refl (Hinv c room Hr)).
  destruct (reshuffle_agrees (coin env) cleared (conns s) c Hcl) as [Hag Hkeep].
  destruct (reshufflePlayers (coin env) cleared (conns s)) as [room1 cs] eqn:E.
  simpl in Hag, Hkeep.
  apply broadcastRoom_slotsAgree.
  eapply slotsAgree_ext; [apply forEachPlayer_rooms | apply forEachPlayer_conns|].
  intros c' r' Hr'. simpl in Hr' |- *.
  eapply (slotsAgree_insert s c); [done | reflexivity | | exact Hkeep | exact Hr'].
  exact (agrees_players cs c room1 (setLastActivity (now env) room1) eq_refl Hag).
Qed.

Lemma closed_slotsAgree (ws : nat) (s : Server) :
  slotsAgree s → slotsAgree (setConns (alter (setReadyState 3) ws (conns s)) s).
Proof.
  intros Hinv c r Hr sym ws' Hslot. simpl in Hr |- *.
  destruct (Hinv c r Hr sym ws' Hslot) as (w & Hw & Hc & Hs).
  destruct (decide (ws = ws')) as [->|Hne].
  - rewrite list_lookup_alter_eq, Hw. simpl. eexists. split; [reflexivity|]. done.
  - exists w. by rewrite list_lookup_alter_ne.
Qed.

Lemma onClose_slotsAgree (ws : nat) (s : Server) :
  slotsAgree s → slotsAgree (onClose ws s).
Proof.
  intros Hinv. unfold onClose.
  destruct (roomOf s ws) as [[c room]|] eqn:Hroom; [|done].
  apply roomOf_Some in Hroom as (w & _ & _ & Hr).
  destruct (symbolOf s ws) as [sym|]; [|done].
  intros c' r' Hr'. simpl in Hr' |- *.
  assert (Hcs : ∀ o, conns (match o with
                            | Some oppWs => send oppWs (OpponentLeft 60) s
                            | None => s
                            end) = conns s)
    by (intros [o|]; [apply send_conns | done]).
  assert (Hrs : ∀ o, rooms (match o with
                            | Some oppWs => send oppWs (OpponentLeft 60) s
                            | None => s
                            end) = rooms s)
    by (intros [o|]; [apply send_rooms | done]).
  rewrite Hcs. rewrite Hrs in Hr'.
  eapply (slotsAgree_insert s c); [done | reflexivity | | apply keepsOthers_refl | exact Hr'].
  intros sym' ws'. simpl. destruct (decide (sym' = sym)) as [->|Hne].
  - by rewrite slot_setSlot_eq.
  - assert (sym' = other sym) as -> by (destruct sym', sym; done).
    rewrite slot_setSlot_other. by apply (Hinv c room Hr).
Qed.

Lemma onTimeout_slotsAgree (t : nat) (s : Server) :
  slotsAgree s → slotsAgree (onTimeout t s).
Proof.
  intros Hinv. unfold onTimeout. destruct (timers s !! t) as [tm|]; [|done].
  destruct (timerPending tm); [|done]. unfold timerCallback.
  rewrite roomOf_setTimers. destruct (roomOf s (timerWs tm)) as [[c r]|]; [|done].
  case_bool_decide; [|done].
  intros c' r' Hr'. simpl in Hr' |- *.
  destruct (slot (players r) (other (timerSym tm))) as [o|];
    rewrite ?send_rooms, ?send_conns in *; simpl in *;
    apply lookup_delete_Some in Hr' as [_ Hr']; by apply Hinv.
Qed.

Lemma sweep_slotsAgree (t : Z) (s : Server) : slotsAgree s → slotsAgree (sweep t s).
Proof.
  intros Hinv c r Hr. apply sweep_lookup in Hr as [Hr _]. by apply Hinv.
Qed.

Lemma step_slotsAgree (s s' : Server) (e : Event) :
  slotsAgree s → seatsStored s e = false → step s e = Some s' → slotsAgree s'.
Proof.
  intros Hinv Hu. destruct e as [|ws msg env|ws|t|t]; simpl.
  - intros [= <-] c r Hr sym ws Hslot. simpl in Hr |- *.
    destruct (Hinv c r Hr sym ws Hslot) as (w & Hw & Hc & Hs).
    exists w. split; [|done]. by apply lookup_app_l_Some.
  - destruct (isOpen s ws) eqn:Hopen; [|by intros [= <-]].
    destruct (isOpen_lookup s ws Hopen) as (w & Hw & _).
    destruct msg as [|mc|index| | | | |]; simpl; simpl in Hu; rewrite ?Hopen in Hu;
      simpl in Hu; try discriminate.
    + by apply (onCreate_slotsAgree ws env s s' w).
    + intros [= <-]. destruct (admits s mc) eqn:Had; simpl in Hu.
      * by apply (onJoin_slotsAgree ws mc env s w).
      * destruct (admits_false s ws mc env Had) as [m ->]. by apply send_slotsAgree.
    + intros [= <-]. by apply onMove_slotsAgree.
    + intros [= <-]. by apply restart_slotsAgree.
    + intros [= <-]. by apply restart_slotsAgree.
    + by intros [= <-].
  - destruct (isOpen s ws); [|by intros [= <-]].
    intros [= <-]. by apply onClose_slotsAgree, closed_slotsAgree.
  - intros [= <-]. by apply onTimeout_slotsAgree.
  - intros [= <-]. by apply sweep_slotsAgree.
Qed.

Lemma slotsAgree_initial : slotsAgree initial.
Proof. intros c r H. simpl in H. by rewrite lookup_empty in H. Qed.

(** A create, or a join that finds a free slot, from a connection that a
    live room stores leaves that connection stored in two slots. *)
Lemma seatsStored_two_slots (s s' : Server) (e : Event) :
  seatsStored s e = true → step s e = Some s' →
  ∃ ws c1 sym1 c2 sym2,
    holds s' ws c1 sym1 ∧ holds s' ws c2 sym2 ∧ ¬ (c1 = c2 ∧ sym1 = sym2).
Proof.
  destruct e as [|ws msg env|ws|t|t]; simpl; try done.
  destruct msg as [|mc|index| | | | |]; try done.
  - intros H. apply andb_true_iff in H as [Hopen Hst]. rewrite Hopen. simpl.
    apply stored_true in Hst as (c1 & sym1 & r1 & Hr1 & Hslot1).
    unfold onCreate.
    destruct (makeCode (codeDraws env) (rooms s)) as [c|] eqn:E; [|done].
    intros [= <-]. pose proof (makeCode_fresh _ _ _ E) as Hfresh.
    assert (Hne : c ≠ c1) by congruence.
    exists ws, c1, sym1, c, (if coin env then X else O).
    split; [|split].
    + exists r1. rewrite !send_rooms. simpl. by rewrite lookup_insert_ne.
    + eexists. rewrite !send_rooms. simpl. rewrite lookup_insert_eq.
      split; [reflexivity|]. simpl. apply slot_setSlot_eq.
    + intros [? _]. congruence.
  - intros H. apply andb_true_iff in H as [H Hst].
    apply andb_true_iff in H as [Hopen Had]. rewrite Hopen. simpl. intros [= <-].
    apply stored_true in Hst as (c1 & sym1 & r1 & Hr1 & Hslot1).
    unfold admits in Had.
    destruct (rooms s !! normalizeCode mc) as [room|] eqn:Hroom; [|done].
    destruct (availableSlot room) as [a|] eqn:Hav;
      [|apply bool_decide_eq_true in Had; by destruct Had].
    destruct (isOpen_lookup s ws Hopen) as (w & Hw & _).
    destruct (onJoin_seated s ws mc env room a w Hw Hroom Hav)
      as (room' & Hr' & Ha & Hoth & _).
    pose proof (availableSlot_free room a Hav) as Hfree.
    destruct (decide (c1 = normalizeCode mc)) as [->|Hne].
    + assert (r1 = room) as -> by congruence.
      assert (sym1 = other a) as ->
          by (destruct sym1, a; try done; rewrite Hfree in Hslot1; done).
      exists ws, (normalizeCode mc), (other a), (normalizeCode mc), a.
      split; [|split].
      * exists room'. split; [done|]. by rewrite Hoth.
      * by exists room'.
      * intros [_ ?]. by destruct a.
    + exists ws, c1, sym1, (normalizeCode mc), a. split; [|split].
      * exists r1. split; [|done].
        destruct (onJoin_rooms ws mc env s) as [->|(r & r0 & _ & _ & ->)]; [done|].
        by rewrite lookup_insert_ne.
      * by exists room'.
      * intros [? _]. done.
Qed.

(** C9, as amended. As long as no create, and no join that finds a free
    slot, comes from a connection that is at that moment stored in a slot of
    a live room, then after every sequence of connections, creates, joins,
    moves, resets, news, disconnects, timers and sweeps each connection
    stored in a slot of a live room carries the code of that room and the
    symbol of that slot; so a connection is stored in at most one slot of
    one room, and a slot holds at most one connection. The condition cannot
    be dropped for any event: a create or a seating join from a stored
    connection always leaves it stored in two slots. *)
Theorem unseated_senders_hold_one_slot
        (es : list Event) (s : Server)
        (Hrun : runUnseated initial es = Some s) :
  (∀ ws c sym, holds s ws c sym →
               ∃ w, conns s !! ws = Some w ∧ roomCode w = Some c ∧ symbol w = Some sym)
  ∧ (∀ ws c1 sym1 c2 sym2,
        holds s ws c1 sym1 → holds s ws c2 sym2 → c1 = c2 ∧ sym1 = sym2)
  ∧ (∀ ws1 ws2 c sym, holds s ws1 c sym → holds s ws2 c sym → ws1 = ws2)
  ∧ (∀ e s', seatsStored s e = true → step s e = Some s' →
             ∃ ws c1 sym1 c2 sym2,
               holds s' ws c1 sym1 ∧ holds s' ws c2 sym2 ∧ ¬ (c1 = c2 ∧ sym1 = sym2)).
Proof.
  assert (Hinv : slotsAgree s).
  { eapply (runUnseated_preserves slotsAgree); [|apply slotsAgree_initial | exact Hrun].
    intros s0 e s1 H0 Hu Hstep. by eapply step_slotsAgree. }
  assert (H1 : ∀ ws c sym, holds s ws c sym →
               ∃ w, conns s !! ws = Some w ∧ roomCode w = Some c ∧ symbol w = Some sym).
  { intros ws c sym (r & Hr & Hslot). by apply (Hinv c r Hr sym ws). }
  split; [exact H1|]. split; [|split].
  - intros ws c1 sym1 c2 sym2 Ha Hb.
    destruct (H1 _ _ _ Ha) as (w1 & Hw1 & Hc1 & Hs1).
    destruct (H1 _ _ _ Hb) as (w2 & Hw2 & Hc2 & Hs2).
    split; congruence.
  - intros ws1 ws2 c sym (r1 & Hr1 & Hslot1) (r2 & Hr2 & Hslot2). congruence.
  - intros e s'. apply seatsStored_two_slots.
Qed.

(** C9, as stated, fails: a connection that already has a room and sends
    create again is stored in slot X of both rooms. *)
Lemma second_create_holds_two_rooms :
  run initial secondCreate = Some (stateAfter secondCreate)
  ∧ runUnseated initial secondCreate = None
  ∧ holds (stateAfter secondCreate) 0 "AAAA" X
  ∧ holds (stateAfter secondCreate) 0 "AAAB" X
  ∧ ¬ (∀ ws c1 sym1 c2 sym2,
          holds (stateAfter secondCreate) ws c1 sym1 →
          holds (stateAfter secondCreate) ws c2 sym2 → c1 = c2 ∧ sym1 = sym2).
Proof.
  assert (Ha : holds (stateAfter secondCreate) 0 "AAAA" X).
  { exists (roomAt (stateAfter secondCreate) "AAAA"). by_running. }
  assert (Hb : holds (stateAfter secondCreate) 0 "AAAB" X).
  { exists (roomAt (stateAfter secondCreate) "AAAB"). by_running. }
  split; [by_running|]. split; [by_running|]. split; [exact Ha|]. split; [exact Hb|].
  intros H. destruct (H 0 "AAAA" X "AAAB" X Ha Hb) as [Hc _]. discriminate Hc.
Qed.

(** ** Open connections and the slots that store them *)

Lemma seatedAt_insert (rs : gmap string Room) (cs cs' : list Conn) (c0 : string) (r0 : Room) :
  seatedAt rs cs → seatedIn cs' c0 r0 → reflectsOthers c0 cs cs' →
  seatedAt (<[c0 := r0]> rs) cs'.
Proof.
  intros Hinv H0 Hrefl ws w' c r Hw' Hopen Hc Hr.
  destruct (decide (c = c0)) as [->|Hne].
  - rewrite lookup_insert_eq in Hr. injection Hr as <-. by apply (H0 ws w').
  - rewrite lookup_insert_ne in Hr by done.
    destruct (Hrefl ws w' c Hne Hw' Hopen Hc) as (w & Hw & Hopen' & Hc' & Hs).
    rewrite <- Hs. by apply (Hinv ws w c r).
Qed.

Lemma reflectsOthers_refl (c0 : string) (cs : list Conn) : reflectsOthers c0 cs cs.
Proof. intros ws w c _ Hw Hopen Hc. by exists w. Qed.

Lemma reflectsOthers_bind (c0 : string) (sym : Symbol) (ws : nat) (cs : list Conn) :
  reflectsOthers c0 cs (alter (bind c0 sym) ws cs).
Proof.
  intros ws' w' c Hne Hw' Hopen Hc. destruct (decide (ws = ws')) as [->|Hws].
  - rewrite list_lookup_alter_eq in Hw'. destruct (cs !! ws') as [w|]; [|done].
    simpl in Hw'. injection Hw' as <-. simpl in Hc. congruence.
  - rewrite list_lookup_alter_ne in Hw' by done. by exists w'.
Qed.

Lemma seatedIn_seated (s : Server) (c : string) (r : Room) :
  seated s → rooms s !! c = Some r → seatedIn (conns s) c r.
Proof. intros Hinv Hr ws w Hw Hopen Hc. by apply (Hinv ws w c r). Qed.

Lemma seated_ext (s s' : Server) :
  rooms s' = rooms s → conns s' = conns s → seated s → seated s'.
Proof. unfold seated. intros -> ->. done. Qed.

Lemma send_seated (ws : nat) (m : ServerMsg) (s : Server) : seated s → seated (send ws m s).
Proof. apply seated_ext; [apply send_rooms | apply send_conns]. Qed.

Lemma broadcastRoom_seated (room : Room) (s : Server) :
  seated s → seated (broadcastRoom room s).
Proof. apply seated_ext; [apply forEachPlayer_rooms | apply forEachPlayer_conns]. Qed.

Lemma freshDraw_create (ws : nat) (env : Env) (s : Server) (c : string) :
  freshDraw s (EMessage ws MsgCreate env) = true →
  makeCode (codeDraws env) (rooms s) = Some c →
  ∀ ws' w', ws' ≠ ws → conns s !! ws' = Some w' → readyState w' = 1 →
            roomCode w' ≠ Some c.
Proof.
  simpl. intros Hf E ws' w' Hne Hw' Hopen. rewrite E in Hf.
  rewrite forallb_forall in Hf.
  assert (Hin : In (ws', w') (imap pair (conns s))).
  { apply list_elem_of_In. by apply (elem_of_lookup_imap_2 pair). }
  specialize (Hf (ws', w') Hin). simpl in Hf.
  apply orb_true_iff in Hf as [Hf|Hf].
  - apply orb_true_iff in Hf as [Hf|Hf].
    + apply Nat.eqb_eq in Hf. done.
    + apply negb_true_iff, bool_decide_eq_false in Hf. done.
  - by apply negb_true_iff, bool_decide_eq_false in Hf.
Qed.

Lemma onCreate_keeps_seated (ws : nat) (env : Env) (s s' : Server) :
  seated s → freshDraw s (EMessage ws MsgCreate env) = true →
  onCreate ws env s = Some s' → seated s'.
Proof.
  intros Hinv Hfresh. unfold onCreate.
  destruct (makeCode (codeDraws env) (rooms s)) as [c0|] eqn:E; [|done].
  intros [= <-]. do 2 apply send_seated. unfold seated. simpl.
  apply (seatedAt_insert (rooms s) (conns s)); [done | | apply reflectsOthers_bind].
  intros ws' w' Hw' Hopen Hc. destruct (decide (ws = ws')) as [->|Hws].
  - rewrite list_lookup_alter_eq in Hw'. destruct (conns s !! ws') as [w|]; [|done].
    simpl in Hw'. injection Hw' as <-. simpl.
    exists (if coin env then X else O). split; [done|]. by destruct (coin env).
  - rewrite list_lookup_alter_ne in Hw' by done.
    destruct (freshDraw_create ws env s c0 Hfresh E ws' w'); done.
Qed.

Lemma onJoin_keeps_seated (ws : nat) (mc : JsCode) (env : Env) (s : Server) :
  seated s → seated (onJoin ws mc env s).
Proof.
  intros Hinv. unfold onJoin.
  destruct (rooms s !! normalizeCode mc) as [room|] eqn:Hroom; [|by apply send_seated].
  destruct (availableSlot room) as [a|] eqn:Hav; [|by apply send_seated].
  pose proof (availableSlot_free room a Hav) as Hfree.
  assert (Hin : ∀ room1, players room1 = players room →
            seatedIn (alter (bind (normalizeCode mc) a) ws (conns s)) (normalizeCode mc)
                     (setLastActivity (now env)
                        (setPlayers (setSlot a (Some ws) (players room1)) room1))).
  { intros room1 Hp ws' w' Hw' Hopen Hc. simpl. rewrite Hp.
    destruct (decide (ws = ws')) as [->|Hws].
    - rewrite list_lookup_alter_eq in Hw'. destruct (conns s !! ws') as [w|]; [|done].
      simpl in Hw'. injection Hw' as <-. exists a. by rewrite slot_setSlot_eq.
    - rewrite list_lookup_alter_ne in Hw' by done.
      destruct (Hinv ws' w' _ room Hw' Hopen Hc Hroom) as (sym & Hs & Hslot).
      exists sym. split; [done|].
      assert (sym = other a) as ->
          by (destruct sym, a; try done; rewrite Hfree in Hslot; done).
      by rewrite slot_setSlot_other. }
  destruct (slot (disconnectTimers room) a) as [t|];
    apply broadcastRoom_seated, send_seated; unfold seated; simpl;
    (apply (seatedAt_insert (rooms s) (conns s)); [done | | apply reflectsOthers_bind]).
  - by apply (Hin (setDisconnectTimers (setSlot a None (disconnectTimers room)) room)).
  - by apply (Hin room).
Qed.

Lemma onMove_keeps_seated (ws : nat) (index : JsValue) (env : Env) (s : Server) :
  seated s → seated (onMove ws index env s).
Proof.
  intros Hinv. unfold onMove.
  destruct (roomOf s ws) as [[c room]|] eqn:Hroom; [|done].
  apply roomOf_Some in Hroom as (w & _ & _ & Hr).
  destruct (symbolOf s ws) as [sym|]; [|by apply send_seated].
  case_bool_decide; [by apply send_seated|].
  destruct index as [q| |]; try by apply send_seated.
  destruct (refused room q); [by apply send_seated|].
  apply broadcastRoom_seated. unfold seated. simpl.
  apply (seatedAt_insert (rooms s) (conns s)); [done | | apply reflectsOthers_refl].
  intros ws' w' Hw' Hopen Hc.
  destruct (applyMove_players room q sym (now env)) as [-> _].
  by apply (Hinv ws' w' c room).
Qed.

(** Case analysis on a lookup in a list changed by [alter]. *)
Ltac split_alter H :=
  repeat match type of H with
         | context [alter _ ?i _ !! ?j] =>
             destruct (decide (i = j));
             [subst; rewrite list_lookup_alter_eq in H
             |rewrite list_lookup_alter_ne in H by done]
         end.

Lemma reshuffle_seated (swap : bool) (room : Room) (cs : list Conn) (c : string) :
  agrees cs c room → seatedIn cs c room →
  seatedIn (snd (reshufflePlayers swap room cs)) c (fst (reshufflePlayers swap room cs))
  ∧ reflectsOthers c cs (snd (reshufflePlayers swap room cs)).
Proof.
  intros Hag Hseat.
  assert (HX : ∀ x, slotX (players room) = Some x →
                    ∃ w, cs !! x = Some w ∧ roomCode w = Some c ∧ symbol w = Some X)
    by (intros x Hx; by apply (Hag X)).
  assert (HO : ∀ o, slotO (players room) = Some o →
                    ∃ w, cs !! o = Some w ∧ roomCode w = Some c ∧ symbol w = Some O)
    by (intros o Ho; by apply (Hag O)).
  assert (Hs : ∀ ws w, cs !! ws = Some w → readyState w = 1 → roomCode w = Some c →
                       slotX (players room) = Some ws ∨ slotO (players room) = Some ws).
  { intros ws w Hw Ho Hc. destruct (Hseat ws w Hw Ho Hc) as ([|] & _ & H); [by left | by right]. }
  unfold reshufflePlayers.
  destruct (slotX (players room)) as [x|], (slotO (players room)) as [o|];
    try (destruct (HX x eq_refl) as (wx & Hwx & Hcx & Hsx));
    try (destruct (HO o eq_refl) as (wo & Hwo & Hco & Hso));
    try (assert (x ≠ o) by congruence);
    destruct swap; simpl;
    (split; [intros ws' w' Hw' Hopen Hc | intros ws' w' c' Hne Hw' Hopen Hc]);
    split_alter Hw'; try congruence;
    rewrite ?Hwx, ?Hwo in Hw'; simpl in Hw'; simplify_eq; simpl in *;
    try congruence;
    try (eexists; split; reflexivity);
    try (by destruct (Hs ws' w' Hw' Hopen Hc) as [?|?]; simplify_eq);
    try (by exists w').
Qed.

Lemma restart_keeps_seated (keep : Scores → Scores) (ws : nat) (env : Env) (s : Server) :
  slotsAgree s → seated s → seated (restart keep ws env s).
Proof.
  intros Hag Hinv. unfold restart.
  destruct (roomOf s ws) as [[c room]|] eqn:Hroom; [|done].
  apply roomOf_Some in Hroom as (w & _ & _ & Hr).
  set (cleared := clearedRoom keep room).
  assert (Hcl : agrees (conns s) c cleared)
    by exact (agrees_players (conns s) c room cleared eq_refl (Hag c room Hr)).
  assert (Hcs : seatedIn (conns s) c cleared)
    by exact (seatedIn_seated s c room Hinv Hr).
  destruct (reshuffle_seated (coin env) cleared (conns s) c Hcl Hcs) as [Hin Hrefl].
  destruct (reshufflePlayers (coin env) cleared (conns s)) as [room1 cs] eqn:E.
  simpl in Hin, Hrefl.
  apply broadcastRoom_seated.
  eapply seated_ext; [apply forEachPlayer_rooms | apply forEachPlayer_conns|].
  unfold seated. simpl.
  by apply (seatedAt_insert (rooms s) (conns s)).
Qed.

Lemma closed_seated (ws : nat) (s : Server) :
  seated s → seated (setConns (alter (setReadyState 3) ws (conns s)) s).
Proof.
  intros Hinv ws' w' c r Hw' Hopen Hc Hr. simpl in Hw', Hr.
  destruct (decide (ws = ws')) as [->|Hne].
  - rewrite list_lookup_alter_eq in Hw'. destruct (conns s !! ws') as [w|]; [|done].
    simpl in Hw'. injection Hw' as <-. simpl in Hopen. done.
  - rewrite list_lookup_alter_ne in Hw' by done. by apply (Hinv ws' w' c r).
Qed.

(** The close handler, run for a connection that is already marked closed
    and was stored in its slot. *)
Lemma onClose_keeps_seated (ws : nat) (s : Server) :
  (∀ c room sym, roomOf s ws = Some (c, room) → symbolOf s ws = Some sym →
                 slot (players room) sym = Some ws) →
  (∀ w, conns s !! ws = Some w → readyState w ≠ 1) →
  seated s → seated (onClose ws s).
Proof.
  intros Hself Hclosed Hinv. unfold onClose.
  destruct (roomOf s ws) as [[c room]|] eqn:Hroom; [|done].
  destruct (symbolOf s ws) as [sym|] eqn:Hsym; [|done].
  specialize (Hself c room sym eq_refl eq_refl).
  apply roomOf_Some in Hroom as (w & Hw & _ & Hr).
  assert (Hcs : ∀ o, conns (match o with
                            | Some oppWs => send oppWs (OpponentLeft 60) s
                            | None => s
                            end) = conns s)
    by (intros [o|]; [apply send_conns | done]).
  assert (Hrs : ∀ o, rooms (match o with
                            | Some oppWs => send oppWs (OpponentLeft 60) s
                            | None => s
                            end) = rooms s)
    by (intros [o|]; [apply send_rooms | done]).
  unfold seated. simpl. rewrite Hcs, Hrs.
  apply (seatedAt_insert (rooms s) (conns s)); [done | | apply reflectsOthers_refl].
  intros ws' w' Hw' Hopen Hc. simpl.
  destruct (Hinv ws' w' c room Hw' Hopen Hc Hr) as (sym' & Hs' & Hslot').
  exists sym'. split; [done|].
  destruct (decide (sym' = sym)) as [->|Hne].
  - assert (ws' = ws) as -> by congruence.
    destruct (Hclosed w' Hw' Hopen).
  - assert (sym' = other sym) as -> by (destruct sym', sym; done).
    by rewrite slot_setSlot_other.
Qed.

Lemma onTimeout_keeps_seated (t : nat) (s : Server) : seated s → seated (onTimeout t s).
Proof.
  intros Hinv. unfold onTimeout. destruct (timers s !! t) as [tm|]; [|done].
  destruct (timerPending tm); [|done]. unfold timerCallback.
  rewrite roomOf_setTimers. destruct (roomOf s (timerWs tm)) as [[c r]|]; [|done].
  case_bool_decide; [|done].
  intros ws' w' c' r' Hw' Hopen Hc Hr'. simpl in Hw', Hr'.
  destruct (slot (players r) (other (timerSym tm))) as [o|];
    rewrite ?send_rooms, ?send_conns in *; simpl in *;
    apply lookup_delete_Some in Hr' as [_ Hr']; by apply (Hinv ws' w' c' r').
Qed.

Lemma sweep_keeps_seated (t : Z) (s : Server) : seated s → seated (sweep t s).
Proof.
  intros Hinv ws w c r Hw Hopen Hc Hr. apply sweep_lookup in Hr as [Hr _].
  by apply (Hinv ws w c r).
Qed.

(** The two invariants go through every event of a run in protocol. *)
Lemma step_keeps_seats (s s' : Server) (e : Event) :
  slotsAgree s ∧ seated s → negb (seatsStored s e) && freshDraw s e = true →
  step s e = Some s' → slotsAgree s' ∧ seated s'.
Proof.
  intros [Hag Hinv] Hp Hstep. apply andb_true_iff in Hp as [Hu Hf].
  apply negb_true_iff in Hu.
  split; [by eapply step_slotsAgree|].
  destruct e as [|ws msg env|ws|t|t]; simpl in Hstep.
  - injection Hstep as <-. intros ws w c r Hw Hopen Hc Hr. simpl in Hw, Hr.
    apply lookup_app_Some in Hw as [Hw | [_ Hw]]; [by apply (Hinv ws w c r)|].
    apply list_lookup_singleton_Some in Hw as [_ <-]. done.
  - destruct (isOpen s ws) eqn:Hopen; [|by injection Hstep as <-].
    destruct msg as [|mc|index| | | | |]; simpl in Hstep; try discriminate.
    + by apply (onCreate_keeps_seated ws env s s').
    + injection Hstep as <-. by apply onJoin_keeps_seated.
    + injection Hstep as <-. by apply onMove_keeps_seated.
    + injection Hstep as <-. by apply restart_keeps_seated.
    + injection Hstep as <-. by apply restart_keeps_seated.
    + by injection Hstep as <-.
  - destruct (isOpen s ws) eqn:Hopen; [|by injection Hstep as <-].
    injection Hstep as <-.
    destruct (isOpen_lookup s ws Hopen) as (w & Hw & Hready).
    apply onClose_keeps_seated; [| |by apply closed_seated].
    + intros c room sym. rewrite roomOf_after_close, symbolOf_after_close.
      intros Hroom Hsym. apply roomOf_Some in Hroom as (w0 & Hw0 & Hc0 & Hr).
      assert (w0 = w) as -> by congruence.
      destruct (Hinv ws w c room Hw Hready Hc0 Hr) as (sym0 & Hs0 & Hslot).
      rewrite (symbolOf_lookup s ws w Hw) in Hsym. congruence.
    + intros w0. simpl. rewrite list_lookup_alter_eq, Hw. simpl.
      intros [= <-]. simpl. done.
  - injection Hstep as <-. by apply onTimeout_keeps_seated.
  - injection Hstep as <-. by apply sweep_keeps_seated.
Qed.

Lemma runInProtocol_seats (es : list Event) (s0 s : Server) :
  slotsAgree s0 ∧ seated s0 → runInProtocol s0 es = Some s → slotsAgree s ∧ seated s.
Proof.
  revert s0. induction es as [|e es IH]; intros s0 H0; simpl.
  - by intros [= <-].
  - destruct (negb (seatsStored s0 e) && freshDraw s0 e) eqn:Hp; [|done].
    destruct (step s0 e) as [s1|] eqn:E; [|done]. apply IH.
    by eapply step_keeps_seats.
Qed.

Lemma seated_initial : seated initial.
Proof. intros ws w c r Hw. simpl in Hw. by rewrite lookup_nil in Hw. Qed.

(** ** Who starts a round *)

Lemma onCreate_result (ws : nat) (env : Env) (s s' : Server) (w : Conn) :
  conns s !! ws = Some w → onCreate ws env s = Some s' →
  ∃ c r,
    rooms s !! c = None ∧ rooms s' !! c = Some r
    ∧ currentPlayer r = X ∧ moveCount r = 0
    ∧ slot (players r) (if coin env then X else O) = Some ws
    ∧ slot (players r) (if coin env then O else X) = None
    ∧ symbolOf s' ws = Some (if coin env then X else O).
Proof.
  intros Hw. unfold onCreate.
  destruct (makeCode (codeDraws env) (rooms s)) as [c|] eqn:E; [|done].
  intros [= <-]. exists c. eexists. split; [by eapply makeCode_fresh|].
  unfold symbolOf. rewrite !send_rooms, !send_conns. simpl.
  rewrite lookup_insert_eq, list_lookup_alter_eq, Hw. simpl.
  split; [reflexivity|]. by destruct (coin env).
Qed.

Lemma reshuffle_result (swap : bool) (room : Room) (cs : list Conn) :
  currentPlayer (fst (reshufflePlayers swap room cs)) = X
  ∧ moveCount (fst (reshufflePlayers swap room cs)) = moveCount room
  ∧ slotX (players (fst (reshufflePlayers swap room cs)))
    = (if swap then slotO (players room) else slotX (players room))
  ∧ slotO (players (fst (reshufflePlayers swap room cs)))
    = (if swap then slotX (players room) else slotO (players room))
  ∧ (∀ w, slotO (players (fst (reshufflePlayers swap room cs))) = Some w →
          is_Some (cs !! w) →
          symbol <$> snd (reshufflePlayers swap room cs) !! w = Some (Some O))
  ∧ (∀ w, slotX (players (fst (reshufflePlayers swap room cs))) = Some w →
          slotO (players (fst (reshufflePlayers swap room cs))) ≠ Some w →
          is_Some (cs !! w) →
          symbol <$> snd (reshufflePlayers swap room cs) !! w = Some (Some X)).
Proof.
  unfold reshufflePlayers.
  destruct (slotX (players room)) as [x|], (slotO (players room)) as [o|], swap; simpl;
    repeat split; try done;
    intros w; intros; simplify_eq;
    repeat (rewrite list_lookup_alter_eq || rewrite list_lookup_alter_ne by congruence);
    try (match goal with H : is_Some _ |- _ => destruct H as [? ->] end; done).
  all: match goal with
       | |- context [alter _ ?i _ !! ?j] => destruct (decide (i = j)) as [->|?]
       end;
    repeat (rewrite list_lookup_alter_eq || rewrite list_lookup_alter_ne by congruence);
    match goal with H : is_Some _ |- _ => destruct H as [? ->] end; done.
Qed.

Lemma restart_result (keep : Scores → Scores) (ws : nat) (env : Env) (s : Server)
      (c : string) (room : Room) :
  roomOf s ws = Some (c, room) →
  rooms (restart keep ws env s) !! c
  = Some (setLastActivity (now env)
            (fst (reshufflePlayers (coin env) (clearedRoom keep room) (conns s))))
  ∧ conns (restart keep ws env s)
    = snd (reshufflePlayers (coin env) (clearedRoom keep room) (conns s)).
Proof.
  intros Hroom. unfold restart. rewrite Hroom.
  destruct (reshufflePlayers (coin env) (clearedRoom keep room) (conns s)) as [room1 cs].
  unfold broadcastRoom.
  rewrite !forEachPlayer_rooms, !forEachPlayer_conns. simpl.
  by rewrite lookup_insert_eq.
Qed.

Lemma symbolOf_fmap (s : Server) (ws : nat) (sym : Symbol) :
  symbol <$> conns s !! ws = Some (Some sym) → symbolOf s ws = Some sym.
Proof.
  unfold symbolOf. destruct (conns s !! ws) as [w|]; simpl; [|done]. by intros [= ->].
Qed.

(** C10, as amended. A room that create has just made, and a room after a
    reset or a new, has [currentPlayer] 'X' and [moveCount] 0, whatever the
    coin. After create the sender is stored in the slot the coin chose and
    carries that symbol; after a reset or a new the connection stored in
    slot O carries symbol O and the one stored in slot X, when it is not also
    stored in slot O, carries symbol X. In a room whose [currentPlayer] is
    'X' a move from a connection that does not carry symbol X is answered
    with 'Not your turn', and a move that passes the other checks is taken
    from a connection that carries the code of the room and symbol X. As long
    as no create, and no join that finds a free slot, comes from a connection
    that is at that moment stored in a slot of a live room, and no create is
    given a code that another open connection still carries, every accepted
    move comes from the connection stored in the slot of [currentPlayer]: the
    first move of a round is made by the connection that holds slot X. *)
Theorem round_starts_with_symbol_X
        (s : Server) (ws : nat) (env : Env)
        (Hopen : isOpen s ws = true)
        (es : list Event) (u : Server)
        (Hrun : runInProtocol initial es = Some u) :
  ((∃ d, d ∈ codeDraws env ∧ rooms s !! drawCode d = None) →
   is_Some (step s (EMessage ws MsgCreate env)))
  ∧ (∀ s', step s (EMessage ws MsgCreate env) = Some s' →
       ∃ c r,
         rooms s !! c = None ∧ rooms s' !! c = Some r
         ∧ currentPlayer r = X ∧ moveCount r = 0
         ∧ slot (players r) (if coin env then X else O) = Some ws
         ∧ slot (players r) (if coin env then O else X) = None
         ∧ symbolOf s' ws = Some (if coin env then X else O))
  ∧ (∀ msg c room,
       msg = MsgReset ∨ msg = MsgNew → roomOf s ws = Some (c, room) →
       ∃ s' r',
         step s (EMessage ws msg env) = Some s' ∧ rooms s' !! c = Some r'
         ∧ currentPlayer r' = X ∧ moveCount r' = 0
         ∧ slotX (players r')
           = (if coin env then slotO (players room) else slotX (players room))
         ∧ slotO (players r')
           = (if coin env then slotX (players room) else slotO (players room))
         ∧ (∀ w, slotO (players r') = Some w → is_Some (conns s !! w) →
                 symbolOf s' w = Some O)
         ∧ (∀ w, slotX (players r') = Some w → slotO (players r') ≠ Some w →
                 is_Some (conns s !! w) → symbolOf s' w = Some X))
  ∧ (∀ index c r,
       roomOf s ws = Some (c, r) → currentPlayer r = X →
       (symbolOf s ws ≠ Some X →
        step s (EMessage ws (MsgMove index) env)
        = Some (rejectedWith "Not your turn" ws s))
       ∧ (∀ q, index = JsNumber q → symbolOf s ws = Some X → refused r q = false →
               ∃ s', step s (EMessage ws (MsgMove index) env) = Some s'
                     ∧ rooms s' !! c = Some (applyMove r q X (now env))))
  ∧ (∀ mover c r q,
       isOpen u mover = true → accepted u mover c r q →
       slot (players r) (currentPlayer r) = Some mover).
Proof.
  destruct (isOpen_lookup s ws Hopen) as (w & Hw & _).
  split; [|split; [|split; [|split]]].
  - intros Hfree. simpl. rewrite Hopen. simpl. unfold onCreate.
    destruct (makeCode_returns (codeDraws env) (rooms s) Hfree) as [c ->]. by eexists.
  - intros s'. simpl. rewrite Hopen. simpl. by apply (onCreate_result ws env s s' w).
  - intros msg c room Hmsg Hroom.
    assert (Hgen : ∀ keep, ∃ r',
               rooms (restart keep ws env s) !! c = Some r'
               ∧ currentPlayer r' = X ∧ moveCount r' = 0
               ∧ slotX (players r')
                 = (if coin env then slotO (players room) else slotX (players room))
               ∧ slotO (players r')
                 = (if coin env then slotX (players room) else slotO (players room))
               ∧ (∀ w, slotO (players r') = Some w → is_Some (conns s !! w) →
                       symbolOf (restart keep ws env s) w = Some O)
               ∧ (∀ w, slotX (players r') = Some w → slotO (players r') ≠ Some w →
                       is_Some (conns s !! w) →
                       symbolOf (restart keep ws env s) w = Some X)).
    { intros keep.
      destruct (restart_result keep ws env s c room Hroom) as [Hr Hc].
      destruct (reshuffle_result (coin env) (clearedRoom keep room) (conns s))
        as (H1 & H2 & H3 & H4 & H5 & H6).
      eexists. split; [exact Hr|]. simpl.
      split; [done|]. split; [done|]. split; [done|]. split; [done|]. split.
      - intros w0 Hs He. apply symbolOf_fmap. rewrite Hc. by apply H5.
      - intros w0 Hs Hn He. apply symbolOf_fmap. rewrite Hc. by apply H6. }
    simpl. rewrite Hopen. destruct Hmsg as [-> | ->]; simpl.
    + destruct (Hgen (λ sc, sc)) as (r' & H). by exists (onReset ws env s), r'.
    + destruct (Hgen (λ _, mkScores 0 0 0)) as (r' & H). by exists (onNew ws env s), r'.
  - intros index c r Hroom Hcur. split.
    + intros Hsym. simpl. rewrite Hopen. simpl.
      rewrite (onMove_not_your_turn s ws index env c r Hroom) by congruence.
      by rewrite send_open.
    + intros q -> Hsym Hq. rewrite <- Hcur.
      apply onMove_accepted_step; [done|]. unfold accepted. by rewrite Hcur.
  - intros mover c r q Hmo (Hroom & Hsym & _).
    destruct (runInProtocol_seats es initial u
                (conj slotsAgree_initial seated_initial) Hrun) as [_ Hseat].
    destruct (isOpen_lookup u mover Hmo) as (wm & Hwm & Hready).
    apply roomOf_Some in Hroom as (w0 & Hw0 & Hc0 & Hr).
    assert (w0 = wm) as -> by congruence.
    destruct (Hseat mover wm c r Hwm Hready Hc0 Hr) as (sym & Hs & Hslot).
    rewrite (symbolOf_lookup u mover wm Hwm) in Hsym. congruence.
Qed.

(** C10, as stated, fails: the first move in a room need not come from the
    connection stored in its slot X. Connection 0 still carries code AAAA and
    symbol X from a room the sweep removed; connection 1 then creates a room
    that is given the same code and takes slot O; the move of connection 0 is
    accepted although slot X of the room is empty. *)
Lemma first_move_from_outside_the_slots :
  run initial codeDrawnAgain = Some (stateAfter codeDrawnAgain)
  ∧ runUnseated initial codeDrawnAgain = Some (stateAfter codeDrawnAgain)
  ∧ runInProtocol initial codeDrawnAgain = None
  ∧ rooms (stateAfter codeDrawnAgain) !! "AAAA"
    = Some (roomAt (stateAfter codeDrawnAgain) "AAAA")
  ∧ currentPlayer (roomAt (stateAfter codeDrawnAgain) "AAAA") = X
  ∧ moveCount (roomAt (stateAfter codeDrawnAgain) "AAAA") = 0
  ∧ players (roomAt (stateAfter codeDrawnAgain) "AAAA") = mkSlots None (Some 1)
  ∧ accepted (stateAfter codeDrawnAgain) 0 "AAAA"
             (roomAt (stateAfter codeDrawnAgain) "AAAA") 0
  ∧ (∃ s' r',
        step (stateAfter codeDrawnAgain) (moveAt 0 0) = Some s'
        ∧ rooms s' !! "AAAA" = Some r'
        ∧ cells (board r') !! 0 = Some (Some X) ∧ moveCount r' = 1)
  ∧ ¬ (∀ ws q,
          accepted (stateAfter codeDrawnAgain) ws "AAAA"
                   (roomAt (stateAfter codeDrawnAgain) "AAAA") q →
          slot (players (roomAt (stateAfter codeDrawnAgain) "AAAA")) X = Some ws).
Proof.
  assert (Hacc : accepted (stateAfter codeDrawnAgain) 0 "AAAA"
                          (roomAt (stateAfter codeDrawnAgain) "AAAA") 0)
    by (unfold accepted; by_running).
  split; [by_running|]. split; [by_running|]. split; [by_running|].
  split; [by_running|]. split; [by_running|]. split; [by_running|].
  split; [by_running|]. split; [exact Hacc|]. split.
  - exists (default initial (step (stateAfter codeDrawnAgain) (moveAt 0 0))).
    exists (roomAt (default initial (step (stateAfter codeDrawnAgain) (moveAt 0 0))) "AAAA").
    by_running.
  - intros H. specialize (H 0 0%Q Hacc). vm_compute in H. discriminate H.
Qed.

(** The condition on creates and joins is needed as well. Connection 0 is
    stored in slot O of AAAA when it creates AAAB, where it is stored in
    slot O too; no connection carries either code when it is drawn. The
    reset of connection 1 in AAAA reshuffles connection 0 into slot X of
    AAAA and writes symbol X on it, while it carries the code AAAB: its move
    in AAAB is accepted although slot X of AAAB is empty. *)
Lemma move_with_the_symbol_of_another_room :
  run initial symbolFromOtherRoom = Some (stateAfter symbolFromOtherRoom)
  ∧ freshDraw (stateAfter [EConnection; EConnection]) (EMessage 0 MsgCreate tails) = true
  ∧ freshDraw (stateAfter (removelast seatedTwice)) (EMessage 0 MsgCreate tails) = true
  ∧ seatsStored (stateAfter (removelast seatedTwice)) (EMessage 0 MsgCreate tails) = true
  ∧ runInProtocol initial symbolFromOtherRoom = None
  ∧ players (roomAt (stateAfter symbolFromOtherRoom) "AAAA") = mkSlots (Some 0) (Some 1)
  ∧ players (roomAt (stateAfter symbolFromOtherRoom) "AAAB") = mkSlots None (Some 0)
  ∧ currentPlayer (roomAt (stateAfter symbolFromOtherRoom) "AAAB") = X
  ∧ accepted (stateAfter symbolFromOtherRoom) 0 "AAAB"
             (roomAt (stateAfter symbolFromOtherRoom) "AAAB") 0.
Proof. unfold accepted. by_running. Qed.

(** ** Turn alternation *)

(** In [server.js] the turn passes exactly when the move finds no winner and
    [moveCount] has not reached 9. *)
Lemma move_turn_by_moveCount (room : Room) (q : Q) (sym : Symbol) (t : Z) :
  refused room q = false →
  (winner (applyMove room q sym t) = None ∧ moveCount (applyMove room q sym t) ≠ 9 →
   currentPlayer (applyMove room q sym t) = other (currentPlayer room))
  ∧ (winner (applyMove room q sym t) ≠ None ∨ isDraw (applyMove room q sym t) = true →
     currentPlayer (applyMove room q sym t) = currentPlayer room).
Proof.
  intros Hq. apply refused_false in Hq as (_ & _ & _ & Hw & Hd).
  pose proof (applyMove_outcome room q sym t Hw Hd) as Hout.
  destruct (applyMove_board room q sym t) as [_ Hn]. rewrite Hn.
  destruct (checkWinner _) as [[w line]|].
  - destruct Hout as (Hw' & _ & _ & _ & Hc). rewrite Hw', Hc. split; [|done].
    by intros [? _].
  - destruct Hout as (Hw' & Hout). rewrite Hw'. case_bool_decide as H9.
    + destruct Hout as (_ & _ & Hc). rewrite Hc. split; [|done]. by intros [_ ?].
    + destruct Hout as (Hd' & _ & Hc). rewrite Hd', Hc. split; [done|].
      by intros [?|?].
Qed.

Lemma filledCells_insert (b : list Cell) (i : nat) (s : Symbol) :
  b !! i = Some None → filledCells (<[i := Some s]> b) = S (filledCells b).
Proof.
  unfold filledCells. revert i. induction b as [|c b IH]; intros i; [done|].
  destruct i as [|i]; simpl.
  - by intros [= ->].
  - intros Hi. specialize (IH i Hi). destruct c as [s0|].
    + simpl. f_equal. exact IH.
    + change (length (filter (λ c : Cell, c ≠ None) (<[i:=Some s]> b))
              = S (length (filter (λ c : Cell, c ≠ None) b))).
      exact IH.
Qed.

Lemma cellIndex_le (q : Q) (i : nat) : cellIndex q = Some i → (q <= 8)%Q → i ≤ 8.
Proof.
  unfold cellIndex.
  destruct (Qeq_bool (inject_Z (Qfloor q)) q && (0 <=? Qfloor q)%Z) eqn:E; [|done].
  apply andb_true_iff in E as [_ Hpos]. apply Z.leb_le in Hpos.
  intros [= <-] Hq.
  assert (Hz : (Qfloor q <= 8)%Z).
  { rewrite Zle_Qle. eapply Qle_trans; [apply Qfloor_le | exact Hq]. }
  lia.
Qed.

Lemma cellAt_None_in_range (b : list Cell) (i : nat) :
  cellAt b i = None → i < length b → b !! i = Some None.
Proof.
  unfold cellAt. intros H Hi. destruct (b !! i) as [c|] eqn:E; [by subst|].
  apply lookup_ge_None in E. lia.
Qed.

Lemma applyMove_counted (r : Room) (q : Q) (sym : Symbol) (t : Z) :
  refused r q = false → counted r → counted (applyMove r q sym t).
Proof.
  intros Hq [Hlen Hcount]. apply refused_false in Hq as (_ & Hq8 & Hget & _).
  unfold counted. destruct (applyMove_board r q sym t) as [-> ->].
  unfold boardSet, boardGet in *. destruct (cellIndex q) as [i|] eqn:Hi; simpl.
  - rewrite length_insert. split; [done|].
    pose proof (cellIndex_le q i Hi Hq8) as Hle.
    rewrite filledCells_insert by (apply cellAt_None_in_range; [done | lia]).
    rewrite Hcount. lia.
  - split; [done|]. rewrite Hcount. lia.
Qed.

Lemma roomChange_counted (o : option Room) (r' : Room) :
  roomChange o r' → (∀ r, o = Some r → counted r) → counted r'.
Proof.
  unfold counted.
  intros [r r1 Hg | r1 Hs | r q t r1 Hq Hg | r r1 Hs] Hold.
  - destruct Hg as (_ & -> & _ & _ & _ & _ & -> & _). by apply Hold.
  - destruct Hs as (-> & _ & _ & _ & _ & ->). done.
  - destruct Hg as (_ & -> & _ & _ & _ & _ & -> & _).
    apply applyMove_counted; [done | by apply Hold].
  - destruct Hs as (-> & _ & _ & _ & _ & ->). done.
Qed.

(** In every state the server reaches, every board has nine cells and
    [moveCount] is the number of filled cells plus the number of named
    properties that moves with a non-integer index have put on the board. *)
Lemma reachable_counted (es : list Event) (s : Server) (c : string) (r : Room) :
  run initial es = Some s → rooms s !! c = Some r → counted r.
Proof.
  intros Hrun. revert c r.
  refine (run_invariant (λ s, ∀ c r, rooms s !! c = Some r → counted r) _ _ es s Hrun).
  - intros c r H. simpl in H. by rewrite lookup_empty in H.
  - intros s0 e s1 IH Hstep c r Hr.
    eapply roomChange_counted; [by eapply step_roomChange|].
    intros r0 Hr0. by eapply IH.
Qed.

(** In [server.js] the turn rule holds with the ninth cell read off the
    board in every round in which no move with a non-integer index was
    accepted. *)
Lemma integral_round_turn_alternation (es : list Event) (s : Server) (ws : nat)
      (c : string) (room : Room) (q : Q) (t : Z) :
  run initial es = Some s → accepted s ws c room q →
  props (board (applyMove room q (currentPlayer room) t)) = [] →
  (winner (applyMove room q (currentPlayer room) t) = None
   ∧ filledCells (cells (board (applyMove room q (currentPlayer room) t))) ≠ 9 →
   currentPlayer (applyMove room q (currentPlayer room) t) = other (currentPlayer room))
  ∧ (winner (applyMove room q (currentPlayer room) t) ≠ None
     ∨ isDraw (applyMove room q (currentPlayer room) t) = true →
     currentPlayer (applyMove room q (currentPlayer room) t) = currentPlayer room).
Proof.
  intros Hrun (Hroom & _ & Hq) Hprops.
  apply roomOf_Some in Hroom as (w & _ & _ & Hr).
  pose proof (reachable_counted es s c room Hrun Hr) as Hc.
  destruct (applyMove_counted room q (currentPlayer room) t Hq Hc) as [_ Hn].
  rewrite Hprops in Hn. simpl in Hn. rewrite Nat.add_0_r in Hn. rewrite <- Hn.
  by apply move_turn_by_moveCount.
Qed.

Lemma Http_taken_false (b : list Cell) (q : Q) :
  Http.taken b q = false → ∃ i, cellIndex q = Some i ∧ b !! i = Some None.
Proof.
  unfold Http.taken. destruct (cellIndex q) as [i|]; [|done].
  destruct (b !! i) as [[s|]|] eqn:E; try done. eauto.
Qed.

Lemma Http_handle_counted (g : Http.Game) (r : Http.Request) :
  Http_counted g → Http_counted (Http.handle g r).
Proof.
  unfold Http_counted. intros Hg. destruct r as [index| |]; simpl; try done.
  unfold Http.move. destruct index as [q| |]; try done.
  destruct (negb (Qle_bool 0 q) || negb (Qle_bool q 8)); [done|].
  destruct (Http.taken (Http.board g) q) eqn:Ht; [done|].
  destruct (bool_decide (Http.winner g ≠ None) || Http.isDraw g); [done|]. simpl.
  apply Http_taken_false in Ht as (i & Hi & Hb).
  assert (Hb' : filledCells (Http.boardSet (Http.board g) q (Http.currentPlayer g))
                = S (Http.moveCount g)).
  { unfold Http.boardSet. rewrite Hi, Hg. by apply filledCells_insert. }
  unfold Http.applyMove. destruct (checkWinner _) as [[w line]|]; [|case_bool_decide];
    simpl; by rewrite Hb'.
Qed.

(** The single game satisfies the turn rule with the ninth cell read off the
    board: after any sequence of requests, an accepted move that finds no
    winner and does not fill the ninth cell passes the turn, and one that
    ends the game leaves it. *)
Lemma Http_turn_alternation (rs : list Http.Request) (q : Q) :
  let g := foldl Http.handle Http.createNewGame rs in
  Http.accepted g q →
  (Http.winner (Http.applyMove g q) = None
   ∧ filledCells (Http.board (Http.applyMove g q)) ≠ 9 →
   Http.currentPlayer (Http.applyMove g q) = other (Http.currentPlayer g))
  ∧ (Http.winner (Http.applyMove g q) ≠ None ∨ Http.isDraw (Http.applyMove g q) = true →
     Http.currentPlayer (Http.applyMove g q) = Http.currentPlayer g).
Proof.
  intros g Hacc.
  assert (Hg : Http_counted g).
  { unfold g. clear Hacc. induction rs as [|r rs IH] using rev_ind; [done|].
    rewrite foldl_app. simpl. by apply Http_handle_counted. }
  assert (Hg' : Http_counted (Http.applyMove g q)).
  { pose proof (Http_handle_counted g (Http.PostMove (JsNumber q)) Hg) as H.
    unfold Http.handle in H. by rewrite (Http_move_accepted g q Hacc) in H. }
  destruct (Http_accepted_open g q Hacc) as [Hw Hd].
  destruct (Http_applyMove_outcome g q Hw Hd) as (_ & Hn & Hout).
  unfold Http_counted in Hg'. rewrite <- Hg', Hn.
  destruct (checkWinner _) as [[w line]|].
  - destruct Hout as (Hw' & _ & _ & _ & Hc). rewrite Hw', Hc. split; [|done].
    by intros [? _].
  - destruct Hout as (Hw' & Hout). rewrite Hw'. case_bool_decide as H9.
    + destruct Hout as (_ & _ & Hc). rewrite Hc. split; [|done]. by intros [_ ?].
    + destruct Hout as (Hd' & _ & Hc). rewrite Hd', Hc. split; [done|].
      by intros [?|?].
Qed.

(** C4 fails in [server.js] on an index that is not an integer. The two
    players of a room send moves with the indices 0.5, 1.5, ..., 7.5; each
    is accepted, none fills a cell, and [moveCount] is 8. The move of X at
    0.25 is then accepted too: it finds no winner and fills no cell (the
    board is still empty, so it does not fill the ninth cell), yet it sets
    [isDraw] and leaves [currentPlayer] on X. *)
Theorem ninth_fractional_move_keeps_turn :
  run initial eightHalves = Some (stateAfter eightHalves)
  ∧ accepted (stateAfter eightHalves) 0 "AAAA"
             (roomAt (stateAfter eightHalves) "AAAA") (1 # 4)
  ∧ currentPlayer (roomAt (stateAfter eightHalves) "AAAA") = X
  ∧ moveCount (roomAt (stateAfter eightHalves) "AAAA") = 8
  ∧ ∃ s' r',
      step (stateAfter eightHalves) (moveAt 0 (1 # 4)) = Some s'
      ∧ rooms s' !! "AAAA" = Some r'
      ∧ winner r' = None
      ∧ checkWinner (cells (board r')) = None
      ∧ filledCells (cells (board r')) = 0
      ∧ moveCount r' = 9
      ∧ isDraw r' = true
      ∧ currentPlayer r' = X.
Proof.
  split; [by_running|]. split; [unfold accepted; by_running|].
  split; [by_running|]. split; [by_running|].
  exists (default initial (step (stateAfter eightHalves) (moveAt 0 (1 # 4)))).
  exists (roomAt (default initial (step (stateAfter eightHalves) (moveAt 0 (1 # 4)))) "AAAA").
  by_running.
Qed.

(** * The theorems at work on the scenarios *)

(** After X played cell 0 it is O's turn: O's move at the taken cell 0 is
    answered with 'Invalid move'. *)
Lemma move_rejected_room_unchanged_witness :
  isOpen (stateAfter oneMove) 1 = true
  ∧ roomOf (stateAfter oneMove) 1 = Some ("AAAA", roomAt (stateAfter oneMove) "AAAA")
  ∧ step (stateAfter oneMove) (EMessage 1 (MsgMove (JsNumber 0)) heads)
    = Some (rejectedWith "Invalid move" 1 (stateAfter oneMove)).
Proof.
  assert (Hopen : isOpen (stateAfter oneMove) 1 = true) by by_running.
  assert (Hroom : roomOf (stateAfter oneMove) 1
                  = Some ("AAAA", roomAt (stateAfter oneMove) "AAAA")) by by_running.
  split; [exact Hopen|]. split; [exact Hroom|].
  apply (proj1 (move_rejected_room_unchanged (stateAfter oneMove) 1 (JsNumber 0) heads
                  "AAAA" (roomAt (stateAfter oneMove) "AAAA") Hopen Hroom)).
  - by_running.
  - right; left. vm_compute. discriminate.
Defined.

(** After X took the top row the room has a winner and no draw. *)
Lemma winner_and_draw_exclusive_until_reset_witness :
  run initial topRow = Some (stateAfter topRow)
  ∧ rooms (stateAfter topRow) !! "AAAA" = Some (roomAt (stateAfter topRow) "AAAA")
  ∧ ¬ (winner (roomAt (stateAfter topRow) "AAAA") ≠ None
       ∧ isDraw (roomAt (stateAfter topRow) "AAAA") = true).
Proof.
  assert (Hrun : run initial topRow = Some (stateAfter topRow)) by by_running.
  assert (Hr : rooms (stateAfter topRow) !! "AAAA"
               = Some (roomAt (stateAfter topRow) "AAAA")) by by_running.
  split; [exact Hrun|]. split; [exact Hr|].
  exact (proj1 (winner_and_draw_exclusive_until_reset topRow (stateAfter topRow) "AAAA"
                  (roomAt (stateAfter topRow) "AAAA") Hrun Hr)).
Defined.

(** The ninth move, X at cell 8 of a board with no line, and the second move
    of a single game. *)
Lemma draw_iff_ninth_move_without_winner_witness :
  isOpen (stateAfter eightCells) 0 = true
  ∧ accepted (stateAfter eightCells) 0 "AAAA" (roomAt (stateAfter eightCells) "AAAA") 8
  ∧ Http.accepted gameOneMove 1
  ∧ ∃ s' r',
      step (stateAfter eightCells) (EMessage 0 (MsgMove (JsNumber 8)) heads) = Some s'
      ∧ rooms s' !! "AAAA" = Some r'
      ∧ moveCount r' = S (moveCount (roomAt (stateAfter eightCells) "AAAA"))
      ∧ (isDraw r' = true ↔ moveCount r' = 9 ∧ checkWinner (cells (board r')) = None).
Proof.
  assert (Hopen : isOpen (stateAfter eightCells) 0 = true) by by_running.
  assert (Hacc : accepted (stateAfter eightCells) 0 "AAAA"
                          (roomAt (stateAfter eightCells) "AAAA") 8)
    by (unfold accepted; by_running).
  assert (Hacc' : Http.accepted gameOneMove 1) by (unfold Http.accepted; by_running).
  split; [exact Hopen|]. split; [exact Hacc|]. split; [exact Hacc'|].
  destruct (draw_iff_ninth_move_without_winner (stateAfter eightCells) 0 "AAAA"
              (roomAt (stateAfter eightCells) "AAAA") 8 heads Hopen Hacc
              gameOneMove 1 Hacc')
    as [(s' & r' & Hstep & Hr' & _ & Hn & Hiff & _) _].
  exists s', r'. split; [exact Hstep|]. split; [exact Hr'|]. split; [exact Hn|].
  exact Hiff.
Defined.

(** A third connection joins the room connection 1 left: it gets slot O and
    the timer of that slot is cleared. *)
Lemma join_errors_or_first_free_slot_witness :
  isOpen (stateAfter newcomer) 2 = true
  ∧ rooms (stateAfter newcomer) !! normalizeCode (CodeAscii "aaaa")
    = Some (roomAt (stateAfter newcomer) "AAAA")
  ∧ slot (disconnectTimers (roomAt (stateAfter newcomer) "AAAA")) O = Some 0
  ∧ ∃ room',
      rooms (onJoin 2 (CodeAscii "aaaa") heads (stateAfter newcomer))
        !! normalizeCode (CodeAscii "aaaa") = Some room'
      ∧ slot (players room') O = Some 2
      ∧ slot (disconnectTimers room') O = None
      ∧ onTimeout 0 (onJoin 2 (CodeAscii "aaaa") heads (stateAfter newcomer))
        = onJoin 2 (CodeAscii "aaaa") heads (stateAfter newcomer).
Proof.
  assert (Hopen : isOpen (stateAfter newcomer) 2 = true) by by_running.
  assert (Hroom : rooms (stateAfter newcomer) !! normalizeCode (CodeAscii "aaaa")
                  = Some (roomAt (stateAfter newcomer) "AAAA")) by by_running.
  assert (Ht : slot (disconnectTimers (roomAt (stateAfter newcomer) "AAAA")) O = Some 0)
    by by_running.
  assert (HX : slotX (players (roomAt (stateAfter newcomer) "AAAA")) ≠ None)
    by (vm_compute; discriminate).
  assert (HO : slotO (players (roomAt (stateAfter newcomer) "AAAA")) = None)
    by by_running.
  split; [exact Hopen|]. split; [exact Hroom|]. split; [exact Ht|].
  destruct (join_errors_or_first_free_slot (stateAfter newcomer) 2 (CodeAscii "aaaa") heads Hopen)
    as (_ & _ & _ & Hseat & _).
  destruct (Hseat (roomAt (stateAfter newcomer) "AAAA") O Hroom
              (or_intror (conj eq_refl (conj HX HO))))
    as (room' & Hr' & Hp & _ & _ & Hd & Hfire & _).
  exists room'. split; [exact Hr'|]. split; [exact Hp|]. split; [exact Hd|].
  exact (proj2 (Hfire 0 Ht)).
Defined.

(** A reset after X won keeps the score of 1 for X. *)
Lemma reset_keeps_scores_and_clears_round_witness :
  isOpen (stateAfter topRow) 1 = true
  ∧ roomOf (stateAfter topRow) 1 = Some ("AAAA", roomAt (stateAfter topRow) "AAAA")
  ∧ ∃ s' room',
      step (stateAfter topRow) (EMessage 1 MsgReset heads) = Some s'
      ∧ rooms s' !! "AAAA" = Some room'
      ∧ scores room' = scores (roomAt (stateAfter topRow) "AAAA")
      ∧ cells (board room') = replicate 9 None
      ∧ winner room' = None ∧ isDraw room' = false ∧ moveCount room' = 0.
Proof.
  assert (Hopen : isOpen (stateAfter topRow) 1 = true) by by_running.
  assert (Hroom : roomOf (stateAfter topRow) 1
                  = Some ("AAAA", roomAt (stateAfter topRow) "AAAA")) by by_running.
  split; [exact Hopen|]. split; [exact Hroom|].
  destruct (proj1 (proj2 (reset_keeps_scores_and_clears_round (stateAfter topRow) 1 heads
                            Hopen)) "AAAA" (roomAt (stateAfter topRow) "AAAA") Hroom)
    as (s' & room' & Hstep & Hr' & Hsc & Hb & _ & Hw & _ & Hd & Hn).
  exists s', room'. repeat (split; [assumption|]). assumption.
Defined.

(** Connection 1, which holds O, leaves the room of two players. *)
Lemma disconnect_starts_grace_timer_witness :
  isOpen (stateAfter twoPlayers) 1 = true
  ∧ roomOf (stateAfter twoPlayers) 1
    = Some ("AAAA", roomAt (stateAfter twoPlayers) "AAAA")
  ∧ symbolOf (stateAfter twoPlayers) 1 = Some O
  ∧ ∃ s' room',
      step (stateAfter twoPlayers) (EClose 1) = Some s'
      ∧ rooms s' !! "AAAA" = Some room'
      ∧ slot (players room') O = None
      ∧ timers s' = timers (stateAfter twoPlayers) ++ [mkTimer 1 O (60 * 1000) true].
Proof.
  assert (Hopen : isOpen (stateAfter twoPlayers) 1 = true) by by_running.
  assert (Hroom : roomOf (stateAfter twoPlayers) 1
                  = Some ("AAAA", roomAt (stateAfter twoPlayers) "AAAA")) by by_running.
  assert (Hsym : symbolOf (stateAfter twoPlayers) 1 = Some O) by by_running.
  split; [exact Hopen|]. split; [exact Hroom|]. split; [exact Hsym|].
  destruct (proj1 (disconnect_starts_grace_timer (stateAfter twoPlayers) 1 "AAAA"
                     (roomAt (stateAfter twoPlayers) "AAAA") O Hopen Hroom Hsym))
    as (s' & room' & Hstep & Hr' & Hslot & _ & _ & Ht & _).
  exists s', room'. repeat (split; [assumption|]). assumption.
Defined.

(** Connection 0 creates a second room after its first one was closed: it
    still carries the code of the first, and no live room stores it. *)
Lemma unseated_senders_hold_one_slot_witness :
  runUnseated initial createAfterRoomClosed = Some (stateAfter createAfterRoomClosed)
  ∧ roomCode <$> conns (stateAfter (oneLeft ++ [ETimeout 0])) !! 0 = Some (Some "AAAA")
  ∧ ∀ ws c1 sym1 c2 sym2,
      holds (stateAfter createAfterRoomClosed) ws c1 sym1 →
      holds (stateAfter createAfterRoomClosed) ws c2 sym2 → c1 = c2 ∧ sym1 = sym2.
Proof.
  assert (Hrun : runUnseated initial createAfterRoomClosed
                 = Some (stateAfter createAfterRoomClosed)) by by_running.
  split; [exact Hrun|]. split; [by_running|].
  exact (proj1 (proj2 (unseated_senders_hold_one_slot
                         createAfterRoomClosed (stateAfter createAfterRoomClosed) Hrun))).
Defined.

(** A new after X won, with the coin on swap; and the first move in the room
    connection 0 created after its first room was closed, under the code of
    the first, which only closed connection 1 and the sender still carry. *)
Lemma round_starts_with_symbol_X_witness :
  isOpen (stateAfter topRow) 0 = true
  ∧ runInProtocol initial createAfterRoomClosed = Some (stateAfter createAfterRoomClosed)
  ∧ roomOf (stateAfter topRow) 0 = Some ("AAAA", roomAt (stateAfter topRow) "AAAA")
  ∧ (∃ s' r',
        step (stateAfter topRow) (EMessage 0 MsgNew heads) = Some s'
        ∧ rooms s' !! "AAAA" = Some r'
        ∧ currentPlayer r' = X ∧ moveCount r' = 0)
  ∧ (∀ mover c r q,
        isOpen (stateAfter createAfterRoomClosed) mover = true →
        accepted (stateAfter createAfterRoomClosed) mover c r q →
        slot (players r) (currentPlayer r) = Some mover).
Proof.
  assert (Hopen : isOpen (stateAfter topRow) 0 = true) by by_running.
  assert (Hrun : runInProtocol initial createAfterRoomClosed
                 = Some (stateAfter createAfterRoomClosed)) by by_running.
  assert (Hroom : roomOf (stateAfter topRow) 0
                  = Some ("AAAA", roomAt (stateAfter topRow) "AAAA")) by by_running.
  split; [exact Hopen|]. split; [exact Hrun|]. split; [exact Hroom|].
  destruct (round_starts_with_symbol_X (stateAfter topRow) 0 heads Hopen
              createAfterRoomClosed (stateAfter createAfterRoomClosed) Hrun)
    as (_ & _ & Hrestart & _ & Hmover).
  split; [|exact Hmover].
  destruct (Hrestart MsgNew "AAAA" (roomAt (stateAfter topRow) "AAAA")
              (or_intror eq_refl) Hroom)
    as (s' & r' & Hstep & Hr' & Hc & Hn & _).
  exists s', r'. repeat (split; [assumption|]). assumption.
Defined.

(** * Further properties of the code *)

(** ** Room codes *)

(** X1. [makeCode] returns the first draw that is not the code of a live
    room, so the code it returns is never one in use; it keeps drawing
    exactly as long as every draw so far is the code of a live room. *)
Theorem makeCode_first_free_draw
        (ds : list (nat * nat * nat * nat)) (rs : gmap string Room) :
  (∀ c, makeCode ds rs = Some c ↔
        ∃ i d, ds !! i = Some d ∧ drawCode d = c ∧ rs !! c = None
               ∧ ∀ j d', j < i → ds !! j = Some d' → is_Some (rs !! drawCode d'))
  ∧ (makeCode ds rs = None ↔ ∀ d, d ∈ ds → is_Some (rs !! drawCode d)).
Proof.
  induction ds as [|d0 ds [IHs IHn]]; simpl.
  - split.
    + intros c. split; [done|]. intros (i & d & Hi & _). by rewrite lookup_nil in Hi.
    + split; [|done]. intros _ d Hd. by apply elem_of_nil in Hd.
  - destruct (rs !! drawCode d0) as [r0|] eqn:E.
    + split.
      * intros c. rewrite IHs. split.
        -- intros (i & d & Hi & Hd & Hfree & Hbefore). exists (S i), d.
           repeat split; try done. intros [|j] d' Hj Hd'.
           ++ simpl in Hd'. injection Hd' as <-. by rewrite E.
           ++ apply (Hbefore j d'); [lia | done].
        -- intros (i & d & Hi & Hd & Hfree & Hbefore). destruct i as [|i].
           ++ simpl in Hi. injection Hi as <-. subst c. congruence.
           ++ exists i, d. repeat split; try done.
              intros j d' Hj Hd'. apply (Hbefore (S j) d'); [lia | done].
      * rewrite IHn. split.
        -- intros H d Hd. apply elem_of_cons in Hd as [->|Hd]; [by rewrite E | by apply H].
        -- intros H d Hd. apply H. by right.
    + split.
      * intros c. split.
        -- intros [= <-]. exists 0, d0. repeat split; try done. intros j d' Hj. lia.
        -- intros (i & d & Hi & Hd & Hfree & Hbefore). destruct i as [|i].
           ++ simpl in Hi. injection Hi as <-. by subst c.
           ++ destruct (Hbefore 0 d0 ltac:(lia) eq_refl) as [r Hr]. congruence.
      * split; [done|]. intros H. destruct (H d0 ltac:(left)) as [r Hr]. congruence.
Qed.

Lemma charAt_letter (i : nat) :
  i < 32 → ∃ ch, charAt i = String ch "" ∧ upperChar ch = ch ∧ isSpace ch = false.
Proof.
  intros Hi.
  do 32 (destruct i as [|i]; [eexists; repeat split; vm_compute; reflexivity|]).
  lia.
Qed.

(** X2. A code built from four draws below 32 has four characters and is
    left as it is by the normalization of the join handler: what create
    hands out is the key join looks up. *)
Theorem drawn_code_is_its_own_normal_form
        (a b c e : nat)
        (Ha : a < 32) (Hb : b < 32) (Hc : c < 32) (He : e < 32) :
  String.length (drawCode (a, b, c, e)) = 4
  ∧ normalizeCode (CodeAscii (drawCode (a, b, c, e))) = drawCode (a, b, c, e).
Proof.
  destruct (charAt_letter a Ha) as (ca & Hca & Hua & Hsa).
  destruct (charAt_letter b Hb) as (cb & Hcb & Hub & Hsb).
  destruct (charAt_letter c Hc) as (cc & Hcc & Huc & Hsc).
  destruct (charAt_letter e He) as (ce & Hce & Hue & Hse).
  unfold drawCode. rewrite Hca, Hcb, Hcc, Hce. split; [reflexivity|].
  unfold normalizeCode, trim. simpl. rewrite Hua, Hub, Huc, Hue.
  rewrite Hsa. unfold String.rev. simpl. rewrite Hse. reflexivity.
Qed.

Lemma drawn_code_is_its_own_normal_form_witness :
  3 < 32 ∧ 17 < 32 ∧ 24 < 32 ∧ 31 < 32
  ∧ drawCode (3, 17, 24, 31) = "DT29"
  ∧ normalizeCode (CodeAscii (drawCode (3, 17, 24, 31))) = drawCode (3, 17, 24, 31).
Proof.
  assert (H3 : 3 < 32) by lia. assert (H17 : 17 < 32) by lia.
  assert (H24 : 24 < 32) by lia. assert (H31 : 31 < 32) by lia.
  split; [exact H3|]. split; [exact H17|]. split; [exact H24|]. split; [exact H31|].
  split; [reflexivity|].
  exact (proj2 (drawn_code_is_its_own_normal_form 3 17 24 31 H3 H17 H24 H31)).
Defined.

(** ** What is written to the sockets *)

Lemma isOpen_same_conns (s s' : Server) (ws : nat) :
  conns s' = conns s → isOpen s' ws = isOpen s ws.
Proof. unfold isOpen. by intros ->. Qed.

Lemma isOpen_alter (f : Conn → Conn) (ws ws' : nat) (s s' : Server) :
  (∀ w, readyState (f w) = readyState w) → conns s' = alter f ws (conns s) →
  isOpen s' ws' = isOpen s ws'.
Proof.
  intros Hf Hc. unfold isOpen. rewrite Hc. destruct (decide (ws = ws')) as [->|Hne].
  - rewrite list_lookup_alter_eq. destruct (conns s !! ws') as [w|]; simpl; [|done].
    by rewrite Hf.
  - by rewrite list_lookup_alter_ne.
Qed.

Lemma delivered_same_conns (s s' : Server) (to : option nat) (m : ServerMsg) :
  conns s' = conns s → delivered s' to m = delivered s to m.
Proof. intros H. unfold delivered. destruct to as [ws|]; [|done]. by rewrite (isOpen_same_conns s s'). Qed.

Lemma forEachPlayer_outbox (f : Symbol → ServerMsg) (room : Room) (s : Server) :
  outbox (forEachPlayer f room s)
  = outbox s ++ delivered s (slotX (players room)) (f X)
             ++ delivered s (slotO (players room)) (f O).
Proof.
  unfold forEachPlayer. simpl.
  destruct (slotX (players room)) as [x|], (slotO (players room)) as [o|]; simpl;
    rewrite ?send_outbox, ?app_nil_r, <- ?app_assoc; try done.
  by rewrite (delivered_same_conns s (send x (f X) s)) by apply send_conns.
Qed.

Lemma delivered_open (s : Server) (ws : nat) (m : ServerMsg) :
  isOpen s ws = true → delivered s (Some ws) m = [(ws, m)].
Proof. intros H. simpl. by rewrite H. Qed.

(** The state a create ends in, field by field. *)
Lemma onCreate_fields (ws : nat) (env : Env) (s s' : Server) (c : string) :
  isOpen s ws = true → makeCode (codeDraws env) (rooms s) = Some c →
  onCreate ws env s = Some s' →
  let sym := if coin env then X else O in
  let room := setPlayers (setSlot sym (Some ws) (mkSlots None None))
                         (freshRoom c (now env)) in
  rooms s' = <[c := room]> (rooms s)
  ∧ conns s' = alter (bind c sym) ws (conns s)
  ∧ timers s' = timers s
  ∧ outbox s' = outbox s ++ [(ws, Created c sym); (ws, State (roomState room sym))].
Proof.
  intros Hopen Hc. unfold onCreate. rewrite Hc. intros [= <-]. simpl.
  rewrite !send_rooms, !send_conns, !send_timers, !send_outbox. simpl.
  repeat split; try done.
  set (s1 := mkServer _ _ _ _).
  assert (H1 : isOpen s1 ws = true).
  { rewrite <- Hopen. apply (isOpen_alter (bind c (if coin env then X else O)) ws); done. }
  rewrite (isOpen_same_conns s1 (send ws _ s1)) by apply send_conns.
  rewrite H1. by rewrite <- app_assoc.
Qed.

Lemma makeCode_drawn (ds : list (nat * nat * nat * nat)) (rs : gmap string Room)
      (c : string) :
  makeCode ds rs = Some c → ∃ d, d ∈ ds ∧ drawCode d = c ∧ rs !! drawCode d = None.
Proof.
  induction ds as [|d ds IH]; simpl; [done|].
  destruct (rs !! drawCode d) eqn:E.
  - intros H. destruct (IH H) as (d' & Hin & Hd'). exists d'. split; [by right | done].
  - intros [= <-]. exists d. split; [by left | done].
Qed.

(** X3. A create returns, with a new state, exactly when one of the draws
    it is given is not the code of a live room. It then adds exactly one
    room, under a code no live room had, and leaves every other room, every
    other connection and every timer as they were; the sender, and nobody
    else, is sent the code with its symbol and then a state in which it is
    alone. *)
Theorem create_adds_one_room
        (s : Server) (ws : nat) (env : Env)
        (Hopen : isOpen s ws = true) :
  (is_Some (step s (EMessage ws MsgCreate env))
   ↔ ∃ d, d ∈ codeDraws env ∧ rooms s !! drawCode d = None)
  ∧ ∀ s', step s (EMessage ws MsgCreate env) = Some s' →
    ∃ c room view,
      makeCode (codeDraws env) (rooms s) = Some c
      ∧ rooms s !! c = None
      ∧ rooms s' = <[c := room]> (rooms s)
      ∧ size (rooms s') = S (size (rooms s))
      ∧ (∀ c' r', rooms s !! c' = Some r' → rooms s' !! c' = Some r')
      ∧ code room = c ∧ board room = emptyBoard ∧ scores room = mkScores 0 0 0
      ∧ lastActivity room = now env ∧ disconnectTimers room = mkSlots None None
      ∧ (∀ ws', ws' ≠ ws → conns s' !! ws' = conns s !! ws')
      ∧ timers s' = timers s
      ∧ outbox s'
        = outbox s ++ [(ws, Created c (if coin env then X else O)); (ws, State view)]
      ∧ mySymbol view = (if coin env then X else O)
      ∧ playerCount view = 1 ∧ opponentConnected view = false
      ∧ viewBoard view = replicate 9 None.
Proof.
  split.
  - simpl. rewrite Hopen. simpl. unfold onCreate. split.
    + intros [s' Hs'].
      destruct (makeCode (codeDraws env) (rooms s)) as [c|] eqn:Hc; [|done].
      destruct (makeCode_drawn _ _ _ Hc) as (d & Hin & _ & Hfree). by exists d.
    + intros Hfree.
      destruct (makeCode_returns (codeDraws env) (rooms s) Hfree) as [c ->]. by eexists.
  - intros s' Hstep. simpl in Hstep. rewrite Hopen in Hstep. simpl in Hstep.
    destruct (makeCode (codeDraws env) (rooms s)) as [c|] eqn:Hc;
      [|unfold onCreate in Hstep; by rewrite Hc in Hstep].
    pose proof (makeCode_fresh _ _ _ Hc) as Hfree.
    destruct (onCreate_fields ws env s s' c Hopen Hc Hstep) as (Hr & Hcs & Hts & Ho).
    eexists c, _, _. split; [done|]. split; [done|]. split; [exact Hr|].
    split; [rewrite Hr; by apply map_size_insert_None|].
    split.
    { intros c' r' Hr'. rewrite Hr, lookup_insert_ne; [done|]. congruence. }
    do 5 (split; [reflexivity|]).
    split; [intros ws' Hne; rewrite Hcs; by apply list_lookup_alter_ne|].
    split; [done|]. split; [exact Ho|].
    by destruct (coin env).
Qed.

Lemma delivered_same_open (s s' : Server) (to : option nat) (m : ServerMsg) :
  (∀ ws, isOpen s' ws = isOpen s ws) → delivered s' to m = delivered s to m.
Proof. intros H. unfold delivered. destruct to as [ws|]; [|done]. by rewrite H. Qed.

Lemma broadcastRoom_outbox (room : Room) (s : Server) :
  outbox (broadcastRoom room s)
  = outbox s ++ delivered s (slotX (players room)) (State (roomState room X))
             ++ delivered s (slotO (players room)) (State (roomState room O)).
Proof. apply forEachPlayer_outbox. Qed.

(** What a join that finds a free slot writes. *)
Lemma onJoin_outbox (s : Server) (ws : nat) (mc : JsCode) (env : Env)
      (room room' : Room) (sym : Symbol) :
  isOpen s ws = true →
  rooms s !! normalizeCode mc = Some room → availableSlot room = Some sym →
  rooms (onJoin ws mc env s) !! normalizeCode mc = Some room' →
  outbox (onJoin ws mc env s)
  = outbox s ++ [(ws, Joined (normalizeCode mc) sym)]
             ++ delivered s (slotX (players room')) (State (roomState room' X))
             ++ delivered s (slotO (players room')) (State (roomState room' O)).
Proof.
  intros Hopen Hroom Hav. unfold onJoin. rewrite Hroom, Hav.
  destruct (slot (disconnectTimers room) sym) as [t|]; unfold broadcastRoom;
    rewrite forEachPlayer_rooms, send_rooms; simpl; rewrite lookup_insert_eq;
    intros [= <-]; rewrite forEachPlayer_outbox, send_outbox;
    set (s1 := mkServer _ _ _ _);
    (assert (H1 : ∀ ws', isOpen s1 ws' = isOpen s ws')
      by (intros ws'; by apply (isOpen_alter (bind (normalizeCode mc) sym) ws)));
    (assert (H2 : ∀ ws', isOpen (send ws (Joined (normalizeCode mc) sym) s1) ws'
                        = isOpen s ws')
      by (intros ws'; rewrite <- H1; apply isOpen_same_conns, send_conns));
    rewrite !(delivered_same_open s (send ws (Joined (normalizeCode mc) sym) s1)) by done;
    rewrite (delivered_same_open s s1) by done;
    rewrite delivered_open by done; simpl; by rewrite <- !app_assoc.
Qed.

(** X4. The code a create hands out opens the room to a second player: a
    join with that code (in any spelling that normalizes to it) seats the
    sender in the slot the host did not get, with the other symbol; the
    joiner is sent [joined], and then the holder of X and the holder of O
    each get a state that counts two players. *)
Theorem created_code_admits_second_player
        (s s1 : Server) (host guest : nat) (env env' : Env) (mc : JsCode)
        (c : string)
        (Hhost : isOpen s host = true)
        (Hguest : isOpen s guest = true)
        (Hcreate : step s (EMessage host MsgCreate env) = Some s1)
        (Hcode : makeCode (codeDraws env) (rooms s) = Some c)
        (Hmc : normalizeCode mc = c) :
  ∃ r2,
    step s1 (EMessage guest (MsgJoin mc) env') = Some (onJoin guest mc env' s1)
    ∧ rooms (onJoin guest mc env' s1) !! c = Some r2
    ∧ slot (players r2) (if coin env then X else O) = Some host
    ∧ slot (players r2) (if coin env then O else X) = Some guest
    ∧ roomOf (onJoin guest mc env' s1) guest = Some (c, r2)
    ∧ symbolOf (onJoin guest mc env' s1) guest = Some (if coin env then O else X)
    ∧ currentPlayer r2 = X ∧ moveCount r2 = 0 ∧ board r2 = emptyBoard
    ∧ outbox (onJoin guest mc env' s1)
      = outbox s1
        ++ [(guest, Joined c (if coin env then O else X));
            (if coin env then host else guest, State (roomState r2 X));
            (if coin env then guest else host, State (roomState r2 O))]
    ∧ playerCount (roomState r2 X) = 2 ∧ playerCount (roomState r2 O) = 2
    ∧ opponentConnected (roomState r2 X) = true
    ∧ opponentConnected (roomState r2 O) = true.
Proof.
  simpl in Hcreate. rewrite Hhost in Hcreate. simpl in Hcreate.
  destruct (onCreate_fields host env s s1 c Hhost Hcode Hcreate) as (Hr & Hcs & Hts & Ho).
  set (sym := if coin env then X else O) in *.
  set (room := setPlayers (setSlot sym (Some host) (mkSlots None None))
                          (freshRoom c (now env))) in *.
  assert (Hopen1 : ∀ ws, isOpen s1 ws = isOpen s ws)
    by (intros ws; by apply (isOpen_alter (bind c sym) host)).
  assert (Hg1 : isOpen s1 guest = true) by (by rewrite Hopen1).
  assert (Hroom1 : rooms s1 !! normalizeCode mc = Some room)
    by (rewrite Hmc, Hr; apply lookup_insert_eq).
  assert (Hav : availableSlot room = Some (other sym))
    by (unfold room, sym; by destruct (coin env)).
  destruct (isOpen_lookup s1 guest Hg1) as (wg & Hwg & _).
  destruct (onJoin_seated s1 guest mc env' room (other sym) wg Hwg Hroom1 Hav)
    as (r2 & Hr2 & Hseat & Hkeep & Hconn & _ & _ & _ & Hgame).
  pose proof (onJoin_outbox s1 guest mc env' room r2 (other sym) Hg1 Hroom1 Hav Hr2) as Hout.
  assert (Hoo : other (other sym) = sym) by (by destruct sym).
  rewrite Hoo in Hkeep.
  assert (Hhost2 : slot (players r2) sym = Some host)
    by (rewrite Hkeep; unfold room, sym; by destruct (coin env)).
  assert (Hh1 : isOpen s1 host = true) by (by rewrite Hopen1).
  rewrite Hmc in *.
  exists r2. split; [simpl; by rewrite Hg1|]. split; [exact Hr2|].
  assert (E1 : (if coin env then O else X) = other sym) by (unfold sym; by destruct (coin env)).
  rewrite E1. split; [exact Hhost2|]. split; [exact Hseat|].
  split; [apply roomOf_Some; exists (bind c (other sym) wg); by rewrite Hr2|].
  split; [unfold symbolOf; by rewrite Hconn|].
  destruct Hgame as (_ & Hb & Hcur & _ & _ & _ & Hn & _).
  split; [by rewrite Hcur|]. split; [by rewrite Hn|]. split; [by rewrite Hb|].
  rewrite Hout. clear Hout.
  unfold roomState. unfold sym in *.
  destruct (coin env); simpl in Hhost2, Hseat; rewrite ?Hhost2, ?Hseat; simpl;
    rewrite ?Hh1, ?Hg1, ?Hhost2, ?Hseat; simpl; repeat split; done.
Qed.

(** ** Reset and new: the round, the seats, the notifications *)

Lemma isOpen_setSymbol (sym : Symbol) (w : nat) (s : Server) (ws : nat) :
  isOpen (setConns (alter (setSymbol sym) w (conns s)) s) ws = isOpen s ws.
Proof. by apply (isOpen_alter (setSymbol sym) w). Qed.

Lemma isOpen_alter_twice (f g : Conn → Conn) (a b ws : nat) (s s' : Server) :
  (∀ w, readyState (f w) = readyState w) → (∀ w, readyState (g w) = readyState w) →
  conns s' = alter f a (alter g b (conns s)) → isOpen s' ws = isOpen s ws.
Proof.
  intros Hf Hg Hc.
  rewrite (isOpen_alter f a ws (setConns (alter g b (conns s)) s) s') by done.
  by apply (isOpen_alter g b).
Qed.

Lemma isOpen_reshuffle (swap : bool) (room : Room) (s s' : Server) (ws : nat) :
  conns s' = snd (reshufflePlayers swap room (conns s)) → isOpen s' ws = isOpen s ws.
Proof.
  intros Hc. unfold reshufflePlayers in Hc.
  destruct swap, (slotX (players room)) as [x|], (slotO (players room)) as [o|];
    simpl in Hc;
    first
      [ by apply isOpen_same_conns
      | by eapply (isOpen_alter (setSymbol X))
      | by eapply (isOpen_alter (setSymbol O))
      | by eapply (isOpen_alter_twice (setSymbol O) (setSymbol X)) ].
Qed.

(** The state a reset or new ends in, field by field. *)
Lemma restart_fields (keep : Scores → Scores) (ws : nat) (env : Env) (s : Server)
      (c : string) (room : Room) :
  roomOf s ws = Some (c, room) →
  ∃ room',
    rooms (restart keep ws env s) = <[c := room']> (rooms s)
    ∧ roundStart room' ∧ scores room' = keep (scores room) ∧ code room' = code room
    ∧ disconnectTimers room' = disconnectTimers room ∧ lastActivity room' = now env
    ∧ slotX (players room')
      = (if coin env then slotO (players room) else slotX (players room))
    ∧ slotO (players room')
      = (if coin env then slotX (players room) else slotO (players room))
    ∧ timers (restart keep ws env s) = timers s
    ∧ (∀ ws', isOpen (restart keep ws env s) ws' = isOpen s ws')
    ∧ outbox (restart keep ws env s)
      = outbox s
        ++ delivered s (slotX (players room')) (SymbolUpdate X)
        ++ delivered s (slotO (players room')) (SymbolUpdate O)
        ++ delivered s (slotX (players room')) (State (roomState room' X))
        ++ delivered s (slotO (players room')) (State (roomState room' O)).
Proof.
  intros Hroom. unfold restart. rewrite Hroom.
  pose proof (reshuffle_result (coin env) (clearedRoom keep room) (conns s))
    as (H1 & H2 & H3 & H4 & _).
  pose proof (isOpen_reshuffle (coin env) (clearedRoom keep room) s) as Hopen.
  destruct (reshufflePlayers (coin env) (clearedRoom keep room) (conns s))
    as [room1 cs] eqn:E.
  simpl in H1, H2, H3, H4, Hopen.
  exists (setLastActivity (now env) room1).
  set (room2 := setLastActivity (now env) room1).
  set (s1 := mkServer _ cs _ _).
  assert (Ho1 : ∀ ws', isOpen s1 ws' = isOpen s ws') by (intros ws'; by apply Hopen).
  assert (Ho2 : ∀ ws', isOpen (forEachPlayer SymbolUpdate room2 s1) ws' = isOpen s ws').
  { intros ws'. rewrite <- Ho1. apply isOpen_same_conns, forEachPlayer_conns. }
  unfold broadcastRoom.
  rewrite !forEachPlayer_rooms, !forEachPlayer_timers, !forEachPlayer_outbox.
  rewrite !(delivered_same_open s (forEachPlayer SymbolUpdate room2 s1)) by done.
  rewrite !(delivered_same_open s s1) by done.
  split; [done|].
  assert (Hfields : board room1 = emptyBoard ∧ winner room1 = None
                    ∧ winningLine room1 = None ∧ isDraw room1 = false
                    ∧ scores room1 = keep (scores room) ∧ code room1 = code room
                    ∧ disconnectTimers room1 = disconnectTimers room).
  { unfold reshufflePlayers in E.
    destruct (coin env); simpl in E; injection E as <- _; by repeat split. }
  destruct Hfields as (Hb & Hw & Hl & Hd & Hsc & Hco & Hdt).
  split; [by repeat split|]. split; [done|]. split; [done|]. split; [done|].
  split; [done|]. split; [done|]. split; [done|]. split; [done|].
  split.
  - intros ws'. rewrite <- Ho2. apply isOpen_same_conns, forEachPlayer_conns.
  - simpl. by rewrite <- !app_assoc.
Qed.

(** X5. A new gives the room the scores 0, 0, 0 whatever they were, with an
    empty board, no winner, no winning line, no draw and [moveCount] 0; it
    keeps the code of the room and the timers recorded for its slots. When
    the room of the connection no longer exists it changes nothing and sends
    nothing. [/api/new] replaces the single game by a new one. *)
Theorem new_zeroes_scores_and_clears_round
        (s : Server) (ws : nat) (env : Env)
        (Hopen : isOpen s ws = true) :
  (roomOf s ws = None → step s (EMessage ws MsgNew env) = Some s)
  ∧ (∀ c room, roomOf s ws = Some (c, room) →
       ∃ s' room',
         step s (EMessage ws MsgNew env) = Some s'
         ∧ rooms s' !! c = Some room'
         ∧ scores room' = mkScores 0 0 0
         ∧ board room' = emptyBoard
         ∧ winner room' = None ∧ winningLine room' = None
         ∧ isDraw room' = false ∧ moveCount room' = 0
         ∧ code room' = code room
         ∧ disconnectTimers room' = disconnectTimers room)
  ∧ (∀ g : Http.Game, fst (Http.newGame g) = Http.createNewGame).
Proof.
  split; [|split].
  - intros Hnone. simpl. rewrite Hopen. simpl. unfold onNew, restart. by rewrite Hnone.
  - intros c room Hroom.
    destruct (restart_fields (λ _, mkScores 0 0 0) ws env s c room Hroom)
      as (room' & Hr & (Hb & _ & Hw & Hl & Hd & Hn) & Hsc & Hco & Hdt & _).
    exists (onNew ws env s), room'. simpl. rewrite Hopen. simpl.
    split; [done|]. split; [unfold onNew; rewrite Hr; apply lookup_insert_eq|].
    by repeat split.
  - done.
Qed.

(** X6. A reset or a new touches one room only: every other room, every
    timer and the open or closed state of every connection stay, and the
    room keeps the timers recorded for its slots while its [lastActivity]
    becomes the time of the message. The connection now stored in slot X is
    sent [symbolUpdate] X and the one in slot O [symbolUpdate] O, then each
    is sent the state of the new round, and nothing else is written. *)
Theorem restart_notifies_the_two_slots
        (s : Server) (ws : nat) (msg : ClientMsg) (env : Env)
        (c : string) (room : Room)
        (Hopen : isOpen s ws = true)
        (Hmsg : msg = MsgReset ∨ msg = MsgNew)
        (Hroom : roomOf s ws = Some (c, room)) :
  ∃ s' room',
    step s (EMessage ws msg env) = Some s'
    ∧ rooms s' = <[c := room']> (rooms s)
    ∧ (∀ c' r', c' ≠ c → rooms s !! c' = Some r' → rooms s' !! c' = Some r')
    ∧ timers s' = timers s
    ∧ (∀ ws', isOpen s' ws' = isOpen s ws')
    ∧ disconnectTimers room' = disconnectTimers room
    ∧ lastActivity room' = now env
    ∧ viewBoard (roomState room' X) = replicate 9 None
    ∧ outbox s'
      = outbox s
        ++ delivered s (slotX (players room')) (SymbolUpdate X)
        ++ delivered s (slotO (players room')) (SymbolUpdate O)
        ++ delivered s (slotX (players room')) (State (roomState room' X))
        ++ delivered s (slotO (players room')) (State (roomState room' O)).
Proof.
  assert (Hgen : ∀ keep, ∃ room',
             rooms (restart keep ws env s) = <[c := room']> (rooms s)
             ∧ (∀ c' r', c' ≠ c → rooms s !! c' = Some r' →
                         rooms (restart keep ws env s) !! c' = Some r')
             ∧ timers (restart keep ws env s) = timers s
             ∧ (∀ ws', isOpen (restart keep ws env s) ws' = isOpen s ws')
             ∧ disconnectTimers room' = disconnectTimers room
             ∧ lastActivity room' = now env
             ∧ viewBoard (roomState room' X) = replicate 9 None
             ∧ outbox (restart keep ws env s)
               = outbox s
                 ++ delivered s (slotX (players room')) (SymbolUpdate X)
                 ++ delivered s (slotO (players room')) (SymbolUpdate O)
                 ++ delivered s (slotX (players room')) (State (roomState room' X))
                 ++ delivered s (slotO (players room')) (State (roomState room' O))).
  { intros keep.
    destruct (restart_fields keep ws env s c room Hroom)
      as (room' & Hr & (Hb & _) & _ & _ & Hdt & Hla & _ & _ & Hts & Hop & Hout).
    exists room'. split; [done|]. split.
    { intros c' r' Hne Hr'. rewrite Hr. by rewrite lookup_insert_ne. }
    split; [done|]. split; [done|]. split; [done|]. split; [done|].
    split; [simpl; by rewrite Hb|]. done. }
  simpl. rewrite Hopen. destruct Hmsg as [-> | ->]; simpl.
  - destruct (Hgen (λ sc, sc)) as (room' & H). by exists (onReset ws env s), room'.
  - destruct (Hgen (λ _, mkScores 0 0 0)) as (room' & H). by exists (onNew ws env s), room'.
Qed.

(** ** An accepted move *)

Lemma applyMove_lastActivity (room : Room) (q : Q) (sym : Symbol) (t : Z) :
  lastActivity (applyMove room q sym t) = t.
Proof.
  unfold applyMove. destruct (checkWinner _) as [[w line]|]; [|case_bool_decide]; done.
Qed.

(** X7. An accepted move changes one room and nothing else: the other
    rooms, the connections, the timers, and in the room the seats and the
    recorded timers stay; [moveCount] goes up by one and [lastActivity] is
    the time of the move. The holder of X and then the holder of O, where
    open, are each sent one state, and nothing else is written. With an
    integer index that state shows the mover's symbol in the cell; with any
    other number it shows the nine cells as they were. *)
Theorem accepted_move_is_broadcast
        (s : Server) (ws : nat) (c : string) (room : Room) (q : Q) (env : Env)
        (Hopen : isOpen s ws = true)
        (Hacc : accepted s ws c room q)
        (Hnine : length (cells (board room)) = 9) :
  ∃ s' room',
    step s (EMessage ws (MsgMove (JsNumber q)) env) = Some s'
    ∧ rooms s' = <[c := room']> (rooms s)
    ∧ (∀ c' r', c' ≠ c → rooms s !! c' = Some r' → rooms s' !! c' = Some r')
    ∧ conns s' = conns s ∧ timers s' = timers s
    ∧ players room' = players room
    ∧ disconnectTimers room' = disconnectTimers room
    ∧ code room' = code room
    ∧ moveCount room' = S (moveCount room)
    ∧ lastActivity room' = now env
    ∧ outbox s'
      = outbox s
        ++ delivered s (slotX (players room)) (State (roomState room' X))
        ++ delivered s (slotO (players room)) (State (roomState room' O))
    ∧ (∀ i, cellIndex q = Some i →
            viewBoard (roomState room' X) = <[i := Some (currentPlayer room)]> (cells (board room))
            ∧ viewBoard (roomState room' X) !! i = Some (Some (currentPlayer room)))
    ∧ (cellIndex q = None → viewBoard (roomState room' X) = cells (board room)).
Proof.
  exists (onMove ws (JsNumber q) env s), (applyMove room q (currentPlayer room) (now env)).
  pose proof (onMove_accepted s ws q env c room Hacc) as Hmove.
  destruct (applyMove_players room q (currentPlayer room) (now env)) as (Hp & Hdt & Hco).
  destruct (applyMove_board room q (currentPlayer room) (now env)) as (Hb & Hn).
  destruct Hacc as (_ & _ & Hq). apply refused_false in Hq as (_ & Hq8 & _).
  split; [simpl; by rewrite Hopen|].
  rewrite Hmove. unfold broadcastRoom.
  rewrite forEachPlayer_rooms, forEachPlayer_conns, forEachPlayer_timers,
          forEachPlayer_outbox. simpl.
  split; [done|]. split.
  { intros c' r' Hne Hr'. by rewrite lookup_insert_ne. }
  split; [done|]. split; [done|]. split; [done|]. split; [done|]. split; [done|].
  split; [done|]. split; [apply applyMove_lastActivity|]. rewrite Hp, Hb.
  split; [done|]. unfold boardSet. split.
  - intros i Hi. rewrite Hi. simpl. split; [done|].
    apply list_lookup_insert_eq. pose proof (cellIndex_le q i Hi Hq8).
    unfold Cell in *. lia.
  - intros Hi. by rewrite Hi.
Qed.

(** ** Rooms that are gone *)

(** X8. A connection whose code names no live room (it never had one, or
    its room was swept or closed) is ignored: its move, reset and new
    change nothing and send nothing, not even an error; its disconnect
    marks it closed and touches no room, no timer and no inbox. *)
Theorem message_without_room_changes_nothing
        (s : Server) (ws : nat) (env : Env)
        (Hopen : isOpen s ws = true)
        (Hnone : roomOf s ws = None) :
  (∀ index, step s (EMessage ws (MsgMove index) env) = Some s)
  ∧ step s (EMessage ws MsgReset env) = Some s
  ∧ step s (EMessage ws MsgNew env) = Some s
  ∧ ∃ s', step s (EClose ws) = Some s'
          ∧ rooms s' = rooms s ∧ timers s' = timers s ∧ outbox s' = outbox s
          ∧ isOpen s' ws = false
          ∧ ∀ ws', ws' ≠ ws → conns s' !! ws' = conns s !! ws'.
Proof.
  split; [|split; [|split]].
  - intros index. simpl. rewrite Hopen. simpl. unfold onMove. by rewrite Hnone.
  - simpl. rewrite Hopen. simpl. unfold onReset, restart. by rewrite Hnone.
  - simpl. rewrite Hopen. simpl. unfold onNew, restart. by rewrite Hnone.
  - eexists. simpl. rewrite Hopen. split; [reflexivity|].
    unfold onClose. rewrite roomOf_after_close, Hnone. simpl.
    split; [done|]. split; [done|]. split; [done|]. split.
    + rewrite isOpen_after_close. rewrite bool_decide_eq_true_2 by done.
      by rewrite andb_false_r.
    + intros ws' Hne. by rewrite list_lookup_alter_ne.
Qed.

Lemma timerCallback_frame (tm : Timer) (s : Server) :
  conns (timerCallback tm s) = conns s ∧ timers (timerCallback tm s) = timers s.
Proof.
  unfold timerCallback. destruct (roomOf s (timerWs tm)) as [[c r]|]; [|done].
  case_bool_decide; [|done]. simpl.
  by destruct (slot (players r) (other (timerSym tm))); rewrite ?send_conns, ?send_timers.
Qed.

(** X9. A grace timer runs its callback at most once: firing marks it spent
    and firing it again changes nothing. Firing never changes a connection
    or another timer and never alters a room, it can only delete one; when
    the room of the closed connection is already gone it changes no room
    and sends nothing. *)
Theorem timer_fires_at_most_once (s : Server) (t : nat) :
  onTimeout t (onTimeout t s) = onTimeout t s
  ∧ (∀ tm, timers (onTimeout t s) !! t = Some tm → timerPending tm = false)
  ∧ (∀ t', t' ≠ t → timers (onTimeout t s) !! t' = timers s !! t')
  ∧ conns (onTimeout t s) = conns s
  ∧ (∀ c r, rooms (onTimeout t s) !! c = Some r → rooms s !! c = Some r)
  ∧ (∀ tm, timers s !! t = Some tm → roomOf s (timerWs tm) = None →
           rooms (onTimeout t s) = rooms s ∧ outbox (onTimeout t s) = outbox s).
Proof.
  assert (Hspent : ∀ tm, timers (onTimeout t s) !! t = Some tm → timerPending tm = false).
  { unfold onTimeout. destruct (timers s !! t) as [tm0|] eqn:E; [|by rewrite E].
    destruct (timerPending tm0) eqn:Hp.
    - destruct (timerCallback_frame tm0 (setTimers (clearTimeout t (timers s)) s))
        as [_ ->]. simpl. apply clearTimeout_lookup.
    - intros tm. rewrite E. by intros [= <-]. }
  split; [by apply onTimeout_not_pending|]. split; [exact Hspent|].
  split; [|split; [|split]].
  - intros t' Hne. unfold onTimeout. destruct (timers s !! t) as [tm0|]; [|done].
    destruct (timerPending tm0); [|done].
    destruct (timerCallback_frame tm0 (setTimers (clearTimeout t (timers s)) s))
      as [_ ->]. simpl. unfold clearTimeout. by rewrite list_lookup_alter_ne.
  - unfold onTimeout. destruct (timers s !! t) as [tm0|]; [|done].
    destruct (timerPending tm0); [|done].
    by destruct (timerCallback_frame tm0 (setTimers (clearTimeout t (timers s)) s))
      as [-> _].
  - intros c r. destruct (onTimeout_rooms t s) as [-> | [c0 ->]]; [done|].
    intros H. by apply lookup_delete_Some in H as [_ H].
  - intros tm Htm Hgone. unfold onTimeout. rewrite Htm.
    destruct (timerPending tm); [|done]. unfold timerCallback.
    by rewrite roomOf_setTimers, Hgone.
Qed.

Lemma sweep_rooms_eq (t t' : Z) (s : Server) :
  (t <= t')%Z → rooms (sweep t' (sweep t s)) = rooms (sweep t' s).
Proof.
  intros Hle. apply map_eq. intros c. apply option_eq. intros r.
  rewrite !sweep_lookup. split; [tauto|]. intros [Hr Hk]. repeat split; try done. lia.
Qed.

(** X10. The sweep deletes exactly the rooms idle for more than ten minutes
    and leaves the others, the connections, the timers and the inboxes as
    they were; a room active within the last ten minutes always survives.
    Sweeping twice at one time is sweeping once, and a later sweep makes an
    earlier one redundant. A join with the code of a room the sweep removed
    is answered with 'Room not found'. *)
Theorem sweep_removes_idle_rooms (s : Server) (t : Z) :
  (∀ c r, rooms (sweep t s) !! c = Some r ↔
          rooms s !! c = Some r ∧ (t - lastActivity r <= 10 * 60 * 1000)%Z)
  ∧ conns (sweep t s) = conns s ∧ timers (sweep t s) = timers s
  ∧ outbox (sweep t s) = outbox s
  ∧ sweep t (sweep t s) = sweep t s
  ∧ (∀ t', (t <= t')%Z → sweep t' (sweep t s) = sweep t' s)
  ∧ (∀ ws mc env r,
        isOpen s ws = true → rooms s !! normalizeCode mc = Some r →
        (t - lastActivity r > 10 * 60 * 1000)%Z →
        step (sweep t s) (EMessage ws (MsgJoin mc) env)
        = Some (rejectedWith "Room not found" ws (sweep t s))).
Proof.
  assert (Hlater : ∀ t', (t <= t')%Z → sweep t' (sweep t s) = sweep t' s).
  { intros t' Hle. pose proof (sweep_rooms_eq t t' s Hle) as H.
    unfold sweep in *. simpl in *. unfold setRooms. simpl. by rewrite H. }
  split; [|split; [|split; [|split; [|split; [|split]]]]]; try done.
  - intros c r. rewrite sweep_lookup. unfold ROOM_TTL. split; intros [H1 H2]; (split; [done|lia]).
  - by apply Hlater.
  - intros ws mc env r Hopen Hr Hidle.
    assert (Ho : isOpen (sweep t s) ws = true) by done.
    simpl. rewrite Ho. simpl. unfold onJoin.
    assert (Hgone : rooms (sweep t s) !! normalizeCode mc = None).
    { destruct (rooms (sweep t s) !! normalizeCode mc) as [r'|] eqn:E; [|done].
      apply sweep_lookup in E as [E Hk]. assert (r' = r) as -> by congruence.
      unfold ROOM_TTL in Hk. lia. }
    rewrite Hgone. by rewrite send_open.
Qed.

(** ** Invariants of a round *)

Lemma roundInvariant_start :
  roundInvariant (replicate 9 None) X None None false 0.
Proof.
  unfold roundInvariant. split; [done|]. split; [done|]. split; [lia|].
  split; [|done]. split; [done|]. by intros [? _].
Qed.

(** The three ways a move can end, as both move handlers compute them. *)
Lemma roundInvariant_move (b b' : list Cell) (cur : Symbol) (n : nat) :
  roundInvariant b cur None None false n →
  match checkWinner b' with
  | Some (w, line) => roundInvariant b' cur (Some w) (Some line) false (S n)
  | None =>
      if bool_decide (S n = 9) then roundInvariant b' cur None None true (S n)
      else roundInvariant b' (other cur) None None false (S n)
  end.
Proof.
  intros (_ & _ & Hn & Hd & Hcur).
  assert (Hlt : n < 9).
  { destruct (decide (n = 9)) as [->|Hne]; [|lia].
    destruct Hd as [_ Hd]. by discriminate Hd. }
  unfold over in Hcur. simpl in Hcur. rewrite xorb_false_r in Hcur.
  unfold roundInvariant, over. rewrite Nat.even_succ, <- Nat.negb_even.
  destruct (checkWinner b') as [[w line]|]; [|case_bool_decide as H9]; simpl.
  - split; [done|]. split; [done|]. split; [lia|]. split.
    + split; [done|]. by intros [_ ?].
    + rewrite Hcur. by destruct (Nat.even n).
  - split; [done|]. split; [done|]. split; [lia|]. split; [done|].
    rewrite Hcur. by destruct (Nat.even n).
  - split; [done|]. split; [done|]. split; [lia|]. split.
    + split; [done|]. by intros [? _].
    + rewrite Hcur. by destruct (Nat.even n).
Qed.

Lemma roundInvariant_line (b : list Cell) (cur : Symbol) (w : option Symbol)
      (l : option (nat * nat * nat)) (d : bool) (n : nat) :
  roundInvariant b cur w l d n → w = None → l = None.
Proof.
  intros (Hw & Hl & _) ->. rewrite Hl. by destruct (checkWinner b).
Qed.

Lemma roomChange_invariant (o : option Room) (r' : Room) :
  roomChange o r' → (∀ r, o = Some r → roomInvariant r) → roomInvariant r'.
Proof.
  unfold roomInvariant.
  intros [r r1 Hg | r1 Hs | r q t r1 Hq Hg | r r1 Hs] Hold.
  - destruct Hg as (_ & -> & -> & -> & -> & -> & -> & _). by apply Hold.
  - destruct Hs as (-> & -> & -> & -> & -> & ->). apply roundInvariant_start.
  - destruct Hg as (_ & -> & -> & -> & -> & -> & -> & _).
    apply refused_false in Hq as (_ & _ & _ & Hw & Hd).
    pose proof (Hold r eq_refl) as Hr.
    pose proof (roundInvariant_line _ _ _ _ _ _ Hr Hw) as Hl.
    rewrite Hw, Hl, Hd in Hr.
    pose proof (roundInvariant_move _
                  (cells (boardSet (board r) q (currentPlayer r))) _ _ Hr) as Hm.
    unfold applyMove.
    destruct (checkWinner (cells (boardSet (board r) q (currentPlayer r))))
      as [[w line]|]; [|case_bool_decide]; simpl; rewrite ?Hw, ?Hl, ?Hd; exact Hm.
  - destruct Hs as (-> & -> & -> & -> & -> & ->). apply roundInvariant_start.
Qed.

Lemma reachable_roomInvariant (es : list Event) (s : Server) (c : string) (r : Room) :
  run initial es = Some s → rooms s !! c = Some r → roomInvariant r.
Proof.
  intros Hrun. revert c r.
  refine (run_invariant (λ s, ∀ c r, rooms s !! c = Some r → roomInvariant r)
                        _ _ es s Hrun).
  - intros c r Hr. simpl in Hr. by rewrite lookup_empty in Hr.
  - intros s0 e s1 IH Hstep c r1 Hr1.
    eapply roomChange_invariant; [exact (step_roomChange s0 s1 e c r1 Hstep Hr1)|].
    intros r0 Hr0. by apply (IH c).
Qed.

Lemma Http_handle_invariant (g : Http.Game) (r : Http.Request) :
  gameInvariant g → gameInvariant (Http.handle g r).
Proof.
  unfold gameInvariant. intros Hg.
  destruct r as [[q| |]| |]; simpl; try done; try apply roundInvariant_start.
  destruct (negb (Qle_bool 0 q) || negb (Qle_bool q 8)); [done|].
  destruct (Http.taken (Http.board g) q); [done|].
  destruct (bool_decide (Http.winner g ≠ None) || Http.isDraw g) eqn:Hover; [done|].
  apply orb_false_iff in Hover as [Hw Hd]. apply bool_decide_eq_false in Hw.
  assert (Hw' : Http.winner g = None) by (destruct (Http.winner g); [by destruct Hw|done]).
  pose proof (roundInvariant_line _ _ _ _ _ _ Hg Hw') as Hl.
  rewrite Hw', Hl, Hd in Hg.
  pose proof (roundInvariant_move _
                (Http.boardSet (Http.board g) q (Http.currentPlayer g)) _ _ Hg) as Hm.
  simpl. unfold Http.applyMove.
  destruct (checkWinner (Http.boardSet (Http.board g) q (Http.currentPlayer g)))
    as [[w line]|]; [|case_bool_decide]; simpl; rewrite ?Hw', ?Hl, ?Hd; exact Hm.
Qed.

Lemma Http_reachable_invariant (rs : list Http.Request) :
  gameInvariant (foldl Http.handle Http.createNewGame rs).
Proof.
  assert (H : ∀ g, gameInvariant g → gameInvariant (foldl Http.handle g rs)).
  { induction rs as [|r rs IH]; intros g Hg; [done|].
    simpl. apply IH. by apply Http_handle_invariant. }
  apply H. apply roundInvariant_start.
Qed.

Lemma checkWinner_Some_line (b : list Cell) (w : Symbol) (p : nat * nat * nat) :
  checkWinner b = Some (w, p) → p ∈ WIN_PATTERNS ∧ occupiedBy b w p.
Proof.
  intros H. apply checkWinnerIn_Some in H as (i & Hi & Hocc & _).
  split; [|done]. by eapply list_elem_of_lookup_2.
Qed.

Lemma roundInvariant_no_line (b : list Cell) (cur : Symbol) (l : option (nat * nat * nat))
      (d : bool) (n : nat) :
  roundInvariant b cur None l d n → checkWinner b = None.
Proof. intros (Hw & _). by destruct (checkWinner b). Qed.

(** A line that is complete once [sym] is put on a board without a complete
    line is a line of [sym]. *)
Lemma new_line_is_the_movers (b : list Cell) (i : nat) (sym w : Symbol)
      (p : nat * nat * nat) :
  checkWinner b = None → checkWinner (<[i := Some sym]> b) = Some (w, p) → w = sym.
Proof.
  intros Hnone Hsome. apply checkWinner_Some_line in Hsome as [Hp Hocc].
  destruct (decide (w = sym)) as [|Hne]; [done|]. exfalso.
  apply (proj1 (checkWinnerIn_None WIN_PATTERNS b) Hnone p Hp w).
  assert (Hold : ∀ a, <[i := Some sym]> b !! a = Some (Some w) → b !! a = Some (Some w)).
  { intros a Ha. apply list_lookup_insert_Some in Ha as [(_ & Heq & _) | [_ Ha]]; [|done].
    by simplify_eq. }
  destruct p as [[x y] z]. destruct Hocc as (Hx & Hy & Hz).
  repeat split; by apply Hold.
Qed.

Lemma roomChange_winner_moved (o : option Room) (r' : Room) :
  roomChange o r' →
  (∀ r, o = Some r → roomInvariant r ∧ ∀ w, winner r = Some w → currentPlayer r = w) →
  ∀ w, winner r' = Some w → currentPlayer r' = w.
Proof.
  intros [r r1 Hg | r1 Hs | r q t r1 Hq Hg | r r1 Hs] Hold w.
  - destruct Hg as (_ & _ & -> & -> & _). by apply Hold.
  - destruct Hs as (_ & _ & -> & _). done.
  - destruct Hg as (_ & _ & -> & -> & _).
    apply refused_false in Hq as (_ & _ & _ & Hw & _).
    destruct (Hold r eq_refl) as [Hr _]. unfold roomInvariant in Hr. rewrite Hw in Hr.
    apply roundInvariant_no_line in Hr.
    unfold applyMove.
    destruct (checkWinner (cells (boardSet (board r) q (currentPlayer r))))
      as [[w0 line]|] eqn:E; [|case_bool_decide]; simpl; rewrite ?Hw; try done.
    intros [= <-]. symmetry. unfold boardSet in E.
    destruct (cellIndex q) as [i|]; simpl in E.
    + by eapply new_line_is_the_movers.
    + congruence.
  - destruct Hs as (_ & _ & -> & _). done.
Qed.

Lemma reachable_winner_moved (es : list Event) (s : Server) (c : string) (r : Room) :
  run initial es = Some s → rooms s !! c = Some r →
  ∀ w, winner r = Some w → currentPlayer r = w.
Proof.
  intros Hrun Hr.
  enough (H : roomInvariant r ∧ ∀ w, winner r = Some w → currentPlayer r = w) by apply H.
  revert c r Hr.
  refine (run_invariant
            (λ s, ∀ c r, rooms s !! c = Some r →
                         roomInvariant r ∧ ∀ w, winner r = Some w → currentPlayer r = w)
            _ _ es s Hrun).
  - intros c r Hr. simpl in Hr. by rewrite lookup_empty in Hr.
  - intros s0 e s1 IH Hstep c r1 Hr1.
    pose proof (step_roomChange s0 s1 e c r1 Hstep Hr1) as Hch. split.
    + eapply roomChange_invariant; [exact Hch|]. intros r0 Hr0. by apply (IH c).
    + eapply roomChange_winner_moved; [exact Hch|]. intros r0 Hr0. by apply (IH c).
Qed.

Lemma Http_winner_moved (rs : list Http.Request) :
  ∀ w, Http.winner (foldl Http.handle Http.createNewGame rs) = Some w →
       Http.currentPlayer (foldl Http.handle Http.createNewGame rs) = w.
Proof.
  enough (H : ∀ g, gameInvariant g
                   ∧ (∀ w, Http.winner g = Some w → Http.currentPlayer g = w) →
                   ∀ w, Http.winner (foldl Http.handle g rs) = Some w →
                        Http.currentPlayer (foldl Http.handle g rs) = w).
  { apply H. split; [apply roundInvariant_start | done]. }
  induction rs as [|r rs IH]; intros g [Hg Hm]; [done|].
  simpl. apply IH. split; [by apply Http_handle_invariant|].
  destruct r as [[q| |]| |]; simpl; try done.
  destruct (negb (Qle_bool 0 q) || negb (Qle_bool q 8)); [done|].
  destruct (Http.taken (Http.board g) q); [done|].
  destruct (bool_decide (Http.winner g ≠ None) || Http.isDraw g) eqn:Hover; [done|].
  apply orb_false_iff in Hover as [Hw Hd]. apply bool_decide_eq_false in Hw.
  assert (Hw' : Http.winner g = None) by (destruct (Http.winner g); [by destruct Hw|done]).
  unfold gameInvariant in Hg. rewrite Hw' in Hg. apply roundInvariant_no_line in Hg.
  simpl. unfold Http.applyMove.
  destruct (checkWinner (Http.boardSet (Http.board g) q (Http.currentPlayer g)))
    as [[w0 line]|] eqn:E; [|case_bool_decide]; simpl; rewrite ?Hw'; try done.
  intros w [= <-]. symmetry. unfold Http.boardSet in E.
  destruct (cellIndex q) as [i|].
  - by eapply new_line_is_the_movers.
  - congruence.
Qed.

(** X11. In every state the server reaches, and in the single game after
    every sequence of requests, the stored [winner] and [winningLine] are
    what [checkWinner] finds on the stored board: a stored winner has its
    three cells of the stored line, a line of the table, on the board, and
    while no winner is stored no line of the table is complete. *)
Theorem stored_winner_is_on_the_board
        (es : list Event) (s : Server) (c : string) (r : Room) (rs : list Http.Request)
        (Hrun : run initial es = Some s) (Hr : rooms s !! c = Some r) :
  (winner r = fst <$> checkWinner (cells (board r))
   ∧ winningLine r = snd <$> checkWinner (cells (board r)))
  ∧ (∀ w, winner r = Some w →
          ∃ line, winningLine r = Some line ∧ line ∈ WIN_PATTERNS
                  ∧ occupiedBy (cells (board r)) w line)
  ∧ (winner r = None →
     ∀ line, line ∈ WIN_PATTERNS → ∀ w, ¬ occupiedBy (cells (board r)) w line)
  ∧ let g := foldl Http.handle Http.createNewGame rs in
    Http.winner g = fst <$> checkWinner (Http.board g)
    ∧ Http.winningLine g = snd <$> checkWinner (Http.board g).
Proof.
  destruct (reachable_roomInvariant es s c r Hrun Hr) as (Hw & Hl & _).
  split; [done|]. split; [|split].
  - intros w Hsome. rewrite Hsome in Hw. rewrite Hl.
    destruct (checkWinner (cells (board r))) as [[w0 line]|] eqn:E; [|done].
    simpl in Hw. injection Hw as ->.
    apply checkWinner_Some_line in E as [Hin Hocc]. by exists line.
  - intros Hnone. rewrite Hnone in Hw.
    apply (proj1 (checkWinnerIn_None WIN_PATTERNS (cells (board r)))).
    unfold checkWinner in Hw. by destruct (checkWinnerIn WIN_PATTERNS (cells (board r))).
  - simpl. by destruct (Http_reachable_invariant rs) as (Hw' & Hl' & _).
Qed.

(** After X took the top row, the stored line (0, 1, 2) is on the board. *)
Lemma stored_winner_is_on_the_board_witness :
  run initial topRow = Some (stateAfter topRow)
  ∧ rooms (stateAfter topRow) !! "AAAA" = Some (roomAt (stateAfter topRow) "AAAA")
  ∧ winner (roomAt (stateAfter topRow) "AAAA")
    = fst <$> checkWinner (cells (board (roomAt (stateAfter topRow) "AAAA"))).
Proof.
  assert (Hrun : run initial topRow = Some (stateAfter topRow)) by by_running.
  assert (Hr : rooms (stateAfter topRow) !! "AAAA"
               = Some (roomAt (stateAfter topRow) "AAAA")) by by_running.
  split; [exact Hrun|]. split; [exact Hr|].
  exact (proj1 (proj1 (stored_winner_is_on_the_board
                         topRow (stateAfter topRow) "AAAA"
                         (roomAt (stateAfter topRow) "AAAA") [] Hrun Hr))).
Defined.

(** X12. In every state the server reaches, and in the single game after
    every sequence of requests, [moveCount] is at most 9 and [isDraw] is set
    exactly when [moveCount] is 9 and no winner is stored: a move is never
    accepted after the ninth, and a room never shows a draw and a winner. *)
Theorem draw_is_nine_moves_without_winner
        (es : list Event) (s : Server) (c : string) (r : Room) (rs : list Http.Request)
        (Hrun : run initial es = Some s) (Hr : rooms s !! c = Some r) :
  (moveCount r ≤ 9 ∧ (isDraw r = true ↔ moveCount r = 9 ∧ winner r = None))
  ∧ (moveCount r = 9 → ∀ q, refused r q = true)
  ∧ let g := foldl Http.handle Http.createNewGame rs in
    Http.moveCount g ≤ 9
    ∧ (Http.isDraw g = true ↔ Http.moveCount g = 9 ∧ Http.winner g = None).
Proof.
  destruct (reachable_roomInvariant es s c r Hrun Hr) as (_ & _ & Hn & Hd & _).
  split; [done|]. split.
  - intros H9 q. apply refused_true. right; right; right. unfold decided.
    destruct (winner r) as [w|] eqn:Hw; [by left|]. right. by apply Hd.
  - simpl. by destruct (Http_reachable_invariant rs) as (_ & _ & Hn' & Hd' & _).
Qed.

(** The room with eight cells filled, before the ninth move. *)
Lemma draw_is_nine_moves_without_winner_witness :
  run initial eightCells = Some (stateAfter eightCells)
  ∧ rooms (stateAfter eightCells) !! "AAAA" = Some (roomAt (stateAfter eightCells) "AAAA")
  ∧ moveCount (roomAt (stateAfter eightCells) "AAAA") ≤ 9.
Proof.
  assert (Hrun : run initial eightCells = Some (stateAfter eightCells)) by by_running.
  assert (Hr : rooms (stateAfter eightCells) !! "AAAA"
               = Some (roomAt (stateAfter eightCells) "AAAA")) by by_running.
  split; [exact Hrun|]. split; [exact Hr|].
  exact (proj1 (proj1 (draw_is_nine_moves_without_winner
                         eightCells (stateAfter eightCells) "AAAA"
                         (roomAt (stateAfter eightCells) "AAAA") [] Hrun Hr))).
Defined.

(** X13. In every state the server reaches, and in the single game after
    every sequence of requests, the turn follows from the count of accepted
    moves: while the round is open it is X's turn exactly on even counts;
    once the round is over the turn stays with the last mover, so it is X's
    exactly on odd counts; and a draw always leaves the turn with X. *)
Theorem turn_follows_the_move_count
        (es : list Event) (s : Server) (c : string) (r : Room) (rs : list Http.Request)
        (Hrun : run initial es = Some s) (Hr : rooms s !! c = Some r) :
  (winner r = None → isDraw r = false →
   currentPlayer r = if Nat.even (moveCount r) then X else O)
  ∧ (winner r ≠ None ∨ isDraw r = true →
     currentPlayer r = if Nat.even (moveCount r) then O else X)
  ∧ (isDraw r = true → currentPlayer r = X)
  ∧ let g := foldl Http.handle Http.createNewGame rs in
    Http.currentPlayer g
    = if xorb (Nat.even (Http.moveCount g)) (over (Http.winner g) (Http.isDraw g))
      then X else O.
Proof.
  destruct (reachable_roomInvariant es s c r Hrun Hr) as (_ & _ & _ & Hd & Hcur).
  assert (Hover : winner r ≠ None ∨ isDraw r = true →
                  currentPlayer r = if Nat.even (moveCount r) then O else X).
  { intros Hdec. rewrite Hcur. unfold over.
    assert (bool_decide (winner r ≠ None) || isDraw r = true) as ->.
    { destruct Hdec as [Hw | Hdraw]; [|by rewrite Hdraw, orb_true_r].
      by rewrite bool_decide_eq_true_2. }
    by destruct (Nat.even (moveCount r)). }
  split; [|split; [exact Hover|split]].
  - intros Hw Hdraw. rewrite Hcur, Hw, Hdraw. unfold over. simpl.
    by rewrite xorb_false_r.
  - intros Hdraw. rewrite Hover by by right.
    destruct (proj1 Hd Hdraw) as [-> _]. done.
  - simpl. by destruct (Http_reachable_invariant rs) as (_ & _ & _ & _ & Hcur').
Qed.

(** After one accepted move it is O's turn. *)
Lemma turn_follows_the_move_count_witness :
  run initial oneMove = Some (stateAfter oneMove)
  ∧ rooms (stateAfter oneMove) !! "AAAA" = Some (roomAt (stateAfter oneMove) "AAAA")
  ∧ winner (roomAt (stateAfter oneMove) "AAAA") = None
  ∧ isDraw (roomAt (stateAfter oneMove) "AAAA") = false
  ∧ currentPlayer (roomAt (stateAfter oneMove) "AAAA") = O.
Proof.
  assert (Hrun : run initial oneMove = Some (stateAfter oneMove)) by by_running.
  assert (Hr : rooms (stateAfter oneMove) !! "AAAA"
               = Some (roomAt (stateAfter oneMove) "AAAA")) by by_running.
  assert (Hw : winner (roomAt (stateAfter oneMove) "AAAA") = None) by by_running.
  assert (Hd : isDraw (roomAt (stateAfter oneMove) "AAAA") = false) by by_running.
  split; [exact Hrun|]. split; [exact Hr|]. split; [exact Hw|]. split; [exact Hd|].
  exact (proj1 (turn_follows_the_move_count
                  oneMove (stateAfter oneMove) "AAAA"
                  (roomAt (stateAfter oneMove) "AAAA") [] Hrun Hr) Hw Hd).
Defined.

(** X14. The stored winner is always the symbol that moved last: in every
    state the server reaches, and in the single game after every sequence of
    requests, a stored winner is the stored [currentPlayer] (the turn is not
    passed by the winning move, and a move never completes a line of the
    other symbol). *)
Theorem winner_is_the_last_mover
        (es : list Event) (s : Server) (c : string) (r : Room) (rs : list Http.Request)
        (w : Symbol)
        (Hrun : run initial es = Some s) (Hr : rooms s !! c = Some r) :
  (winner r = Some w → currentPlayer r = w)
  ∧ (Http.winner (foldl Http.handle Http.createNewGame rs) = Some w →
     Http.currentPlayer (foldl Http.handle Http.createNewGame rs) = w).
Proof.
  split.
  - by apply (reachable_winner_moved es s c r Hrun Hr).
  - apply Http_winner_moved.
Qed.

(** After X took the top row the turn is still X's. *)
Lemma winner_is_the_last_mover_witness :
  run initial topRow = Some (stateAfter topRow)
  ∧ rooms (stateAfter topRow) !! "AAAA" = Some (roomAt (stateAfter topRow) "AAAA")
  ∧ winner (roomAt (stateAfter topRow) "AAAA") = Some X
  ∧ currentPlayer (roomAt (stateAfter topRow) "AAAA") = X.
Proof.
  assert (Hrun : run initial topRow = Some (stateAfter topRow)) by by_running.
  assert (Hr : rooms (stateAfter topRow) !! "AAAA"
               = Some (roomAt (stateAfter topRow) "AAAA")) by by_running.
  assert (Hw : winner (roomAt (stateAfter topRow) "AAAA") = Some X) by by_running.
  split; [exact Hrun|]. split; [exact Hr|]. split; [exact Hw|].
  exact (proj1 (winner_is_the_last_mover
                  topRow (stateAfter topRow) "AAAA"
                  (roomAt (stateAfter topRow) "AAAA") [] X Hrun Hr) Hw).
Defined.

(** ** The log of sent messages *)

Lemma grows_frame (s s' : Server) :
  outbox s' = outbox s → length (conns s') = length (conns s) →
  (∀ ws, isOpen s' ws = isOpen s ws) → grows s s'.
Proof.
  intros Ho Hl Hopen. split; [done|]. split; [done|]. exists [].
  rewrite app_nil_r. split; [done|]. intros to m H. by apply elem_of_nil in H.
Qed.

Lemma grows_refl (s : Server) : grows s s.
Proof. by apply grows_frame. Qed.

Lemma grows_trans (s1 s2 s3 : Server) : grows s1 s2 → grows s2 s3 → grows s1 s3.
Proof.
  intros (Hl1 & Ho1 & l1 & Hb1 & Hr1) (Hl2 & Ho2 & l2 & Hb2 & Hr2).
  split; [congruence|]. split; [intros ws; by rewrite Ho2|].
  exists (l1 ++ l2). split; [by rewrite Hb2, Hb1, app_assoc|].
  intros to m Hin. apply elem_of_app in Hin as [Hin|Hin]; [by eapply Hr1|].
  rewrite <- Ho1. by eapply Hr2.
Qed.

Lemma send_grows (ws : nat) (m : ServerMsg) (s : Server) : grows s (send ws m s).
Proof.
  unfold send. destruct (isOpen s ws) eqn:Hopen; [|apply grows_refl].
  split; [done|]. split; [done|]. exists [(ws, m)]. split; [done|].
  intros to m' Hin. apply list_elem_of_singleton in Hin. by simplify_eq.
Qed.

Lemma forEachPlayer_grows (f : Symbol → ServerMsg) (room : Room) (s : Server) :
  grows s (forEachPlayer f room s).
Proof.
  unfold forEachPlayer. simpl.
  destruct (slotX (players room)) as [x|], (slotO (players room)) as [o|];
    try apply grows_refl; try apply send_grows.
  eapply grows_trans; apply send_grows.
Qed.

Lemma grows_alter (f : Conn → Conn) (ws : nat) (s s' : Server) :
  (∀ w, readyState (f w) = readyState w) →
  conns s' = alter f ws (conns s) → outbox s' = outbox s → grows s s'.
Proof.
  intros Hf Hc Ho. apply grows_frame; [done | by rewrite Hc, length_alter |].
  intros ws'. by apply (isOpen_alter f ws).
Qed.

Lemma grows_same_conns (s s' : Server) :
  conns s' = conns s → outbox s' = outbox s → grows s s'.
Proof.
  intros Hc Ho. apply grows_frame; [done | by rewrite Hc |].
  intros ws. by apply isOpen_same_conns.
Qed.

Lemma onCreate_grows (ws : nat) (env : Env) (s s' : Server) :
  onCreate ws env s = Some s' → grows s s'.
Proof.
  unfold onCreate. destruct (makeCode (codeDraws env) (rooms s)) as [c|]; [|done].
  intros [= <-].
  eapply grows_trans; [|apply send_grows].
  eapply grows_trans; [|apply send_grows].
  by apply (grows_alter (bind c (if coin env then X else O)) ws).
Qed.

Lemma onJoin_grows (ws : nat) (mc : JsCode) (env : Env) (s : Server) :
  grows s (onJoin ws mc env s).
Proof.
  unfold onJoin. destruct (rooms s !! normalizeCode mc) as [room|]; [|apply send_grows].
  destruct (availableSlot room) as [a|]; [|apply send_grows].
  destruct (slot (disconnectTimers room) a) as [t|];
    (eapply grows_trans; [|apply forEachPlayer_grows]);
    (eapply grows_trans; [|apply send_grows]);
    by apply (grows_alter (bind (normalizeCode mc) a) ws).
Qed.

Lemma onMove_grows (ws : nat) (index : JsValue) (env : Env) (s : Server) :
  grows s (onMove ws index env s).
Proof.
  unfold onMove. destruct (roomOf s ws) as [[c room]|]; [|apply grows_refl].
  destruct (symbolOf s ws) as [sym|]; [|apply send_grows].
  case_bool_decide; [apply send_grows|].
  destruct index as [q| |]; try apply send_grows.
  destruct (refused room q); [apply send_grows|].
  eapply grows_trans; [|apply forEachPlayer_grows]. by apply grows_same_conns.
Qed.

Lemma restart_grows (keep : Scores → Scores) (ws : nat) (env : Env) (s : Server) :
  grows s (restart keep ws env s).
Proof.
  unfold restart. destruct (roomOf s ws) as [[c room]|]; [|apply grows_refl].
  destruct (reshufflePlayers (coin env) (clearedRoom keep room) (conns s))
    as [room1 cs] eqn:E.
  eapply grows_trans; [|apply forEachPlayer_grows].
  eapply grows_trans; [|apply forEachPlayer_grows].
  assert (Hcs : cs = snd (reshufflePlayers (coin env) (clearedRoom keep room) (conns s)))
    by by rewrite E.
  apply grows_frame; [done | |].
  - simpl. rewrite Hcs. unfold reshufflePlayers.
    destruct (coin env), (slotX (players (clearedRoom keep room))),
      (slotO (players (clearedRoom keep room))); simpl; by rewrite ?length_alter.
  - intros ws'. by apply (isOpen_reshuffle (coin env) (clearedRoom keep room)).
Qed.

Lemma timerCallback_grows (tm : Timer) (s : Server) : grows s (timerCallback tm s).
Proof.
  unfold timerCallback. destruct (roomOf s (timerWs tm)) as [[c r]|]; [|apply grows_refl].
  case_bool_decide; [|apply grows_refl].
  destruct (slot (players r) (other (timerSym tm))) as [o|].
  - eapply grows_trans; [apply send_grows|]. by apply grows_same_conns.
  - by apply grows_same_conns.
Qed.

Lemma onTimeout_grows (t : nat) (s : Server) : grows s (onTimeout t s).
Proof.
  unfold onTimeout. destruct (timers s !! t) as [tm|]; [|apply grows_refl].
  destruct (timerPending tm); [|apply grows_refl].
  eapply grows_trans; [|apply timerCallback_grows]. by apply grows_same_conns.
Qed.

Lemma onClose_grows (ws : nat) (s : Server) : grows s (onClose ws s).
Proof.
  unfold onClose. destruct (roomOf s ws) as [[c room]|]; [|apply grows_refl].
  destruct (symbolOf s ws) as [sym|]; [|apply grows_refl].
  destruct (slot (players (setPlayers (setSlot sym None (players room)) room)) (other sym))
    as [o|].
  - eapply grows_trans; [apply send_grows|]. by apply grows_same_conns.
  - by apply grows_same_conns.
Qed.

(** One event: connections are only added, a connection that is not open
    stays so, and what is sent goes to connections that were open. *)
Lemma step_outbox (s s' : Server) (e : Event) :
  step s e = Some s' →
  length (conns s) ≤ length (conns s')
  ∧ (∀ ws, ws < length (conns s) → isOpen s ws = false → isOpen s' ws = false)
  ∧ ∃ l, outbox s' = outbox s ++ l ∧ ∀ to m, (to, m) ∈ l → isOpen s to = true.
Proof.
  assert (Hgrows : ∀ s1, grows s s1 →
            length (conns s) ≤ length (conns s1)
            ∧ (∀ ws, ws < length (conns s) → isOpen s ws = false → isOpen s1 ws = false)
            ∧ ∃ l, outbox s1 = outbox s ++ l ∧ ∀ to m, (to, m) ∈ l → isOpen s to = true).
  { intros s1 (Hl & Ho & Hout). split; [lia|]. split; [|done].
    intros ws _. by rewrite Ho. }
  destruct e as [|ws msg env|ws|t|t]; simpl.
  - intros [= <-]. simpl. rewrite length_app. split; [lia|]. split.
    + intros ws Hlt. unfold isOpen. simpl. by rewrite lookup_app_l.
    + exists []. rewrite app_nil_r. split; [done|].
      intros to m H. by apply elem_of_nil in H.
  - destruct (isOpen s ws); [|intros [= <-]; apply Hgrows, grows_refl].
    destruct msg as [|mc|index| | | | |]; simpl; try discriminate.
    + intros H. by apply Hgrows, (onCreate_grows ws env).
    + intros [= <-]. apply Hgrows, onJoin_grows.
    + intros [= <-]. apply Hgrows, onMove_grows.
    + intros [= <-]. apply Hgrows, restart_grows.
    + intros [= <-]. apply Hgrows, restart_grows.
    + intros [= <-]. apply Hgrows, grows_refl.
  - destruct (isOpen s ws); [|intros [= <-]; apply Hgrows, grows_refl].
    intros [= <-].
    destruct (onClose_grows ws (setConns (alter (setReadyState 3) ws (conns s)) s))
      as (Hl & Ho & l & Hout & Hrec).
    simpl in Hl, Hout. rewrite length_alter in Hl. split; [lia|]. split.
    + intros ws' _ Hclosed. rewrite Ho, isOpen_after_close. by rewrite Hclosed.
    + exists l. split; [done|]. intros to m Hin.
      specialize (Hrec to m Hin). rewrite isOpen_after_close in Hrec.
      by apply andb_true_iff in Hrec as [? _].
  - intros [= <-]. apply Hgrows, onTimeout_grows.
  - intros [= <-]. apply Hgrows. by apply grows_same_conns.
Qed.

(** X15. The log of sent messages only grows, and a connection that is not
    open never gets a message again: over any run of events from any state,
    the log at the end is the log at the start followed by messages none of
    which goes to a connection that existed at the start and was not open
    (closed connections are never reopened, and every send checks
    [readyState]). *)
Theorem closed_connection_gets_nothing (s s' : Server) (es : list Event)
        (Hrun : run s es = Some s') :
  length (conns s) ≤ length (conns s')
  ∧ (∀ ws, ws < length (conns s) → isOpen s ws = false → isOpen s' ws = false)
  ∧ ∃ l, outbox s' = outbox s ++ l
         ∧ ∀ to m, (to, m) ∈ l → to < length (conns s) → isOpen s to = true.
Proof.
  revert s Hrun. induction es as [|e es IH]; intros s; simpl.
  - intros [= <-]. split; [done|]. split; [done|]. exists []. rewrite app_nil_r.
    split; [done|]. intros to m H. by apply elem_of_nil in H.
  - destruct (step s e) as [s1|] eqn:Hstep; [|done]. intros Hrun.
    destruct (step_outbox s s1 e Hstep) as (Hl1 & Hc1 & l1 & Ho1 & Hr1).
    destruct (IH s1 Hrun) as (Hl2 & Hc2 & l2 & Ho2 & Hr2).
    split; [lia|]. split.
    + intros ws Hlt Hclosed. apply Hc2; [lia|]. by apply Hc1.
    + exists (l1 ++ l2). split; [by rewrite Ho2, Ho1, app_assoc|].
      intros to m Hin Hlt. apply elem_of_app in Hin as [Hin|Hin]; [by eapply Hr1|].
      destruct (isOpen s to) eqn:Hopen; [done|].
      rewrite <- (Hc1 to Hlt Hopen). apply (Hr2 to m Hin). lia.
Qed.

(** After connection 1 left the room of AAAA, a reset by connection 0 sends
    to connection 0 only. *)
Lemma closed_connection_gets_nothing_witness :
  run (stateAfter oneLeft) [EMessage 0 MsgReset heads]
  = Some (stateAfter (oneLeft ++ [EMessage 0 MsgReset heads]))
  ∧ isOpen (stateAfter oneLeft) 1 = false
  ∧ isOpen (stateAfter (oneLeft ++ [EMessage 0 MsgReset heads])) 1 = false.
Proof.
  assert (Hrun : run (stateAfter oneLeft) [EMessage 0 MsgReset heads]
                 = Some (stateAfter (oneLeft ++ [EMessage 0 MsgReset heads])))
    by by_running.
  assert (Hclosed : isOpen (stateAfter oneLeft) 1 = false) by by_running.
  split; [exact Hrun|]. split; [exact Hclosed|].
  apply (proj1 (proj2 (closed_connection_gets_nothing _ _ _ Hrun)) 1); [|exact Hclosed].
  vm_compute. lia.
Defined.

(** ** The requests of the single-game variant *)

Lemma cellIndex_None_taken (b : list Cell) (q : Q) :
  cellIndex q = None → Http.taken b q = true.
Proof. unfold Http.taken. by intros ->. Qed.

(** X16. The checks of [POST /api/move] in their order. An index that is
    not a finite number in the range 0 to 8 is answered with 400 'Invalid
    index'. A number in range whose cell is not [null] is answered with 400
    'Cell already taken', also when the game is over, and so is every number
    in range that is not an integer (the array has no such element, and
    [undefined !== null]); the same index in an open round of [server.js]
    whose board has no property of that name is not refused. A free cell of a game that is over
    is answered with 400 'Game is over'. Every 400 leaves the game as it
    was, and the answer is the game's view exactly when all checks pass. *)
Theorem api_move_checks_in_order (g : Http.Game) :
  (∀ index, outOfRange index ∨ index = JsOther →
            Http.move index g = (g, Http.Status400 "Invalid index"))
  ∧ (∀ q, (0 <= q)%Q → (q <= 8)%Q → Http.taken (Http.board g) q = true →
          Http.move (JsNumber q) g = (g, Http.Status400 "Cell already taken"))
  ∧ (∀ q, (0 <= q)%Q → (q <= 8)%Q → cellIndex q = None →
          Http.move (JsNumber q) g = (g, Http.Status400 "Cell already taken")
          ∧ ∀ room, lookupProp q (props (board room)) = None → winner room = None →
                    isDraw room = false → refused room q = false)
  ∧ (∀ q, (0 <= q)%Q → (q <= 8)%Q → Http.taken (Http.board g) q = false →
          Http.winner g ≠ None ∨ Http.isDraw g = true →
          Http.move (JsNumber q) g = (g, Http.Status400 "Game is over"))
  ∧ (∀ index e, snd (Http.move index g) = Http.Status400 e →
                fst (Http.move index g) = g)
  ∧ (∀ q, Http.accepted g q ↔
          ∃ v, snd (Http.move (JsNumber q) g) = Http.Json v).
Proof.
  assert (Hin : ∀ q, (0 <= q)%Q → (q <= 8)%Q →
                     negb (Qle_bool 0 q) || negb (Qle_bool q 8) = false).
  { intros q H0 H8. apply orb_false_iff. rewrite !negb_false_iff, !Qle_bool_iff. done. }
  split; [|split; [|split; [|split; [|split]]]].
  - intros [q| |] [Hout|Heq]; try done. simpl in Hout. unfold Http.move.
    assert (negb (Qle_bool 0 q) || negb (Qle_bool q 8) = true) as ->; [|done].
    apply orb_true_iff. rewrite !negb_true_iff, !Qle_bool_false. done.
  - intros q H0 H8 Ht. unfold Http.move. by rewrite (Hin q H0 H8), Ht.
  - intros q H0 H8 Hi. split.
    + unfold Http.move. by rewrite (Hin q H0 H8), (cellIndex_None_taken _ q Hi).
    + intros room Hp Hw Hd. apply refused_false. repeat split; try done.
      unfold boardGet. by rewrite Hi.
  - intros q H0 H8 Ht Hover. unfold Http.move. rewrite (Hin q H0 H8), Ht.
    assert (bool_decide (Http.winner g ≠ None) || Http.isDraw g = true) as ->; [|done].
    destruct Hover as [Hw|Hd]; [|by rewrite Hd, orb_true_r].
    by rewrite bool_decide_eq_true_2.
  - intros index e. unfold Http.move. destruct index as [q| |]; try done.
    destruct (negb (Qle_bool 0 q) || negb (Qle_bool q 8)); [done|].
    destruct (Http.taken (Http.board g) q); [done|].
    by destruct (bool_decide (Http.winner g ≠ None) || Http.isDraw g).
  - intros q. unfold Http.accepted, Http.move.
    destruct (negb (Qle_bool 0 q) || negb (Qle_bool q 8)).
    { split; [by intros [? _] | by intros [v ?]]. }
    destruct (Http.taken (Http.board g) q).
    { split; [by intros (_ & ? & _) | by intros [v ?]]. }
    destruct (bool_decide (Http.winner g ≠ None) || Http.isDraw g).
    { split; [by intros (_ & _ & ?) | by intros [v ?]]. }
    split; [|done]. intros _. by eexists.
Qed.

(** ** Cells *)

Lemma Http_handle_length (g : Http.Game) (r : Http.Request) :
  length (Http.board g) = 9 → length (Http.board (Http.handle g r)) = 9.
Proof.
  intros Hg. destruct r as [[q| |]| |]; simpl; try done.
  destruct (negb (Qle_bool 0 q) || negb (Qle_bool q 8)); [done|].
  destruct (Http.taken (Http.board g) q); [done|].
  destruct (bool_decide (Http.winner g ≠ None) || Http.isDraw g); [done|]. simpl.
  assert (Hb : length (Http.boardSet (Http.board g) q (Http.currentPlayer g)) = 9).
  { unfold Http.boardSet. destruct (cellIndex q); by rewrite ?length_insert. }
  unfold Http.applyMove. by destruct (checkWinner _) as [[w line]|]; [|case_bool_decide].
Qed.

Lemma Http_reachable_counted (rs : list Http.Request) :
  length (Http.board (foldl Http.handle Http.createNewGame rs)) = 9
  ∧ Http_counted (foldl Http.handle Http.createNewGame rs).
Proof.
  enough (H : ∀ g, length (Http.board g) = 9 ∧ Http_counted g →
                   length (Http.board (foldl Http.handle g rs)) = 9
                   ∧ Http_counted (foldl Http.handle g rs)) by by apply H.
  induction rs as [|r rs IH]; intros g [Hl Hc]; [done|].
  simpl. apply IH. split; [by apply Http_handle_length | by apply Http_handle_counted].
Qed.

(** X17. In every state the server reaches every board has nine cells, and
    [moveCount] is the number of filled cells plus the number of named
    properties that accepted moves with a non-integer index have put on the
    board; a room shown as a draw has a full board only if it has no such
    property. In the single game, after every sequence of requests, the
    board has nine cells, [moveCount] is the number of filled cells, and a
    draw means that all nine cells are filled. *)
Theorem move_count_is_cells_plus_properties
        (es : list Event) (s : Server) (c : string) (r : Room) (rs : list Http.Request)
        (Hrun : run initial es = Some s) (Hr : rooms s !! c = Some r) :
  length (cells (board r)) = 9
  ∧ moveCount r = filledCells (cells (board r)) + length (props (board r))
  ∧ (isDraw r = true →
     (filledCells (cells (board r)) = 9 ↔ props (board r) = []))
  ∧ let g := foldl Http.handle Http.createNewGame rs in
    length (Http.board g) = 9
    ∧ Http.moveCount g = filledCells (Http.board g)
    ∧ (Http.isDraw g = true → filledCells (Http.board g) = 9).
Proof.
  destruct (reachable_counted es s c r Hrun Hr) as [Hlen Hcount].
  destruct (reachable_roomInvariant es s c r Hrun Hr) as (_ & _ & _ & Hd & _).
  split; [done|]. split; [done|]. split.
  - intros Hdraw. destruct (proj1 Hd Hdraw) as [H9 _]. rewrite H9 in Hcount.
    split.
    + intros Hfull. rewrite Hfull in Hcount.
      destruct (props (board r)); [done | simpl in Hcount; lia].
    + intros Hp. rewrite Hp in Hcount. simpl in Hcount. lia.
  - simpl. destruct (Http_reachable_counted rs) as [Hl Hc]. unfold Http_counted in Hc.
    split; [done|]. split; [done|].
    intros Hdraw. destruct (Http_reachable_invariant rs) as (_ & _ & _ & Hd' & _).
    destruct (proj1 Hd' Hdraw) as [H9 _]. by rewrite <- Hc.
Qed.

(** The room after the eight moves with the indices 0.5 to 7.5: eight moves
    counted, nine cells, none filled. *)
Lemma move_count_is_cells_plus_properties_witness :
  run initial eightHalves = Some (stateAfter eightHalves)
  ∧ rooms (stateAfter eightHalves) !! "AAAA" = Some (roomAt (stateAfter eightHalves) "AAAA")
  ∧ length (cells (board (roomAt (stateAfter eightHalves) "AAAA"))) = 9.
Proof.
  assert (Hrun : run initial eightHalves = Some (stateAfter eightHalves)) by by_running.
  assert (Hr : rooms (stateAfter eightHalves) !! "AAAA"
               = Some (roomAt (stateAfter eightHalves) "AAAA")) by by_running.
  split; [exact Hrun|]. split; [exact Hr|].
  exact (proj1 (move_count_is_cells_plus_properties
                  eightHalves (stateAfter eightHalves) "AAAA"
                  (roomAt (stateAfter eightHalves) "AAAA") [] Hrun Hr)).
Defined.

Lemma boardSet_keeps_filled (b : Board) (q : Q) (sym sym' : Symbol) (i : nat) :
  boardGet b q = None → cells b !! i = Some (Some sym') →
  cells (boardSet b q sym) !! i = Some (Some sym').
Proof.
  unfold boardGet, boardSet. destruct (cellIndex q) as [j|]; simpl; [|done].
  intros Hfree Hi. destruct (decide (j = i)) as [->|Hne].
  - apply cellAt_Some in Hi. congruence.
  - by rewrite list_lookup_insert_ne.
Qed.

(** X18. A filled cell is never overwritten. Whatever the event, a cell of
    a room that holds a symbol holds the same symbol afterwards, unless the
    room is gone or the event started a new round, which leaves the whole
    board empty; and the same for any request to the single game. *)
Theorem filled_cell_is_never_overwritten
        (s s' : Server) (e : Event) (c : string) (r r' : Room) (i : nat) (sym : Symbol)
        (g : Http.Game) (rq : Http.Request)
        (Hstep : step s e = Some s')
        (Hr : rooms s !! c = Some r) (Hr' : rooms s' !! c = Some r')
        (Hcell : cells (board r) !! i = Some (Some sym)) :
  (cells (board r') !! i = Some (Some sym) ∨ board r' = emptyBoard)
  ∧ (Http.board g !! i = Some (Some sym) →
     Http.board (Http.handle g rq) !! i = Some (Some sym)
     ∨ Http.board (Http.handle g rq) = replicate 9 None).
Proof.
  split.
  - pose proof (step_roomChange s s' e c r' Hstep Hr') as Hch. rewrite Hr in Hch.
    inversion Hch as [r0 r1 Hg | | r0 q t r1 Hq Hg | r0 r1 Hs]; subst.
    + left. destruct Hg as (_ & -> & _). done.
    + left. destruct Hg as (_ & -> & _).
      apply refused_false in Hq as (_ & _ & Hfree & _).
      destruct (applyMove_board r q (currentPlayer r) t) as [-> _].
      by apply boardSet_keeps_filled.
    + right. by destruct Hs as (-> & _).
  - intros Hg. destruct rq as [[q| |]| |]; simpl; try (by left); try (by right).
    destruct (negb (Qle_bool 0 q) || negb (Qle_bool q 8)); [by left|].
    destruct (Http.taken (Http.board g) q) eqn:Ht; [by left|].
    destruct (bool_decide (Http.winner g ≠ None) || Http.isDraw g); [by left|].
    left. simpl.
    assert (Hb : Http.boardSet (Http.board g) q (Http.currentPlayer g) !! i
                 = Some (Some sym)).
    { apply Http_taken_false in Ht as (j & Hj & Hfree). unfold Http.boardSet.
      rewrite Hj. destruct (decide (j = i)) as [->|Hne]; [congruence|].
      by rewrite list_lookup_insert_ne. }
    unfold Http.applyMove. by destruct (checkWinner _) as [[w line]|]; [|case_bool_decide].
Qed.

(** X's cell 0 of the room of AAAA is still X's after O played cell 3. *)
Lemma filled_cell_is_never_overwritten_witness :
  step (stateAfter oneMove) (moveAt 1 3) = Some (stateAfter (oneMove ++ [moveAt 1 3]))
  ∧ cells (board (roomAt (stateAfter oneMove) "AAAA")) !! 0 = Some (Some X)
  ∧ (cells (board (roomAt (stateAfter (oneMove ++ [moveAt 1 3])) "AAAA")) !! 0
     = Some (Some X)
     ∨ board (roomAt (stateAfter (oneMove ++ [moveAt 1 3])) "AAAA") = emptyBoard).
Proof.
  assert (Hstep : step (stateAfter oneMove) (moveAt 1 3)
                  = Some (stateAfter (oneMove ++ [moveAt 1 3]))) by by_running.
  assert (Hr : rooms (stateAfter oneMove) !! "AAAA"
               = Some (roomAt (stateAfter oneMove) "AAAA")) by by_running.
  assert (Hr' : rooms (stateAfter (oneMove ++ [moveAt 1 3])) !! "AAAA"
                = Some (roomAt (stateAfter (oneMove ++ [moveAt 1 3])) "AAAA"))
    by by_running.
  assert (Hcell : cells (board (roomAt (stateAfter oneMove) "AAAA")) !! 0
                  = Some (Some X)) by by_running.
  split; [exact Hstep|]. split; [exact Hcell|].
  exact (proj1 (filled_cell_is_never_overwritten
                  (stateAfter oneMove) (stateAfter (oneMove ++ [moveAt 1 3]))
                  (moveAt 1 3) "AAAA" (roomAt (stateAfter oneMove) "AAAA")
                  (roomAt (stateAfter (oneMove ++ [moveAt 1 3])) "AAAA") 0 X
                  Http.createNewGame Http.PostNew Hstep Hr Hr' Hcell)).
Defined.

(** ** The timer record of a slot *)

(** X19. The room records one timer per slot and the close handler
    overwrites the record without clearing the timer it held. When a
    connection with symbol S disconnects from a room that still records
    timer [t0] for slot S, the record becomes the new timer, [t0] stays as
    it was (pending, if it was pending), and the join that takes slot S
    afterwards clears the new timer only: [t0] is still as it was. *)
Theorem close_overwrites_the_recorded_timer
        (s : Server) (ws : nat) (c : string) (room : Room) (sym : Symbol)
        (t0 : nat) (tm : Timer)
        (Hopen : isOpen s ws = true)
        (Hroom : roomOf s ws = Some (c, room))
        (Hsym : symbolOf s ws = Some sym)
        (Hrec : slot (disconnectTimers room) sym = Some t0)
        (Htm : timers s !! t0 = Some tm) :
  ∃ s' room',
    step s (EClose ws) = Some s'
    ∧ rooms s' !! c = Some room'
    ∧ slot (disconnectTimers room') sym = Some (length (timers s))
    ∧ t0 ≠ length (timers s)
    ∧ timers s' !! t0 = Some tm
    ∧ ∀ ws2 mc env,
        normalizeCode mc = c → availableSlot room' = Some sym →
        timers (onJoin ws2 mc env s') !! t0 = Some tm
        ∧ ∀ tm', timers (onJoin ws2 mc env s') !! length (timers s) = Some tm' →
                 timerPending tm' = false.
Proof.
  set (s1 := setConns (alter (setReadyState 3) ws (conns s)) s).
  assert (Hroom1 : roomOf s1 ws = Some (c, room))
    by (unfold s1; by rewrite roomOf_after_close).
  assert (Hsym1 : symbolOf s1 ws = Some sym)
    by (unfold s1; by rewrite symbolOf_after_close).
  destruct (onClose_bound s1 ws c room sym Hroom1 Hsym1)
    as (room' & H1 & _ & _ & _ & H5 & H6 & _).
  pose proof (lookup_lt_Some _ _ _ Htm) as Hlt.
  assert (Htm' : timers (onClose ws s1) !! t0 = Some tm).
  { rewrite H5. simpl. by rewrite lookup_app_l. }
  exists (onClose ws s1), room'. simpl. rewrite Hopen.
  split; [done|]. split; [done|]. split; [done|]. split; [lia|]. split; [done|].
  intros ws2 mc env Hc Hav. unfold onJoin. rewrite Hc, H1, Hav.
  simpl in H6. rewrite H6. unfold broadcastRoom.
  rewrite forEachPlayer_timers, send_timers. simpl. split.
  - unfold clearTimeout. rewrite list_lookup_alter_ne by lia. done.
  - intros tm'. apply clearTimeout_lookup.
Qed.

(** Connection 0 left slot X of AAAA (timer 0); the reset of connection 1
    moved it to slot X; connection 1 leaves too: the record of slot X
    becomes timer 1 and timer 0 stays pending. *)
Lemma close_overwrites_the_recorded_timer_witness :
  let s := stateAfter (twoPlayers ++ [EClose 0; EMessage 1 MsgReset heads]) in
  isOpen s 1 = true
  ∧ roomOf s 1 = Some ("AAAA", roomAt s "AAAA")
  ∧ symbolOf s 1 = Some X
  ∧ slot (disconnectTimers (roomAt s "AAAA")) X = Some 0
  ∧ timers s !! 0 = Some (mkTimer 0 X DISCONNECT_GRACE true)
  ∧ ∃ s' room',
      step s (EClose 1) = Some s'
      ∧ rooms s' !! "AAAA" = Some room'
      ∧ slot (disconnectTimers room') X = Some 1
      ∧ timers s' !! 0 = Some (mkTimer 0 X DISCONNECT_GRACE true).
Proof.
  intros s.
  assert (Hopen : isOpen s 1 = true) by by_running.
  assert (Hroom : roomOf s 1 = Some ("AAAA", roomAt s "AAAA")) by by_running.
  assert (Hsym : symbolOf s 1 = Some X) by by_running.
  assert (Hrec : slot (disconnectTimers (roomAt s "AAAA")) X = Some 0) by by_running.
  assert (Htm : timers s !! 0 = Some (mkTimer 0 X DISCONNECT_GRACE true)) by by_running.
  split; [exact Hopen|]. split; [exact Hroom|]. split; [exact Hsym|].
  split; [exact Hrec|]. split; [exact Htm|].
  destruct (close_overwrites_the_recorded_timer
              s 1 "AAAA" (roomAt s "AAAA") X 0 (mkTimer 0 X DISCONNECT_GRACE true)
              Hopen Hroom Hsym Hrec Htm)
    as (s' & room' & H1 & H2 & H3 & _ & H5 & _).
  exists s', room'. split; [exact H1|]. split; [exact H2|]. split; [|exact H5].
  rewrite H3. by_running.
Defined.

(** ** The reshuffle and the view of a room *)

(** X20. [reshufflePlayers] swaps the two slots as a whole or leaves them,
    by the coin, and gives the turn to X; nothing else of the room changes.
    Of the connections it rewrites [symbol] only, and only for the two it
    seats: a connection in neither slot is untouched, every connection
    keeps its room code and its open or closed state, the connection now in
    slot O has symbol O and the one now in slot X has symbol X (unless it
    is also the one in slot O). Swapping twice gives the slots back. *)
Theorem reshuffle_swaps_or_keeps_the_slots (swap : bool) (room : Room) (cs : list Conn) :
  let room' := fst (reshufflePlayers swap room cs) in
  let cs' := snd (reshufflePlayers swap room cs) in
  players room'
  = (if swap then mkSlots (slotO (players room)) (slotX (players room))
     else players room)
  ∧ currentPlayer room' = X
  ∧ (code room' = code room ∧ board room' = board room ∧ winner room' = winner room
     ∧ winningLine room' = winningLine room ∧ isDraw room' = isDraw room
     ∧ moveCount room' = moveCount room ∧ scores room' = scores room
     ∧ disconnectTimers room' = disconnectTimers room
     ∧ lastActivity room' = lastActivity room)
  ∧ length cs' = length cs
  ∧ (∀ ws, slotX (players room) ≠ Some ws → slotO (players room) ≠ Some ws →
           cs' !! ws = cs !! ws)
  ∧ (∀ ws w, cs !! ws = Some w →
             ∃ w', cs' !! ws = Some w' ∧ roomCode w' = roomCode w
                   ∧ readyState w' = readyState w)
  ∧ (∀ ws w', slotO (players room') = Some ws → cs' !! ws = Some w' →
              symbol w' = Some O)
  ∧ (∀ ws w', slotX (players room') = Some ws → slotO (players room') ≠ Some ws →
              cs' !! ws = Some w' → symbol w' = Some X)
  ∧ players (fst (reshufflePlayers true room' cs'))
    = (if swap then players room
       else mkSlots (slotO (players room)) (slotX (players room))).
Proof.
  intros room' cs'.
  destruct (reshuffle_result swap room cs) as (Hcur & _ & HX & HO & HsO & HsX).
  assert (Hlen : length cs' = length cs).
  { unfold cs', reshufflePlayers.
    destruct swap, (slotX (players room)), (slotO (players room)); simpl;
      by rewrite ?length_alter. }
  assert (Hsome : ∀ ws w', cs' !! ws = Some w' → is_Some (cs !! ws)).
  { intros ws w' Hw. apply lookup_lt_is_Some. rewrite <- Hlen.
    by eapply lookup_lt_Some. }
  split; [|split; [done|split; [|split; [done|split; [|split; [|split; [|split]]]]]]].
  - unfold room', reshufflePlayers. destruct (players room) as [x o].
    by destruct swap.
  - unfold room', reshufflePlayers.
    by destruct swap, (slotX (players room)), (slotO (players room)).
  - intros ws Hx Ho. unfold cs', reshufflePlayers.
    destruct swap, (slotX (players room)) as [x|], (slotO (players room)) as [o|];
      simpl; by rewrite ?list_lookup_alter_ne by congruence.
  - intros ws w Hw. unfold cs', reshufflePlayers.
    assert (Halter : ∀ (sym : Symbol) (a : nat) (l : list Conn) (w0 : Conn),
              l !! ws = Some w0 →
              ∃ w1, alter (setSymbol sym) a l !! ws = Some w1
                    ∧ roomCode w1 = roomCode w0 ∧ readyState w1 = readyState w0).
    { intros sym a l w0 Hl. destruct (decide (a = ws)) as [->|Hne].
      - rewrite list_lookup_alter_eq, Hl. simpl. by eexists.
      - rewrite list_lookup_alter_ne by done. by eexists. }
    destruct swap, (slotX (players room)) as [x|], (slotO (players room)) as [o|];
      simpl; try (by eexists); try (by apply Halter).
    + destruct (Halter X o cs w Hw) as (w1 & H1 & Hc1 & Hr1).
      destruct (Halter O x _ w1 H1) as (w2 & H2 & Hc2 & Hr2).
      exists w2. split; [done|]. split; congruence.
    + destruct (Halter X x cs w Hw) as (w1 & H1 & Hc1 & Hr1).
      destruct (Halter O o _ w1 H1) as (w2 & H2 & Hc2 & Hr2).
      exists w2. split; [done|]. split; congruence.
  - intros ws w' Hslot Hw. specialize (HsO ws Hslot (Hsome ws w' Hw)).
    fold cs' in HsO. rewrite Hw in HsO. by injection HsO.
  - intros ws w' Hslot Hne Hw. specialize (HsX ws Hslot Hne (Hsome ws w' Hw)).
    fold cs' in HsX. rewrite Hw in HsX. by injection HsX.
  - fold room' in HX, HO. unfold reshufflePlayers at 1. simpl. rewrite HX, HO.
    destruct (players room) as [x o]. by destruct swap.
Qed.

(** X21. The view [roomState] builds for symbol S. The view given to a
    seated connection counts that connection and its opponent: when slot S
    is taken, [playerCount] is 2 if [opponentConnected] and 1 otherwise; it
    is never more than 2. The views for X and for O differ in [mySymbol] and
    [opponentConnected] only. The board of the view is the nine cells: the
    named properties that moves with a non-integer index put on the board
    are not part of it, so the view after such a move shows the board as it
    was. *)
Theorem roomState_counts_the_seats (room : Room) :
  (∀ sym, slot (players room) sym ≠ None →
          playerCount (roomState room sym)
          = if opponentConnected (roomState room sym) then 2 else 1)
  ∧ (∀ sym, playerCount (roomState room sym) ≤ 2
            ∧ mySymbol (roomState room sym) = sym
            ∧ (opponentConnected (roomState room sym) = true
               ↔ slot (players room) (other sym) ≠ None))
  ∧ (viewBoard (roomState room X) = viewBoard (roomState room O)
     ∧ viewCurrentPlayer (roomState room X) = viewCurrentPlayer (roomState room O)
     ∧ viewWinner (roomState room X) = viewWinner (roomState room O)
     ∧ viewWinningLine (roomState room X) = viewWinningLine (roomState room O)
     ∧ viewIsDraw (roomState room X) = viewIsDraw (roomState room O)
     ∧ viewScores (roomState room X) = viewScores (roomState room O)
     ∧ playerCount (roomState room X) = playerCount (roomState room O))
  ∧ (∀ q sym sym' t, cellIndex q = None →
                     viewBoard (roomState (applyMove room q sym t) sym')
                     = viewBoard (roomState room sym')).
Proof.
  split; [|split; [|split]].
  - intros sym Hs. unfold roomState. simpl.
    destruct sym, (players room) as [[x|] [o|]]; simpl in *; done.
  - intros sym. unfold roomState. simpl. split; [|split; [done|]].
    + destruct (players room) as [[x|] [o|]]; simpl; lia.
    + by rewrite bool_decide_eq_true.
  - done.
  - intros q sym sym' t Hq. unfold roomState. simpl.
    destruct (applyMove_board room q sym t) as [-> _]. unfold boardSet. by rewrite Hq.
Qed.

(** ** The further properties at work on the scenarios *)

(** The first connection creates a room: the code is AAAA. *)
Lemma create_adds_one_room_witness :
  isOpen (stateAfter [EConnection]) 0 = true
  ∧ is_Some (step (stateAfter [EConnection]) (EMessage 0 MsgCreate heads))
  ∧ ∃ c room,
      makeCode (codeDraws heads) (rooms (stateAfter [EConnection])) = Some c
      ∧ rooms (stateAfter [EConnection; EMessage 0 MsgCreate heads])
        = <[c := room]> (rooms (stateAfter [EConnection])).
Proof.
  assert (Hopen : isOpen (stateAfter [EConnection]) 0 = true) by by_running.
  assert (Hstep : step (stateAfter [EConnection]) (EMessage 0 MsgCreate heads)
                  = Some (stateAfter [EConnection; EMessage 0 MsgCreate heads]))
    by by_running.
  destruct (create_adds_one_room (stateAfter [EConnection]) 0 heads Hopen)
    as [Hreturns Hadds].
  split; [exact Hopen|]. split.
  { apply Hreturns. exists (0, 0, 0, 0). split; [by left | by_running]. }
  destruct (Hadds _ Hstep) as (c & room & view & H1 & _ & H3 & _).
  exists c, room. split; [exact H1 | exact H3].
Defined.

(** Connection 0 creates AAAA as X; connection 1 joins with " aaaa " and is
    seated as O. *)
Lemma created_code_admits_second_player_witness :
  isOpen (stateAfter [EConnection; EConnection]) 0 = true
  ∧ isOpen (stateAfter [EConnection; EConnection]) 1 = true
  ∧ step (stateAfter [EConnection; EConnection]) (EMessage 0 MsgCreate heads)
    = Some (stateAfter [EConnection; EConnection; EMessage 0 MsgCreate heads])
  ∧ makeCode (codeDraws heads) (rooms (stateAfter [EConnection; EConnection]))
    = Some "AAAA"
  ∧ normalizeCode (CodeAscii " aaaa ") = "AAAA"
  ∧ ∃ r2,
      rooms (onJoin 1 (CodeAscii " aaaa ") heads
               (stateAfter [EConnection; EConnection; EMessage 0 MsgCreate heads]))
      !! "AAAA" = Some r2
      ∧ slot (players r2) O = Some 1.
Proof.
  assert (Hhost : isOpen (stateAfter [EConnection; EConnection]) 0 = true) by by_running.
  assert (Hguest : isOpen (stateAfter [EConnection; EConnection]) 1 = true) by by_running.
  assert (Hcreate : step (stateAfter [EConnection; EConnection]) (EMessage 0 MsgCreate heads)
                    = Some (stateAfter [EConnection; EConnection; EMessage 0 MsgCreate heads]))
    by by_running.
  assert (Hcode : makeCode (codeDraws heads) (rooms (stateAfter [EConnection; EConnection]))
                  = Some "AAAA") by by_running.
  assert (Hmc : normalizeCode (CodeAscii " aaaa ") = "AAAA") by by_running.
  split; [exact Hhost|]. split; [exact Hguest|]. split; [exact Hcreate|].
  split; [exact Hcode|]. split; [exact Hmc|].
  destruct (created_code_admits_second_player _ _ 0 1 heads heads (CodeAscii " aaaa ") "AAAA"
              Hhost Hguest Hcreate Hcode Hmc)
    as (r2 & _ & H2 & _ & H4 & _).
  exists r2. split; [exact H2 | exact H4].
Defined.

(** After X took the top row and has one win, a new gives the scores 0, 0, 0. *)
Lemma new_zeroes_scores_and_clears_round_witness :
  isOpen (stateAfter topRow) 0 = true
  ∧ roomOf (stateAfter topRow) 0 = Some ("AAAA", roomAt (stateAfter topRow) "AAAA")
  ∧ scores (roomAt (stateAfter topRow) "AAAA") = mkScores 1 0 0
  ∧ ∃ s' room',
      step (stateAfter topRow) (EMessage 0 MsgNew heads) = Some s'
      ∧ rooms s' !! "AAAA" = Some room'
      ∧ scores room' = mkScores 0 0 0.
Proof.
  assert (Hopen : isOpen (stateAfter topRow) 0 = true) by by_running.
  assert (Hroom : roomOf (stateAfter topRow) 0
                  = Some ("AAAA", roomAt (stateAfter topRow) "AAAA")) by by_running.
  split; [exact Hopen|]. split; [exact Hroom|]. split; [by_running|].
  destruct (proj1 (proj2 (new_zeroes_scores_and_clears_round
                            (stateAfter topRow) 0 heads Hopen)) _ _ Hroom)
    as (s' & room' & H1 & H2 & H3 & _).
  exists s', room'. split; [exact H1|]. split; [exact H2 | exact H3].
Defined.

(** A reset in the room of two players leaves the timers as they were. *)
Lemma restart_notifies_the_two_slots_witness :
  isOpen (stateAfter twoPlayers) 0 = true
  ∧ roomOf (stateAfter twoPlayers) 0
    = Some ("AAAA", roomAt (stateAfter twoPlayers) "AAAA")
  ∧ ∃ s', step (stateAfter twoPlayers) (EMessage 0 MsgReset heads) = Some s'
          ∧ timers s' = timers (stateAfter twoPlayers).
Proof.
  assert (Hopen : isOpen (stateAfter twoPlayers) 0 = true) by by_running.
  assert (Hroom : roomOf (stateAfter twoPlayers) 0
                  = Some ("AAAA", roomAt (stateAfter twoPlayers) "AAAA")) by by_running.
  split; [exact Hopen|]. split; [exact Hroom|].
  destruct (restart_notifies_the_two_slots
              (stateAfter twoPlayers) 0 MsgReset heads "AAAA"
              (roomAt (stateAfter twoPlayers) "AAAA") Hopen (or_introl eq_refl) Hroom)
    as (s' & room' & H1 & _ & _ & H4 & _).
  exists s'. split; [exact H1 | exact H4].
Defined.

(** The first move of X in the room of two players, at cell 0. *)
Lemma accepted_move_is_broadcast_witness :
  isOpen (stateAfter twoPlayers) 0 = true
  ∧ accepted (stateAfter twoPlayers) 0 "AAAA" (roomAt (stateAfter twoPlayers) "AAAA") 0
  ∧ length (cells (board (roomAt (stateAfter twoPlayers) "AAAA"))) = 9
  ∧ ∃ s' room',
      step (stateAfter twoPlayers) (EMessage 0 (MsgMove (JsNumber 0)) heads) = Some s'
      ∧ rooms s' = <[ "AAAA" := room' ]> (rooms (stateAfter twoPlayers))
      ∧ moveCount room' = 1.
Proof.
  assert (Hopen : isOpen (stateAfter twoPlayers) 0 = true) by by_running.
  assert (Hacc : accepted (stateAfter twoPlayers) 0 "AAAA"
                          (roomAt (stateAfter twoPlayers) "AAAA") 0)
    by (unfold accepted; by_running).
  assert (Hnine : length (cells (board (roomAt (stateAfter twoPlayers) "AAAA"))) = 9)
    by by_running.
  split; [exact Hopen|]. split; [exact Hacc|]. split; [exact Hnine|].
  destruct (accepted_move_is_broadcast
              (stateAfter twoPlayers) 0 "AAAA" (roomAt (stateAfter twoPlayers) "AAAA")
              0 heads Hopen Hacc Hnine)
    as (s' & room' & H1 & H2 & _ & _ & _ & _ & _ & _ & H9 & _).
  exists s', room'. split; [exact H1|]. split; [exact H2|]. rewrite H9. by_running.
Defined.

(** A connection that never created or joined a room sends a reset. *)
Lemma message_without_room_changes_nothing_witness :
  isOpen (stateAfter [EConnection]) 0 = true
  ∧ roomOf (stateAfter [EConnection]) 0 = None
  ∧ step (stateAfter [EConnection]) (EMessage 0 MsgReset heads)
    = Some (stateAfter [EConnection]).
Proof.
  assert (Hopen : isOpen (stateAfter [EConnection]) 0 = true) by by_running.
  assert (Hnone : roomOf (stateAfter [EConnection]) 0 = None) by by_running.
  split; [exact Hopen|]. split; [exact Hnone|].
  exact (proj1 (proj2 (message_without_room_changes_nothing
                         (stateAfter [EConnection]) 0 heads Hopen Hnone))).
Defined.
